(** * A one-dimensional finite-volume hydro code: embedding and properties

    Shallow embedding of the notebook [write_a_hydrocode.ipynb]: the grid
    class [FVGrid] with its ghost-cell fill, the conserved-to-primitive
    conversion, the unlimited piecewise-linear reconstruction, the flux
    divergence, the CFL timestep and the driver [mol_solve] with its
    two-stage time loop.

    Arrays are lists; NumPy's slicing, broadcasting and index errors are
    written out.  The arithmetic of the cells is an interface ([Scalar]) with
    two instances: IEEE binary64 (the [np.float64] of the notebook, which
    evaluates) and the real numbers (exact arithmetic).  What depends on the
    structure of the code only is proved for every arithmetic; what depends
    on the numbers is proved for binary64 where rounding does not enter, and
    in exact arithmetic, under the provisos that keep every division of the
    code defined, where it does. *)

From Stdlib Require Import ZArith Reals Lra Lia Floats.
From stdpp Require Import base option list.

(** ** Python exceptions as results *)

Inductive pyerr : Set :=
  IndexError | ValueError | ZeroDivisionError | OverflowError.

Inductive pyresult (A : Type) : Type :=
| Ok (a : A)
| Raise (e : pyerr).
Arguments Ok {A} a.
Arguments Raise {A} e.

#[global] Instance pyresult_ret : MRet pyresult := λ A a, Ok a.
#[global] Instance pyresult_bind : MBind pyresult := λ A B f m,
  match m with Ok a => f a | Raise e => Raise e end.

(** [for x in xs: acc = body(acc, x)], stopping at the first exception. *)
Fixpoint foldM {A B : Type} (body : A → B → pyresult A) (acc : A) (xs : list B)
  : pyresult A :=
  match xs with
  | [] => Ok acc
  | x :: xs => acc ← body acc x; foldM body acc xs
  end.

Definition returns {A : Type} (m : pyresult A) : Prop := ∃ a, m = Ok a.

(** ** Python indices, slices and ranges *)

(** [range(lo, hi)] over Python integers. *)
Definition zrange (lo hi : Z) : list Z :=
  (λ k : nat, (lo + Z.of_nat k)%Z) <$> seq 0 (Z.to_nat (hi - lo)).

(** [range(n)] *)
Definition range (n : nat) : list nat := seq 0 n.

(** A subscript [a[i]] on an axis of length [n]: negative indices count from
    the end, anything outside [-n, n) is an IndexError. *)
Definition py_index (n : nat) (i : Z) : option nat :=
  let j := if (i <? 0)%Z then (i + Z.of_nat n)%Z else i in
  if ((0 <=? j) && (j <? Z.of_nat n))%Z then Some (Z.to_nat j) else None.

(** One bound of a slice with step 1, as [slice.indices] clips it. *)
Definition py_bound (n : nat) (dflt : nat) (b : option Z) : nat :=
  match b with
  | None => dflt
  | Some i =>
      Z.to_nat (if (i <? 0)%Z then Z.max 0 (i + Z.of_nat n) else Z.min i (Z.of_nat n))
  end.

(** [lo:hi] on an axis of length [n]: first position and number of positions. *)
Definition srange (n : nat) (lo hi : option Z) : nat * nat :=
  let s := py_bound n 0 lo in
  let e := py_bound n n hi in
  (s, e - s).

Definition slice {A : Type} (a : list A) (lo hi : option Z) : list A :=
  let '(s, m) := srange (length a) lo hi in take m (drop s a).

Definition getitem {A : Type} (a : list A) (i : Z) : pyresult A :=
  match py_index (length a) i with
  | Some j => match a !! j with Some v => Ok v | None => Raise IndexError end
  | None => Raise IndexError
  end.

(** In-place update of the positions [s, s + length v): position [s + k]
    becomes [upd (v[k]) old]. *)
Definition assign {A B : Type} (upd : B → A → A) (s : nat) (v : list B)
    (a : list A) : list A :=
  imap (λ i old,
          if decide (s ≤ i)
          then match v !! (i - s) with Some y => upd y old | None => old end
          else old) a.

(** Broadcasting a one-dimensional value to [m] positions: the lengths agree,
    or the value has length 1. *)
Definition broadcast_to {A : Type} (m : nat) (v : list A) : pyresult (list A) :=
  if decide (length v = m) then Ok v
  else match v with
       | [y] => Ok (replicate m y)
       | _ => Raise ValueError
       end.

(** An elementwise binary operation on two arrays. *)
Definition bc2 {A B C : Type} (f : A → B → C) (a : list A) (b : list B)
  : pyresult (list C) :=
  if decide (length a = length b) then Ok (zip_with f a b)
  else match a, b with
       | [u], _ => Ok (f u <$> b)
       | _, [v] => Ok ((λ u, f u v) <$> a)
       | _, _ => Raise ValueError
       end.

(** [a[lo:hi] = v] for an array [v] *)
Definition set_slice {A : Type} (a : list A) (lo hi : option Z) (v : list A)
  : pyresult (list A) :=
  let '(s, m) := srange (length a) lo hi in
  v ← broadcast_to m v;
  Ok (assign (λ y _, y) s v a).

(** [a[lo:hi] = y] for a single cell value [y] *)
Definition fill_slice {A : Type} (a : list A) (lo hi : option Z) (y : A) : list A :=
  let '(s, m) := srange (length a) lo hi in
  assign (λ y _, y) s (replicate m y) a.

(** [a[i] = y] *)
Definition setitem {A : Type} (a : list A) (i : Z) (y : A) : pyresult (list A) :=
  match py_index (length a) i with
  | Some j => Ok (<[j := y]> a)
  | None => Raise IndexError
  end.

(** [a.max()] as a reduction with the binary maximum; empty arrays raise. *)
Definition np_max {A : Type} (fmax : A → A → A) (a : list A) : pyresult A :=
  match a with
  | [] => Raise ValueError
  | y :: a => Ok (foldl fmax y a)
  end.

(** ** The arithmetic of the cells *)

Class Scalar (F : Type) : Type := {
  of_Z : Z → F;          (* an int used in float arithmetic *)
  int_fits : Z → bool;   (* whether a Python int converts to a float *)
  lit_0_5 : F;           (* the literal 0.5 *)
  lit_1_0 : F;           (* the literal 1.0 *)
  lit_1_4 : F;           (* the literal 1.4 *)
  lit_0_8 : F;           (* the literal 0.8 *)
  add : F → F → F;
  sub : F → F → F;
  mul : F → F → F;
  div : F → F → F;
  sqrt : F → F;          (* np.sqrt *)
  abs : F → F;           (* np.abs *)
  fmax : F → F → F;      (* np.maximum, the step of .max() *)
}.

(** [0.0], the content of [np.zeros] *)
Definition zero {F : Type} `{!Scalar F} : F := of_Z 0.

(** [v**2] *)
Definition sqr {F : Type} `{!Scalar F} (v : F) : F := mul v v.

(** IEEE binary64.  An integer becomes the nearest float, ties to even, as
    [float(n)] and the conversion of an [int64] array do; beyond the largest
    float the result is an infinity, and Python's [float(n)] raises an
    OverflowError instead. *)
Definition float_of_Z (z : Z) : float :=
  SF2Prim (binary_normalize prec emax z 0 false).

Definition float_int_fits (z : Z) : bool :=
  negb (PrimFloat.is_infinity (float_of_Z z)).

(** [np.maximum]: a NaN operand is returned. *)
Definition float_max (a b : float) : float :=
  if PrimFloat.is_nan a then a
  else if PrimFloat.is_nan b then b
  else if PrimFloat.ltb a b then b else a.

#[global] Instance float_scalar : Scalar float := {|
  of_Z := float_of_Z;
  int_fits := float_int_fits;
  lit_0_5 := 0x1p-1%float;
  lit_1_0 := 0x1p+0%float;
  lit_1_4 := 0x1.6666666666666p+0%float;
  lit_0_8 := 0x1.999999999999ap-1%float;
  add := PrimFloat.add;
  sub := PrimFloat.sub;
  mul := PrimFloat.mul;
  div := PrimFloat.div;
  sqrt := PrimFloat.sqrt;
  abs := PrimFloat.abs;
  fmax := float_max;
|}.

(** Exact real arithmetic: no rounding, no overflow and no NaN.  Division and
    square root are total functions of Rocq's reals ([x / 0] and the root of
    a negative number are some real number); the statements in this
    arithmetic say which states keep the code clear of them. *)
#[global] Instance real_scalar : Scalar R := {|
  of_Z := IZR;
  int_fits := λ _, true;
  lit_0_5 := (1 / 2)%R;
  lit_1_0 := 1%R;
  lit_1_4 := (14 / 10)%R;
  lit_0_8 := (8 / 10)%R;
  add := Rplus;
  sub := Rminus;
  mul := Rmult;
  div := Rdiv;
  sqrt := R_sqrt.sqrt;
  abs := Rabs;
  fmax := Rmax;
|}.

(** ** Cells: one number, or the three components of a state *)

Record vec3 (F : Type) : Type := V3 { c0 : F; c1 : F; c2 : F }.
Arguments V3 {F} c0 c1 c2.
Arguments c0 {F} v.
Arguments c1 {F} v.
Arguments c2 {F} v.

(** Component indices are the constants [URHO] ... [QP] below and the values of
    [range NVAR]; all are smaller than [NVAR]. *)
Definition vget {F : Type} (n : nat) (v : vec3 F) : F :=
  match n with 0 => c0 v | 1 => c1 v | _ => c2 v end.

Definition vset {F : Type} (n : nat) (y : F) (v : vec3 F) : vec3 F :=
  match n with
  | 0 => V3 y (c1 v) (c2 v)
  | 1 => V3 (c0 v) y (c2 v)
  | 2 => V3 (c0 v) (c1 v) y
  | _ => v
  end.

Definition vmap {F : Type} (f : F → F) (v : vec3 F) : vec3 F :=
  V3 (f (c0 v)) (f (c1 v)) (f (c2 v)).

Definition vzip {F : Type} (f : F → F → F) (u v : vec3 F) : vec3 F :=
  V3 (f (c0 u) (c0 v)) (f (c1 u) (c1 v)) (f (c2 u) (c2 v)).

(** What [fill_BCs] and [scratch_array] need to know of the cells of an array:
    [cell_shape1] is [atmp.shape[1]], absent for a one-dimensional array. *)
Class Cell (F T : Type) : Type := {
  cell_shape1 : option nat;
  cell_zero : T;
  cell_get : nat → T → F;
  cell_set : nat → F → T → T;
}.
Arguments cell_shape1 F T {_}.

#[global] Instance scalar_cell {F : Type} `{!Scalar F} : Cell F F := {|
  cell_shape1 := None;
  cell_zero := zero;
  cell_get := λ _ y, y;
  cell_set := λ _ y _, y;
|}.

#[global] Instance vec3_cell {F : Type} `{!Scalar F} : Cell F (vec3 F) := {|
  cell_shape1 := Some 3;
  cell_zero := V3 zero zero zero;
  cell_get := vget;
  cell_set := vset;
|}.

#[global] Instance vec3_inhabited {F : Type} `{!Scalar F} : Inhabited (vec3 F) :=
  populate (V3 zero zero zero).

#[global] Instance scalar_inhabited {F : Type} `{!Scalar F} : Inhabited F :=
  populate zero.

(** ** The program *)

Section Hydro.
Context {F : Type} `{!Scalar F}.

(** The imported [riemann.riemann(q_l, q_r, gamma)]: the flux through an
    interface from the primitive states on its two sides. *)
Variable riemann : vec3 F → vec3 F → F → vec3 F.

Definition URHO : nat := 0.
Definition UMX : nat := 1.
Definition UENER : nat := 2.

Definition QRHO : nat := 0.
Definition QU : nat := 1.
Definition QP : nat := 2.

Definition NVAR : nat := 3.

Definition gamma : F := lit_1_4.

Definition C : F := lit_0_8.

Record FVGrid : Type := MkGrid {
  xmin : F;
  xmax : F;
  ng : Z;
  nx : Z;
  ilo : Z;
  ihi : Z;
  dx : F;
  x : list F;
}.

(** [a / n] for a Python float [a] and a Python int [n]: a zero divisor
    raises a ZeroDivisionError, and an int too large to be converted to a
    float an OverflowError.  (Python converts first and tests for zero then;
    zero is always converted.) *)
Definition float_div_int (a : F) (n : Z) : pyresult F :=
  if (n =? 0)%Z then Raise ZeroDivisionError
  else if negb (int_fits n) then Raise OverflowError
  else Ok (div a (of_Z n)).

(** [FVGrid.__init__].  The arrays that [np.arange] and [np.zeros] make are
    lists of any length: running out of memory is not modelled. *)
Definition FVGrid_init (nx ng : Z) (xmin xmax : F) : pyresult FVGrid :=
  dx ← float_div_int (sub xmax xmin) nx;
  Ok {| xmin := xmin;
        xmax := xmax;
        ng := ng;
        nx := nx;
        ilo := ng;
        ihi := (ng + nx - 1)%Z;
        dx := dx;
        x := (λ k, add xmin (mul (add (of_Z (k - ng)) lit_0_5) dx))
               <$> zrange 0 (nx + 2 * ng) |}.

(** [scratch_array]: the number of columns is the cell type of the result. *)
Definition scratch_array {T : Type} `{!Cell F T} (g : FVGrid) : pyresult (list T) :=
  let n := (nx g + 2 * ng g)%Z in
  if (n <? 0)%Z then Raise ValueError
  else Ok (replicate (Z.to_nat n) cell_zero).

(** [a[lo:hi, n]] *)
Definition col {T : Type} `{!Cell F T} (a : list T) (lo hi : option Z) (n : nat)
  : list F :=
  cell_get n <$> slice a lo hi.

(** [a[lo:hi, n] = v] *)
Definition set_col {T : Type} `{!Cell F T} (a : list T) (lo hi : option Z)
    (n : nat) (v : list F) : pyresult (list T) :=
  let '(s, m) := srange (length a) lo hi in
  v ← broadcast_to m v;
  Ok (assign (cell_set n) s v a).

(** [a[lo:hi, n] = y] for one number [y] *)
Definition fill_col {T : Type} `{!Cell F T} (a : list T) (lo hi : option Z)
    (n : nat) (y : F) : list T :=
  let '(s, m) := srange (length a) lo hi in
  assign (cell_set n) s (replicate m y) a.

Definition fill_BCs {T : Type} `{!Cell F T} (g : FVGrid) (atmp : list T)
  : pyresult (list T) :=
  let nc := default 1 (cell_shape1 F T) in
  if decide (nc = 1) then
    v ← getitem atmp (ilo g);
    let atmp := fill_slice atmp (Some 0%Z) (Some (ilo g)) v in
    v ← getitem atmp (ihi g);
    Ok (fill_slice atmp (Some (ihi g + 1)%Z) None v)
  else
    foldM (λ atmp n,
             v ← getitem atmp (ilo g);
             let atmp := fill_col atmp (Some 0%Z) (Some (ilo g)) n (cell_get n v) in
             v ← getitem atmp (ihi g);
             Ok (fill_col atmp (Some (ihi g + 1)%Z) None n (cell_get n v)))
          atmp (range nc).

Definition cons_to_prim (g : FVGrid) (U : list (vec3 F)) : pyresult (list (vec3 F)) :=
  q ← scratch_array g;
  q ← set_col q None None QRHO (col U None None URHO);
  u ← bc2 div (col U None None UMX) (col U None None URHO);
  q ← set_col q None None QU u;
  ke ← bc2 mul (mul lit_0_5 <$> col q None None QRHO) (sqr <$> col q None None QU);
  e ← bc2 sub (col U None None UENER) ke;
  q ← set_col q None None QP ((λ v, mul v (sub gamma lit_1_0)) <$> e);
  Ok q.

(** The block of [states] that constructs the slopes. *)
Definition slopes (g : FVGrid) (q : list (vec3 F)) : pyresult (list (vec3 F)) :=
  dq ← scratch_array g;
  foldM (λ dq n,
           d ← bc2 sub (col q (Some (ilo g)) (Some (ihi g + 3)%Z) n)
                       (col q (Some (ilo g - 2)%Z) (Some (ihi g + 1)%Z) n);
           set_col dq (Some (ilo g - 1)%Z) (Some (ihi g + 2)%Z) n (mul lit_0_5 <$> d))
        dq (range NVAR).

Definition states (g : FVGrid) (U : list (vec3 F))
  : pyresult (list (vec3 F) * list (vec3 F)) :=
  q ← cons_to_prim g U;
  dq ← slopes g q;
  q_l ← scratch_array g;
  l ← bc2 (vzip add) (slice q (Some (ilo g - 1)%Z) (Some (ihi g + 1)%Z))
          (vmap (mul lit_0_5) <$> slice dq (Some (ilo g - 1)%Z) (Some (ihi g + 1)%Z));
  q_l ← set_slice q_l (Some (ilo g)) (Some (ihi g + 2)%Z) l;
  q_r ← scratch_array g;
  r ← bc2 (vzip sub) (slice q (Some (ilo g)) (Some (ihi g + 2)%Z))
          (vmap (mul lit_0_5) <$> slice dq (Some (ilo g)) (Some (ihi g + 2)%Z));
  q_r ← set_slice q_r (Some (ilo g)) (Some (ihi g + 2)%Z) r;
  Ok (q_l, q_r).

(** The loop of [make_flux_divergence] over the interfaces.  Next to the flux
    array it records the argument pairs of the solver, in call order. *)
Definition riemann_sweep (g : FVGrid) (q_l q_r : list (vec3 F))
  : pyresult (list (vec3 F) * list (vec3 F * vec3 F)) :=
  flux ← scratch_array g;
  foldM (λ '(flux, calls) i,
           l ← getitem q_l i;
           r ← getitem q_r i;
           flux ← setitem flux i (riemann l r gamma);
           Ok (flux, calls ++ [(l, r)]))
        (flux, []) (zrange (ilo g) (ihi g + 2)).

(** The block of [make_flux_divergence] that differences the fluxes. *)
Definition flux_difference (g : FVGrid) (flux : list (vec3 F))
  : pyresult (list (vec3 F)) :=
  A ← scratch_array g;
  foldM (λ A n,
           d ← bc2 sub (col flux (Some (ilo g)) (Some (ihi g + 1)%Z) n)
                       (col flux (Some (ilo g + 1)%Z) (Some (ihi g + 2)%Z) n);
           set_col A (Some (ilo g)) (Some (ihi g + 1)%Z) n ((λ v, div v (dx g)) <$> d))
        A (range NVAR).

(** The interface fluxes of a state: the first half of [make_flux_divergence]. *)
Definition interface_flux (g : FVGrid) (U : list (vec3 F))
  : pyresult (list (vec3 F) * list (vec3 F * vec3 F)) :=
  '(q_l, q_r) ← states g U;
  riemann_sweep g q_l q_r.

Definition make_flux_divergence (g : FVGrid) (U : list (vec3 F))
  : pyresult (list (vec3 F)) :=
  '(flux, _) ← interface_flux g U;
  flux_difference g flux.

Definition timestep (g : FVGrid) (U : list (vec3 F)) : pyresult F :=
  q ← cons_to_prim g U;
  c ← scratch_array g;
  cs ← bc2 div (mul gamma <$> col q (Some (ilo g)) (Some (ihi g + 1)%Z) QP)
               (col q (Some (ilo g)) (Some (ihi g + 1)%Z) QRHO);
  c ← set_slice c (Some (ilo g)) (Some (ihi g + 1)%Z) (sqrt <$> cs);
  s ← bc2 add (abs <$> col q (Some (ilo g)) (Some (ihi g + 1)%Z) QU)
              (slice c (Some (ilo g)) (Some (ihi g + 1)%Z));
  m ← np_max fmax s;
  Ok (div (mul C (dx g)) m).

(** [U[:, n] += v] *)
Definition iadd_col (U : list (vec3 F)) (n : nat) (v : list F)
  : pyresult (list (vec3 F)) :=
  v ← broadcast_to (length U) v;
  Ok (assign (λ y old, vset n (add (vget n old) y) old) 0 v U).

(** The body of the time loop of [mol_solve], from the first [fill_BCs] to
    the update of [U], for a timestep [dt]. *)
Definition mol_step (g : FVGrid) (U : list (vec3 F)) (dt : F)
  : pyresult (list (vec3 F)) :=
  U ← fill_BCs g U;
  k1 ← make_flux_divergence g U;
  U_tmp ← scratch_array g;
  U_tmp ← foldM (λ U_tmp n,
                   s ← bc2 add (col U None None n)
                               (mul (mul lit_0_5 dt) <$> col k1 None None n);
                   set_col U_tmp None None n s)
                U_tmp (range NVAR);
  U_tmp ← fill_BCs g U_tmp;
  k2 ← make_flux_divergence g U_tmp;
  foldM (λ U n, iadd_col U n (mul dt <$> col k2 None None n)) U (range NVAR).

End Hydro.

Arguments FVGrid F : clear implicits.

(** ** Pointwise views used in the statements *)

(** [a[i]] for an index known to be in range. *)
Definition at_ {A : Type} `{!Inhabited A} (a : list A) (i : Z) : A :=
  a !!! Z.to_nat i.

Section Views.
Context {F : Type} `{!Scalar F}.

(** What [cons_to_prim] computes in one cell. *)
Definition prim (u : vec3 F) : vec3 F :=
  let rho := vget URHO u in
  let vel := div (vget UMX u) (vget URHO u) in
  V3 rho vel
     (mul (sub (vget UENER u) (mul (mul lit_0_5 rho) (sqr vel)))
          (sub gamma lit_1_0)).

(** The reconstruction in the words of its description:
    [slope[i] = 0.5 (Q[i+1] - Q[i-1])], per component, *)
Definition slope (q : list (vec3 F)) (i : Z) : vec3 F :=
  vmap (mul lit_0_5) (vzip sub (at_ q (i + 1)) (at_ q (i - 1))).

(** [Q_left[i] = Q[i-1] + 0.5 slope[i-1]] and *)
Definition Q_left (q : list (vec3 F)) (i : Z) : vec3 F :=
  vzip add (at_ q (i - 1)) (vmap (mul lit_0_5) (slope q (i - 1))).

(** [Q_right[i] = Q[i] - 0.5 slope[i]]. *)
Definition Q_right (q : list (vec3 F)) (i : Z) : vec3 F :=
  vzip sub (at_ q i) (vmap (mul lit_0_5) (slope q i)).

(** The right-hand side in the words of its description:
    [RHS[i] = (flux[i] - flux[i+1]) / dx]. *)
Definition rhs_cell (g : FVGrid F) (flux : list (vec3 F)) (i : Z) : vec3 F :=
  vmap (λ v, div v (dx g)) (vzip sub (at_ flux i) (at_ flux (i + 1))).

(** The timestep in the words of its description: the sound speed
    [c = sqrt(gamma p / rho)] and the signal speed [|u| + c] of a
    primitive state, *)
Definition sound_speed (w : vec3 F) : F :=
  sqrt (div (mul gamma (vget QP w)) (vget QRHO w)).

Definition signal_speed (w : vec3 F) : F :=
  add (abs (vget QU w)) (sound_speed w).

(** and the largest signal speed of the interior cells [ilo .. ihi],
    reduced from the first interior cell on. *)
Definition s_max (g : FVGrid F) (U : list (vec3 F)) : F :=
  foldl fmax (signal_speed (prim (at_ U (ilo g))))
        ((λ i, signal_speed (prim (at_ U i))) <$> zrange (ilo g + 1) (ihi g + 1)).

(** [u + c k], component by component. *)
Definition axpy (c : F) (u k : vec3 F) : vec3 F :=
  vzip (λ a b, add a (mul c b)) u k.

(** The grid invariant that [FVGrid_init] establishes, for a grid with at
    least one interior cell and no negative ghost count. *)
Definition grid_inv (g : FVGrid F) : Prop :=
  ilo g = ng g ∧ ihi g = (ng g + nx g - 1)%Z ∧ (1 ≤ nx g)%Z ∧ (0 ≤ ng g)%Z.

(** An array of ghosted length [nx + 2 ng]. *)
Definition ghosted {T : Type} (g : FVGrid F) (a : list T) : Prop :=
  Z.of_nat (length a) = (nx g + 2 * ng g)%Z.

(** The interior cells [ilo .. ihi]. *)
Definition interior (g : FVGrid F) (i : Z) : Prop := (ilo g ≤ i ≤ ihi g)%Z.

(** The integrator step in the words of its description: fill the ghost
    cells of [U]; [k1 = flux_divergence(U)]; [U_mid = U + 0.5 dt k1] over
    the full domain; fill the ghost cells of [U_mid];
    [k2 = flux_divergence(U_mid)]; [U <- U + dt k2] over the interior cells
    only. *)
Definition spec_step (riemann : vec3 F → vec3 F → F → vec3 F)
    (g : FVGrid F) (U : list (vec3 F)) (dt : F) : pyresult (list (vec3 F)) :=
  U ← fill_BCs g U;
  k1 ← make_flux_divergence riemann g U;
  let U_mid := zip_with (axpy (mul lit_0_5 dt)) U k1 in
  U_mid ← fill_BCs g U_mid;
  k2 ← make_flux_divergence riemann g U_mid;
  Ok (imap (λ j u,
              if decide (ilo g ≤ Z.of_nat j ≤ ihi g)%Z
              then axpy dt u (k2 !!! j) else u) U).

(** The same step with the final update as the code has it,
    [U <- U + dt k2] over the full domain. *)
Definition full_step (riemann : vec3 F → vec3 F → F → vec3 F)
    (g : FVGrid F) (U : list (vec3 F)) (dt : F) : pyresult (list (vec3 F)) :=
  U ← fill_BCs g U;
  k1 ← make_flux_divergence riemann g U;
  let U_mid := zip_with (axpy (mul lit_0_5 dt)) U k1 in
  U_mid ← fill_BCs g U_mid;
  k2 ← make_flux_divergence riemann g U_mid;
  Ok (zip_with (axpy dt) U k2).
End Views.

(** ** Numbers of binary64 *)

(** A primitive state without NaN and without an infinity. *)
Definition finite3 (w : vec3 float) : bool :=
  PrimFloat.is_finite (c0 w) && PrimFloat.is_finite (c1 w) && PrimFloat.is_finite (c2 w).

(** [==] of NumPy on the three components: [-0.0] and [0.0] are equal, a NaN
    is equal to nothing. *)
Definition same3 (v w : vec3 float) : bool :=
  PrimFloat.eqb (c0 v) (c0 w) && PrimFloat.eqb (c1 v) (c1 w)
  && PrimFloat.eqb (c2 v) (c2 w).

(** A positive float other than the infinity. *)
Definition positive_number (y : float) : bool :=
  PrimFloat.ltb 0 y && negb (PrimFloat.is_infinity y).

(** The binary exponent of a float that is neither zero, infinite nor NaN:
    the [k] with [2^(k-1) ≤ |y| < 2^k]. *)
Definition exponent (y : float) : Z :=
  match Prim2SF y with
  | S754_finite _ m e => Z.pos (digits2_pos m) + e
  | _ => 0
  end.

(** A float with the sign bit clear that is not NaN: [+0.0], a positive
    number or [+inf]. *)
Definition sf_plus (a : spec_float) : bool :=
  match a with
  | S754_zero false | S754_infinity false | S754_finite false _ _ => true
  | _ => false
  end.

Definition sign_plus (y : float) : bool := sf_plus (Prim2SF y).

(** ** Inputs of the examples *)

(** Modelled from the spec: the module [riemann] that the notebook imports is
    not part of the sources.  Its interface contract asks for a pure function
    of the two primitive states and [gamma] that returns the physical flux
    [(rho u, rho u^2 + p, u (rho E + p))] when both states agree.  The flux of
    a primitive state, *)
Definition euler_flux {F : Type} `{!Scalar F} (w : vec3 F) (gam : F) : vec3 F :=
  let rho := vget QRHO w in
  let u := vget QU w in
  let p := vget QP w in
  let rhoE := add (div p (sub gam lit_1_0)) (mul (mul lit_0_5 rho) (sqr u)) in
  V3 (mul rho u) (add (mul rho (sqr u)) p) (mul u (add rhoE p)).

(** and the mean of the fluxes of the two states stand in for the solver in
    the examples.  The theorems hold for every solver. *)
Definition sample_riemann {F : Type} `{!Scalar F} (l r : vec3 F) (gam : F) : vec3 F :=
  vmap (mul lit_0_5) (vzip add (euler_flux l gam) (euler_flux r gam)).

(** Sod's initial state of [mol_solve] on four interior and two ghost cells. *)
Definition sod_state : list (vec3 float) :=
  replicate 4 (V3 1 0 2.5)%float ++ replicate 4 (V3 0.125 0 0.25)%float.

(** The initial conditions of [mol_solve] (Sod's problem): the left state
    where [x < 0.5], the right state elsewhere, ghost cells included. *)
Definition sod_initial (g : FVGrid float) : list (vec3 float) :=
  let rho_l := 1%float in let u_l := 0%float in let p_l := 1%float in
  let rho_r := 0.125%float in let u_r := 0%float in let p_r := 0x1.999999999999ap-4%float in
  let cons (rho u p : float) :=
    V3 rho (mul rho u) (add (div p (sub gamma lit_1_0)) (mul (mul lit_0_5 rho) (sqr u))) in
  (λ xc : float, if PrimFloat.ltb xc 0.5 then cons rho_l u_l p_l else cons rho_r u_r p_r)
    <$> x g.

(** What [scratch_array] returns: every density is zero. *)
Definition vacuum_state : list (vec3 float) := replicate 8 (V3 0 0 0)%float.

(** Density one everywhere; the energy, and with it the pressure, is positive
    except in the interior cell 3. *)
Definition mixed_state : list (vec3 float) :=
  replicate 3 (V3 1 0 2.5)%float ++ [(V3 1 0 (-2.5))%float] ++ replicate 4 (V3 1 0 2.5)%float.

(** A one-dimensional field of ghosted length. *)
Definition ramp_field : list float := [0; 1; 2; 3; 4; 5; 6; 7]%float.

(** A uniform state in exact arithmetic. *)
Definition uniform_state : list (vec3 R) := replicate 8 (V3 1 0 (5 / 2))%R.

(** The sum of a component over the interior cells. *)
Definition sumZ {F : Type} `{!Scalar F} (f : Z → F) (lo hi : Z) : F :=
  foldr add zero (f <$> zrange lo hi).

Definition interior_sum {F : Type} `{!Scalar F} (g : FVGrid F) (n : nat)
    (U : list (vec3 F)) : F :=
  sumZ (λ i, vget n (at_ U i)) (ilo g) (ihi g + 1).

(** Sod's state on two interior cells, in binary64 and in exact arithmetic. *)
Definition sod_pair : list (vec3 float) :=
  replicate 3 (V3 1 0 2.5)%float ++ replicate 3 (V3 0.125 0 0.25)%float.

Definition sod_pair_exact : list (vec3 R) :=
  replicate 3 (V3 1 0 (5 / 2))%R ++ replicate 3 (V3 (1 / 8) 0 (1 / 4))%R.

(** A uniform state in binary64. *)
Definition uniform_float_state : list (vec3 float) := replicate 8 (V3 1 0.5 2.5)%float.

(** Positive density and pressure everywhere, and a sound speed beyond the
    largest float. *)
Definition stiff_state : list (vec3 float) := replicate 8 (V3 0x1p-40 0 0x1p+1020)%float.

(** Positive density and pressure everywhere, and a finite sound speed of
    about [2^500]. *)
Definition fast_state : list (vec3 float) := replicate 8 (V3 0x1p-500 0 0x1.4p+501)%float.

(** ** The driver [mol_solve] *)

(** What the driver needs beyond the arithmetic of the cells: the comparisons
    [<] and [>=] (Python's [a > b] is [b < a]) and three more literals. *)
Class Driver (F : Type) : Type := {
  ltb : F → F → bool;
  geb : F → F → bool;
  lit_0_125 : F;
  lit_0_1 : F;
  lit_0_2 : F;
}.

#[global] Instance float_driver : Driver float := {|
  ltb := PrimFloat.ltb;
  geb := λ a b, PrimFloat.leb b a;
  lit_0_125 := 0x1p-3%float;
  lit_0_1 := 0x1.999999999999ap-4%float;
  lit_0_2 := 0x1.999999999999ap-3%float;
|}.

#[global] Instance real_driver : Driver R := {|
  ltb := λ a b, if Rlt_dec a b then true else false;
  geb := λ a b, if Rge_dec a b then true else false;
  lit_0_125 := (1 / 8)%R;
  lit_0_1 := (1 / 10)%R;
  lit_0_2 := (2 / 10)%R;
|}.

Section Driver.
Context {F : Type} `{!Scalar F, !Driver F}.
Variable riemann : vec3 F → vec3 F → F → vec3 F.

(** The conserved state that the initial conditions of [mol_solve] build
    from primitive values: [(rho, rho u, p / (gamma - 1) + 0.5 rho u^2)]. *)
Definition cons_of_prim (w : vec3 F) : vec3 F :=
  let rho := vget QRHO w in
  let u := vget QU w in
  let p := vget QP w in
  V3 rho (mul rho u)
     (add (div p (sub gamma lit_1_0)) (mul (mul lit_0_5 rho) (sqr u))).

(** [U[idx, n] = y] for a boolean mask [idx] over the cells; the mask has to
    be as long as the array. *)
Definition mask_set_col (U : list (vec3 F)) (idx : list bool) (n : nat) (y : F)
  : pyresult (list (vec3 F)) :=
  if decide (length idx = length U)
  then Ok (zip_with (λ (b : bool) u, if b then vset n y u else u) idx U)
  else Raise IndexError.

(** The block of [mol_solve] that sets up Sod's problem on a zeroed array. *)
Definition initial_conditions (g : FVGrid F) (U : list (vec3 F))
  : pyresult (list (vec3 F)) :=
  let l := cons_of_prim (V3 lit_1_0 zero lit_1_0) in
  let r := cons_of_prim (V3 lit_0_125 zero lit_0_1) in
  let idx_l := (λ xc, ltb xc lit_0_5) <$> x g in
  let idx_r := (λ xc, geb xc lit_0_5) <$> x g in
  U ← mask_set_col U idx_l URHO (vget URHO l);
  U ← mask_set_col U idx_l UMX (vget UMX l);
  U ← mask_set_col U idx_l UENER (vget UENER l);
  U ← mask_set_col U idx_r URHO (vget URHO r);
  U ← mask_set_col U idx_r UMX (vget UMX r);
  U ← mask_set_col U idx_r UENER (vget UENER r);
  Ok U.

(** [U.max()] of a two-dimensional array: the reduction over all entries. *)
Definition array_max (U : list (vec3 F)) : pyresult F :=
  np_max fmax (U ≫= λ u, [c0 u; c1 u; c2 u]).

(** One pass of the [while] loop: the timestep, its clamp at [tmax], the
    printed line [(t, dt, U.max())], the two-stage update and [t += dt]. *)
Definition mol_iter (g : FVGrid F) (tmax : F) (U : list (vec3 F)) (t : F)
  : pyresult (F * list (vec3 F) * (F * F * F)) :=
  dt ← timestep g U;
  let dt := if ltb tmax (add t dt) then sub tmax t else dt in
  m ← array_max U;
  U ← mol_step riemann g U dt;
  Ok (add t dt, U, (t, dt, m)).

(** The [while t < tmax] loop, for at most [fuel] passes; [None] when the
    passes run out.  The printed lines are collected in [out]; a run that
    raises keeps the exception only. *)
Fixpoint mol_loop (fuel : nat) (g : FVGrid F) (tmax : F) (U : list (vec3 F))
    (t : F) (out : list (F * F * F))
  : option (pyresult (list (vec3 F) * list (F * F * F))) :=
  if ltb t tmax then
    match fuel with
    | 0 => None
    | S fuel =>
        match mol_iter g tmax U t with
        | Ok (t', U', line) => mol_loop fuel g tmax U' t' (out ++ [line])
        | Raise e => Some (Raise e)
        end
    end
  else Some (Ok (U, out)).

(** [mol_solve(nx)]: the final state and the printed lines. *)
Definition mol_solve (fuel : nat) (n_x : Z)
  : option (pyresult (list (vec3 F) * list (F * F * F))) :=
  match FVGrid_init n_x 2 zero lit_1_0 with
  | Raise e => Some (Raise e)
  | Ok g =>
      match U ← scratch_array g; initial_conditions g U with
      | Raise e => Some (Raise e)
      | Ok U => mol_loop fuel g lit_0_2 U zero []
      end
  end.

End Driver.

(** The printed lines of a run of the loop that starts at time [t] and
    leaves the loop at time [t_end]: every line is printed at a time below
    [tmax]; its step does not pass [tmax], or it is the clamped step
    [tmax - t]; the next line starts at [t + dt]; and [t_end] is not below
    [tmax]. *)
Inductive printed_chain {F : Type} `{!Scalar F, !Driver F} (tmax : F)
  : F → list (F * F * F) → F → Prop :=
| chain_end t : ltb t tmax = false → printed_chain tmax t [] t
| chain_pass t dt m rest t_end :
    ltb t tmax = true →
    ltb tmax (add t dt) = false ∨ dt = sub tmax t →
    printed_chain tmax (add t dt) rest t_end →
    printed_chain tmax t ((t, dt, m) :: rest) t_end.

(** Sod's state with zeros in the two lower ghost cells. *)
Definition unfilled_state : list (vec3 float) :=
  take 2 vacuum_state ++ drop 2 sod_state.

(** * Facts about indices, slices and in-place updates *)

Section ArrayFacts.
Context {A B : Type}.
Implicit Types (a : list A) (v : list B) (i : Z) (n s m : nat).

Lemma bind_Ok {X Y : Type} (x : X) (k : X → pyresult Y) : (Ok x ≫= k) = k x.
Proof. reflexivity. Qed.

Lemma py_index_in n i :
  (0 ≤ i < Z.of_nat n)%Z → py_index n i = Some (Z.to_nat i).
Proof.
  intros Hi. unfold py_index.
  destruct (Z.ltb_spec i 0); [lia|].
  destruct (Z.leb_spec 0 i); [|lia].
  destruct (Z.ltb_spec i (Z.of_nat n)); [done | lia].
Qed.

Lemma py_bound_in n d i :
  (0 ≤ i ≤ Z.of_nat n)%Z → py_bound n d (Some i) = Z.to_nat i.
Proof.
  intros Hi. unfold py_bound.
  destruct (Z.ltb_spec i 0); [lia|]. f_equal. lia.
Qed.

Lemma srange_in n (lo hi : Z) :
  (0 ≤ lo)%Z → (lo ≤ hi)%Z → (hi ≤ Z.of_nat n)%Z →
  srange n (Some lo) (Some hi) = (Z.to_nat lo, Z.to_nat (hi - lo)).
Proof.
  intros H1 H2 H3. unfold srange.
  rewrite !py_bound_in by lia. f_equal. lia.
Qed.

Lemma srange_from n (lo : Z) :
  (0 ≤ lo ≤ Z.of_nat n)%Z → srange n (Some lo) None = (Z.to_nat lo, n - Z.to_nat lo).
Proof. intros H1. unfold srange. by rewrite py_bound_in by lia. Qed.

Lemma srange_full n : srange n None None = (0, n).
Proof. unfold srange. simpl. f_equal. lia. Qed.

Lemma getitem_in `{!Inhabited A} a i :
  (0 ≤ i < Z.of_nat (length a))%Z → getitem a i = Ok (at_ a i).
Proof.
  intros Hi. unfold getitem, at_. rewrite py_index_in by done.
  rewrite list_lookup_lookup_total_lt by lia. done.
Qed.

Lemma setitem_in a i (y : A) :
  (0 ≤ i < Z.of_nat (length a))%Z → setitem a i y = Ok (<[Z.to_nat i := y]> a).
Proof. intros Hi. unfold setitem. by rewrite py_index_in. Qed.

Lemma length_slice_in a (lo hi : Z) :
  (0 ≤ lo)%Z → (lo ≤ hi)%Z → (hi ≤ Z.of_nat (length a))%Z →
  length (slice a (Some lo) (Some hi)) = Z.to_nat (hi - lo).
Proof.
  intros. unfold slice. rewrite srange_in by done.
  rewrite length_take, length_drop. lia.
Qed.

Lemma slice_full a : slice a None None = a.
Proof.
  unfold slice. rewrite srange_full. by rewrite drop_0, firstn_all.
Qed.

Lemma slice_at `{!Inhabited A} a (lo hi : Z) (k : nat) :
  (0 ≤ lo)%Z → (lo ≤ hi)%Z → (hi ≤ Z.of_nat (length a))%Z →
  k < Z.to_nat (hi - lo) →
  slice a (Some lo) (Some hi) !!! k = at_ a (lo + Z.of_nat k).
Proof.
  intros. unfold slice, at_. rewrite srange_in by done.
  rewrite lookup_total_take_lt by done. rewrite lookup_total_drop.
  f_equal. lia.
Qed.

Lemma length_assign (upd : B → A → A) s v a :
  length (assign upd s v a) = length a.
Proof. unfold assign. by rewrite length_imap. Qed.

Lemma assign_lookup (upd : B → A → A) s v a (j : nat) :
  assign upd s v a !! j =
    (λ old, if decide (s ≤ j)
            then match v !! (j - s) with Some y => upd y old | None => old end
            else old) <$> a !! j.
Proof. unfold assign. by rewrite list_lookup_imap. Qed.

Lemma assign_inside `{!Inhabited A, !Inhabited B} (upd : B → A → A) s v a (j : nat) :
  j < length a → s ≤ j < s + length v →
  assign upd s v a !!! j = upd (v !!! (j - s)) (a !!! j).
Proof.
  intros Hj Hs. apply list_lookup_total_correct.
  rewrite assign_lookup, (list_lookup_lookup_total_lt a j) by done.
  cbv [fmap option_fmap option_map]. case_decide; [|lia].
  by rewrite (list_lookup_lookup_total_lt v (j - s)) by lia.
Qed.

Lemma assign_outside `{!Inhabited A} (upd : B → A → A) s v a (j : nat) :
  j < s ∨ s + length v ≤ j →
  assign upd s v a !!! j = a !!! j.
Proof.
  intros Hs. rewrite !list_lookup_total_alt, assign_lookup.
  destruct (a !! j) as [old|]; [|done].
  cbv [fmap option_fmap option_map]. case_decide; [|done].
  by rewrite (lookup_ge_None_2 v (j - s)) by lia.
Qed.

Lemma assign_full (upd : B → A → A) v a :
  length v = length a → assign upd 0 v a = zip_with upd v a.
Proof.
  intros Hl. apply list_eq. intros j.
  rewrite assign_lookup, lookup_zip_with.
  case_decide; [|lia]. replace (j - 0) with j by lia.
  destruct (a !! j) as [old|] eqn:Ha; cbv [fmap option_fmap option_map].
  - destruct (v !! j) as [y|] eqn:Hv; [done|].
    apply lookup_ge_None_1 in Hv. apply lookup_lt_Some in Ha. lia.
  - by destruct (v !! j).
Qed.

Lemma broadcast_to_same m v : length v = m → broadcast_to m v = Ok v.
Proof. intros Hl. unfold broadcast_to. by rewrite decide_True. Qed.

Lemma bc2_same {D : Type} (f : A → B → D) a v :
  length a = length v → bc2 f a v = Ok (zip_with f a v).
Proof. intros Hl. unfold bc2. by rewrite decide_True. Qed.

Lemma length_zrange (lo hi : Z) : length (zrange lo hi) = Z.to_nat (hi - lo).
Proof. unfold zrange. by rewrite length_fmap, length_seq. Qed.

Lemma zrange_snoc (lo hi : Z) :
  (lo ≤ hi)%Z → zrange lo (hi + 1) = zrange lo hi ++ [hi].
Proof.
  intros Hle. unfold zrange.
  replace (Z.to_nat (hi + 1 - lo)) with (Z.to_nat (hi - lo) + 1) by lia.
  rewrite seq_app, fmap_app. simpl. do 2 f_equal. lia.
Qed.

Lemma zrange_nil (lo hi : Z) : (hi ≤ lo)%Z → zrange lo hi = [].
Proof. intros Hle. unfold zrange. by replace (Z.to_nat (hi - lo)) with 0 by lia. Qed.

Lemma foldM_app {X Y : Type} (body : X → Y → pyresult X) (acc : X) (l1 l2 : list Y) :
  foldM body acc (l1 ++ l2) = (foldM body acc l1 ≫= λ acc, foldM body acc l2).
Proof.
  revert acc. induction l1 as [|y l1 IH]; intros acc; simpl; [done|].
  destruct (body acc y) as [acc'|e]; simpl; [apply IH | done].
Qed.

End ArrayFacts.

(** * Facts about the program *)

Section HydroFacts.
Context {F : Type} `{!Scalar F}.
Variable riemann : vec3 F → vec3 F → F → vec3 F.
Implicit Types (g : FVGrid F) (U q : list (vec3 F)).

Lemma FVGrid_init_inv (n_x n_g : Z) (x0 x1 : F) g :
  FVGrid_init n_x n_g x0 x1 = Ok g →
  nx g = n_x ∧ ng g = n_g ∧ ilo g = n_g ∧ ihi g = (n_g + n_x - 1)%Z ∧
  xmin g = x0 ∧ xmax g = x1 ∧ dx g = div (sub x1 x0) (of_Z n_x).
Proof.
  unfold FVGrid_init, float_div_int.
  destruct (n_x =? 0)%Z; [discriminate|].
  destruct (int_fits n_x); [|discriminate].
  intros [= <-]. simpl. done.
Qed.

Lemma FVGrid_init_defined (n_x n_g : Z) (x0 x1 : F) g :
  FVGrid_init n_x n_g x0 x1 = Ok g → n_x ≠ 0%Z ∧ int_fits n_x = true.
Proof.
  unfold FVGrid_init, float_div_int.
  destruct (Z.eqb_spec n_x 0); [discriminate|].
  destruct (int_fits n_x); [done | discriminate].
Qed.

Lemma FVGrid_init_returns (n_x n_g : Z) (x0 x1 : F) :
  n_x ≠ 0%Z → int_fits n_x = true → returns (FVGrid_init n_x n_g x0 x1).
Proof.
  intros Hne Hfit. unfold FVGrid_init, float_div_int.
  destruct (Z.eqb_spec n_x 0); [done|]. rewrite Hfit. by eexists.
Qed.

Lemma FVGrid_init_grid_inv (n_x n_g : Z) (x0 x1 : F) g :
  FVGrid_init n_x n_g x0 x1 = Ok g → (1 ≤ n_x)%Z → (0 ≤ n_g)%Z → grid_inv g.
Proof.
  intros Hg ? ?. apply FVGrid_init_inv in Hg as (H1 & H2 & H3 & H4 & _).
  unfold grid_inv. lia.
Qed.

Lemma scratch_array_ok {T : Type} `{!Cell F T} g :
  (0 ≤ nx g + 2 * ng g)%Z →
  scratch_array (T:=T) g = Ok (replicate (Z.to_nat (nx g + 2 * ng g)) cell_zero).
Proof.
  intros Hn. unfold scratch_array.
  destruct (Z.ltb_spec (nx g + 2 * ng g) 0); [lia | done].
Qed.

Lemma scratch_array_ghosted {T T' : Type} `{!Cell F T} g (a : list T') :
  ghosted g a → scratch_array (T:=T) g = Ok (replicate (length a) cell_zero).
Proof.
  unfold ghosted. intros Hn. rewrite scratch_array_ok by lia.
  do 2 f_equal. lia.
Qed.

Lemma col_full {T : Type} `{!Cell F T} (a : list T) n :
  col a None None n = cell_get n <$> a.
Proof. unfold col. by rewrite slice_full. Qed.

Lemma set_col_full {T : Type} `{!Cell F T} (a : list T) n (v : list F) :
  length v = length a →
  set_col a None None n v = Ok (zip_with (cell_set n) v a).
Proof.
  intros Hl. unfold set_col. rewrite srange_full.
  rewrite broadcast_to_same by done. rewrite bind_Ok.
  by rewrite assign_full.
Qed.

Lemma zip_with_fmap_same {X Y Z W : Type} (f : Y → Z → W) (h1 : X → Y)
    (h2 : X → Z) (l : list X) :
  zip_with f (h1 <$> l) (h2 <$> l) = (λ x, f (h1 x) (h2 x)) <$> l.
Proof. by rewrite zip_with_fmap_l, zip_with_fmap_r, zip_with_diag. Qed.

Lemma replicate_as_fmap {X Y : Type} (l : list X) (y : Y) :
  replicate (length l) y = (λ _, y) <$> l.
Proof. symmetry. by apply const_fmap. Qed.

(** [cons_to_prim] converts cell by cell and never raises on an array of
    ghosted length. *)
Lemma cons_to_prim_ok g U :
  ghosted g U → cons_to_prim g U = Ok (prim <$> U).
Proof.
  intros HU. unfold cons_to_prim.
  rewrite (scratch_array_ghosted g U) by done. rewrite bind_Ok.
  rewrite replicate_as_fmap, !col_full.
  rewrite set_col_full by (by rewrite !length_fmap).
  rewrite bind_Ok, zip_with_fmap_same.
  rewrite bc2_same by (by rewrite !length_fmap).
  rewrite bind_Ok, zip_with_fmap_same.
  rewrite set_col_full by (by rewrite !length_fmap).
  rewrite bind_Ok, zip_with_fmap_same.
  rewrite !col_full, <- !list_fmap_compose.
  rewrite bc2_same by (by rewrite !length_fmap).
  rewrite bind_Ok, zip_with_fmap_same.
  rewrite bc2_same by (by rewrite !length_fmap).
  rewrite bind_Ok, zip_with_fmap_same, <- list_fmap_compose.
  rewrite set_col_full by (by rewrite !length_fmap).
  rewrite bind_Ok, zip_with_fmap_same.
  reflexivity.
Qed.

Lemma length_col_in {T : Type} `{!Cell F T} (a : list T) (lo hi : Z) n :
  (0 ≤ lo)%Z → (lo ≤ hi)%Z → (hi ≤ Z.of_nat (length a))%Z →
  length (col a (Some lo) (Some hi) n) = Z.to_nat (hi - lo).
Proof. intros. unfold col. by rewrite length_fmap, length_slice_in. Qed.

Lemma col_at {T : Type} `{!Cell F T, !Inhabited T} (a : list T) (lo hi : Z) n (k : nat) :
  (0 ≤ lo)%Z → (lo ≤ hi)%Z → (hi ≤ Z.of_nat (length a))%Z →
  k < Z.to_nat (hi - lo) →
  col a (Some lo) (Some hi) n !!! k = cell_get n (at_ a (lo + Z.of_nat k)).
Proof.
  intros. unfold col.
  erewrite list_lookup_total_fmap by (by rewrite length_slice_in).
  by rewrite slice_at.
Qed.

Lemma set_col_in {T : Type} `{!Cell F T} (a : list T) (lo hi : Z) n (v : list F) :
  (0 ≤ lo)%Z → (lo ≤ hi)%Z → (hi ≤ Z.of_nat (length a))%Z →
  length v = Z.to_nat (hi - lo) →
  set_col a (Some lo) (Some hi) n v = Ok (assign (cell_set n) (Z.to_nat lo) v a).
Proof.
  intros. unfold set_col. rewrite srange_in by done.
  by rewrite broadcast_to_same.
Qed.

Lemma set_slice_in {T : Type} (a : list T) (lo hi : Z) (v : list T) :
  (0 ≤ lo)%Z → (lo ≤ hi)%Z → (hi ≤ Z.of_nat (length a))%Z →
  length v = Z.to_nat (hi - lo) →
  set_slice a (Some lo) (Some hi) v = Ok (assign (λ y _, y) (Z.to_nat lo) v a).
Proof.
  intros. unfold set_slice. rewrite srange_in by done.
  by rewrite broadcast_to_same.
Qed.

Lemma assign3_inside (a0 : list (vec3 F)) s (v0 v1 v2 : list F) (j : nat) :
  j < length a0 → s ≤ j < s + length v0 →
  length v1 = length v0 → length v2 = length v0 →
  assign (vset 2) s v2 (assign (vset 1) s v1 (assign (vset 0) s v0 a0)) !!! j
  = V3 (v0 !!! (j - s)) (v1 !!! (j - s)) (v2 !!! (j - s)).
Proof.
  intros. rewrite !assign_inside by (rewrite ?length_assign; lia).
  reflexivity.
Qed.

Lemma assign3_outside (a0 : list (vec3 F)) s (v0 v1 v2 : list F) (j : nat) :
  j < s ∨ s + length v0 ≤ j →
  length v1 = length v0 → length v2 = length v0 →
  assign (vset 2) s v2 (assign (vset 1) s v1 (assign (vset 0) s v0 a0)) !!! j
  = a0 !!! j.
Proof. intros. rewrite !assign_outside by lia. reflexivity. Qed.

Lemma fmap_at {X Y : Type} `{!Inhabited X, !Inhabited Y} (f : X → Y) (l : list X) (k : nat) :
  k < length l → (f <$> l) !!! k = f (l !!! k).
Proof. apply list_lookup_total_fmap. Qed.

Lemma zip_at {X Y W : Type} `{!Inhabited X, !Inhabited Y, !Inhabited W}
    (f : X → Y → W) (l : list X) (l' : list Y) (k : nat) :
  k < length l → k < length l' → zip_with f l l' !!! k = f (l !!! k) (l' !!! k).
Proof. intros. by apply lookup_total_zip_with. Qed.

Lemma replicate_zero_at (n k : nat) :
  replicate n (cell_zero (T:=vec3 F)) !!! k = V3 zero zero zero.
Proof.
  destruct (decide (k < n)) as [Hk|Hk].
  - by rewrite lookup_total_replicate_2.
  - rewrite list_lookup_total_alt.
    by rewrite (proj1 (lookup_replicate_None n _ k)) by lia.
Qed.

Lemma bind_step {X Y : Type} (m : pyresult X) (k : X → pyresult Y) x r :
  m = Ok x → k x = r → (m ≫= k) = r.
Proof. by intros -> <-. Qed.

Lemma slice_at_eq {T : Type} `{!Inhabited T} (a : list T) (lo hi : Z) (k : nat) (j : Z) :
  (0 ≤ lo)%Z → (lo ≤ hi)%Z → (hi ≤ Z.of_nat (length a))%Z →
  k < Z.to_nat (hi - lo) → j = (lo + Z.of_nat k)%Z →
  slice a (Some lo) (Some hi) !!! k = at_ a j.
Proof. intros ? ? ? ? ->. by apply slice_at. Qed.

Lemma foldM_cons {X Y : Type} (body : X → Y → pyresult X) acc acc' y ys :
  body acc y = Ok acc' → foldM body acc (y :: ys) = foldM body acc' ys.
Proof. intros Hb. simpl. by rewrite Hb. Qed.

Lemma slopes_ok g q :
  grid_inv g → (2 ≤ ng g)%Z → ghosted g q →
  ∃ dq, slopes g q = Ok dq ∧ length dq = length q ∧
    (∀ j, (ilo g - 1 ≤ j ≤ ihi g + 1)%Z → at_ dq j = slope q j) ∧
    (∀ j, (0 ≤ j < ilo g - 1 ∨ ihi g + 1 < j)%Z →
          at_ dq j = V3 zero zero zero).
Proof.
  intros (Hilo & Hihi & Hnx & Hng) Hg2 Hq. unfold ghosted in Hq.
  eexists. split.
  { unfold slopes. rewrite (scratch_array_ghosted g q) by done. rewrite bind_Ok.
    unfold range, NVAR. cbn [seq].
    do 3 (erewrite foldM_cons;
          [|rewrite bc2_same by (rewrite !length_col_in; lia); rewrite bind_Ok;
            rewrite set_col_in by
              (rewrite ?length_assign, ?length_replicate, ?length_fmap,
                 ?length_zip_with, ?length_col_in; lia);
            reflexivity]).
    reflexivity. }
  assert (Hlen : ∀ n, length (mul lit_0_5 <$> zip_with sub
                  (col q (Some (ilo g)) (Some (ihi g + 3)%Z) n)
                  (col q (Some (ilo g - 2)%Z) (Some (ihi g + 1)%Z) n))
                 = Z.to_nat (nx g + 2)).
  { intros n. rewrite length_fmap, length_zip_with, !length_col_in; lia. }
  split; [by rewrite !length_assign, length_replicate|].
  split.
  - intros j Hj. unfold at_.
    rewrite assign3_inside by (rewrite ?length_replicate, ?Hlen; lia).
    repeat (erewrite fmap_at
              by (rewrite ?length_zip_with, ?length_col_in by lia; lia)).
    repeat (erewrite zip_at by (rewrite ?length_col_in by lia; lia)).
    rewrite !col_at by lia.
    unfold slope, vmap, vzip. cbn [c0 c1 c2 cell_get vec3_cell vget].
    repeat (f_equal; try lia).
  - intros j Hj. unfold at_.
    rewrite assign3_outside by (rewrite ?Hlen; lia).
    apply replicate_zero_at.
Qed.

Lemma states_ok g U :
  grid_inv g → (2 ≤ ng g)%Z → ghosted g U →
  ∃ q_l q_r, states g U = Ok (q_l, q_r) ∧
    length q_l = length U ∧ length q_r = length U ∧
    (∀ i, (ilo g ≤ i ≤ ihi g + 1)%Z →
          at_ q_l i = Q_left (prim <$> U) i ∧ at_ q_r i = Q_right (prim <$> U) i) ∧
    (∀ i, (0 ≤ i < ilo g ∨ ihi g + 1 < i)%Z →
          at_ q_l i = V3 zero zero zero ∧ at_ q_r i = V3 zero zero zero).
Proof.
  intros Hinv Hg2 HU.
  assert (Hq : ghosted g (prim <$> U)) by (unfold ghosted; by rewrite length_fmap).
  destruct (slopes_ok g (prim <$> U) Hinv Hg2 Hq) as (dq & Hdq & Hldq & Hin & Hout).
  destruct Hinv as (Hilo & Hihi & Hnx & Hng). unfold ghosted in HU, Hq.
  rewrite length_fmap in Hldq.
  eexists _, _. split.
  { unfold states.
    eapply bind_step; [by apply cons_to_prim_ok|].
    eapply bind_step; [exact Hdq|].
    eapply bind_step; [by apply (scratch_array_ghosted g U)|].
    eapply bind_step;
      [apply bc2_same; rewrite length_fmap, !length_slice_in by lia; lia|].
    eapply bind_step;
      [apply set_slice_in;
       rewrite ?length_replicate, ?length_zip_with, ?length_fmap,
         ?length_slice_in by lia; lia|].
    eapply bind_step; [by apply (scratch_array_ghosted g U)|].
    eapply bind_step;
      [apply bc2_same; rewrite length_fmap, !length_slice_in by lia; lia|].
    eapply bind_step;
      [apply set_slice_in;
       rewrite ?length_replicate, ?length_zip_with, ?length_fmap,
         ?length_slice_in by lia; lia|].
    reflexivity. }
  split; [by rewrite length_assign, length_replicate|].
  split; [by rewrite length_assign, length_replicate|].
  split.
  - intros i Hi. unfold at_. split.
    + rewrite assign_inside by
        (rewrite ?length_replicate, ?length_zip_with, ?length_fmap,
           ?length_slice_in by lia; lia).
      erewrite zip_at by (rewrite ?length_fmap, ?length_slice_in by lia; lia).
      erewrite fmap_at by (rewrite ?length_slice_in by lia; lia).
      rewrite !(slice_at_eq _ _ _ _ (i - 1)) by lia.
      rewrite Hin by lia. reflexivity.
    + rewrite assign_inside by
        (rewrite ?length_replicate, ?length_zip_with, ?length_fmap,
           ?length_slice_in by lia; lia).
      erewrite zip_at by (rewrite ?length_fmap, ?length_slice_in by lia; lia).
      erewrite fmap_at by (rewrite ?length_slice_in by lia; lia).
      rewrite !(slice_at_eq _ _ _ _ i) by lia.
      rewrite Hin by lia. reflexivity.
  - intros i Hi. unfold at_.
    rewrite !assign_outside by
      (rewrite ?length_zip_with, ?length_fmap, ?length_slice_in by lia; lia).
    by rewrite !replicate_zero_at.
Qed.

(** The sweep over the interfaces, by induction on the number of interfaces
    already visited. *)
Lemma riemann_sweep_ok g (q_l q_r : list (vec3 F)) :
  grid_inv g → (1 ≤ ng g)%Z → ghosted g q_l → ghosted g q_r →
  ∃ flux, riemann_sweep riemann g q_l q_r
            = Ok (flux, (λ i, (at_ q_l i, at_ q_r i)) <$> zrange (ilo g) (ihi g + 2)) ∧
    length flux = length q_l ∧
    (∀ i, (ilo g ≤ i ≤ ihi g + 1)%Z →
          at_ flux i = riemann (at_ q_l i) (at_ q_r i) gamma) ∧
    (∀ i, (0 ≤ i < ilo g ∨ ihi g + 1 < i)%Z → at_ flux i = V3 zero zero zero).
Proof.
  intros (Hilo & Hihi & Hnx & Hng) Hg1 Hl Hr. unfold ghosted in Hl, Hr.
  unfold riemann_sweep.
  rewrite (scratch_array_ghosted g q_l) by done. rewrite bind_Ok.
  assert (Hgen : ∀ k : nat, (Z.of_nat k ≤ nx g + 1)%Z →
    ∃ flux, foldM (λ '(flux, calls) i,
                     l ← getitem q_l i;
                     r ← getitem q_r i;
                     flux ← setitem flux i (riemann l r gamma);
                     Ok (flux, calls ++ [(l, r)]))
              (replicate (length q_l) cell_zero, [])
              (zrange (ilo g) (ilo g + Z.of_nat k))
            = Ok (flux, (λ i, (at_ q_l i, at_ q_r i))
                          <$> zrange (ilo g) (ilo g + Z.of_nat k)) ∧
      length flux = length q_l ∧
      (∀ i, (ilo g ≤ i < ilo g + Z.of_nat k)%Z →
            at_ flux i = riemann (at_ q_l i) (at_ q_r i) gamma) ∧
      (∀ i, (0 ≤ i < ilo g ∨ ilo g + Z.of_nat k ≤ i)%Z →
            at_ flux i = V3 zero zero zero)).
  { induction k as [|k IH]; intros Hk.
    - exists (replicate (length q_l) cell_zero).
      rewrite zrange_nil by lia. split; [done|].
      split; [by rewrite length_replicate|].
      split; [intros; lia|]. intros i _. apply replicate_zero_at.
    - destruct IH as (flux & Hfold & Hlen & Hin & Hout); [lia|].
      replace (ilo g + Z.of_nat (S k))%Z with (ilo g + Z.of_nat k + 1)%Z by lia.
      rewrite zrange_snoc by lia.
      exists (<[Z.to_nat (ilo g + Z.of_nat k) := riemann (at_ q_l (ilo g + Z.of_nat k)) (at_ q_r (ilo g + Z.of_nat k)) gamma]> flux).
      split.
      { rewrite foldM_app, Hfold, bind_Ok. cbn [foldM].
        rewrite !getitem_in by lia. rewrite !bind_Ok.
        rewrite setitem_in by lia. rewrite !bind_Ok.
        by rewrite fmap_app. }
      split; [by rewrite length_insert|].
      split.
      + intros i Hi. unfold at_.
        destruct (decide (i = ilo g + Z.of_nat k)%Z) as [->|Hne].
        * rewrite list_lookup_total_insert_eq by lia. done.
        * rewrite list_lookup_total_insert_ne by lia. apply Hin. lia.
      + intros i Hi. unfold at_.
        rewrite list_lookup_total_insert_ne by lia. apply Hout. lia. }
  destruct (Hgen (Z.to_nat (nx g + 1))) as (flux & Hfold & Hlen & Hin & Hout); [lia|].
  replace (ilo g + Z.of_nat (Z.to_nat (nx g + 1)))%Z with (ihi g + 2)%Z in * by lia.
  exists flux. split; [done|]. split; [done|].
  split; intros i Hi; [apply Hin | apply Hout]; lia.
Qed.


Lemma flux_difference_ok g (flux : list (vec3 F)) :
  grid_inv g → (1 ≤ ng g)%Z → ghosted g flux →
  ∃ A, flux_difference g flux = Ok A ∧ length A = length flux ∧
    (∀ i, interior g i → at_ A i = rhs_cell g flux i) ∧
    (∀ i, (0 ≤ i < ilo g ∨ ihi g < i)%Z → at_ A i = V3 zero zero zero).
Proof.
  intros (Hilo & Hihi & Hnx & Hng) Hg1 Hf. unfold ghosted in Hf.
  eexists. split.
  { unfold flux_difference.
    eapply bind_step; [by apply (scratch_array_ghosted g flux)|].
    unfold range, NVAR. cbn [seq].
    do 3 (erewrite foldM_cons;
          [|eapply bind_step;
            [apply bc2_same; rewrite !length_col_in by lia; lia|];
            apply set_col_in;
            rewrite ?length_assign, ?length_replicate, ?length_fmap,
              ?length_zip_with, ?length_col_in by lia; lia]).
    reflexivity. }
  assert (Hlen : ∀ n, length ((λ v, div v (dx g)) <$> zip_with sub
                  (col flux (Some (ilo g)) (Some (ihi g + 1)%Z) n)
                  (col flux (Some (ilo g + 1)%Z) (Some (ihi g + 2)%Z) n))
                 = Z.to_nat (nx g)).
  { intros n. rewrite length_fmap, length_zip_with, !length_col_in; lia. }
  split; [by rewrite !length_assign, length_replicate|].
  split.
  - intros i Hi. unfold interior in Hi. unfold at_.
    rewrite assign3_inside by (rewrite ?length_replicate, ?Hlen; lia).
    repeat (erewrite fmap_at
              by (rewrite ?length_zip_with, ?length_col_in by lia; lia)).
    repeat (erewrite zip_at by (rewrite ?length_col_in by lia; lia)).
    rewrite !col_at by lia.
    unfold rhs_cell, vmap, vzip. cbn [c0 c1 c2 cell_get vec3_cell vget].
    repeat (f_equal; try lia).
  - intros i Hi. unfold at_.
    rewrite assign3_outside by (rewrite ?Hlen; lia).
    apply replicate_zero_at.
Qed.

(** [make_flux_divergence] on a state of ghosted length: it returns, and
    what it returns is determined cell by cell. *)
Lemma make_flux_divergence_ok g U :
  grid_inv g → (2 ≤ ng g)%Z → ghosted g U →
  ∃ q_l q_r flux A,
    states g U = Ok (q_l, q_r) ∧
    interface_flux riemann g U
      = Ok (flux, (λ i, (at_ q_l i, at_ q_r i)) <$> zrange (ilo g) (ihi g + 2)) ∧
    make_flux_divergence riemann g U = Ok A ∧
    length flux = length U ∧ length A = length U ∧
    (∀ i, (ilo g ≤ i ≤ ihi g + 1)%Z →
          at_ q_l i = Q_left (prim <$> U) i ∧ at_ q_r i = Q_right (prim <$> U) i) ∧
    (∀ i, (ilo g ≤ i ≤ ihi g + 1)%Z →
          at_ flux i = riemann (at_ q_l i) (at_ q_r i) gamma) ∧
    (∀ i, interior g i → at_ A i = rhs_cell g flux i) ∧
    (∀ i, (0 ≤ i < ilo g ∨ ihi g < i)%Z → at_ A i = V3 zero zero zero).
Proof.
  intros Hinv Hg2 HU.
  destruct (states_ok g U Hinv Hg2 HU) as (q_l & q_r & Hst & Hll & Hlr & Hq & _).
  assert (Hgl : ghosted g q_l) by (unfold ghosted in *; congruence).
  assert (Hgr : ghosted g q_r) by (unfold ghosted in *; congruence).
  destruct (riemann_sweep_ok g q_l q_r Hinv ltac:(lia) Hgl Hgr)
    as (flux & Hsw & Hlf & Hfl & _).
  assert (Hgf : ghosted g flux) by (unfold ghosted in *; congruence).
  destruct (flux_difference_ok g flux Hinv ltac:(lia) Hgf)
    as (A & HA & HlA & HAin & HAout).
  assert (Hif : interface_flux riemann g U
      = Ok (flux, (λ i, (at_ q_l i, at_ q_r i)) <$> zrange (ilo g) (ihi g + 2))).
  { unfold interface_flux. by rewrite Hst, bind_Ok. }
  exists q_l, q_r, flux, A.
  split; [done|]. split; [done|].
  split. { unfold make_flux_divergence. by rewrite Hif, bind_Ok. }
  split; [congruence|]. split; [congruence|]. done.
Qed.

Lemma list_eq_total {T : Type} `{!Inhabited T} (l1 l2 : list T) :
  length l1 = length l2 →
  (∀ k, k < length l1 → l1 !!! k = l2 !!! k) → l1 = l2.
Proof.
  intros Hlen Hk. apply list_eq. intros k.
  destruct (decide (k < length l1)) as [Hlt|Hge].
  - rewrite (list_lookup_lookup_total_lt l1 k) by done.
    rewrite (list_lookup_lookup_total_lt l2 k) by lia.
    f_equal. by apply Hk.
  - rewrite !lookup_ge_None_2 by lia. done.
Qed.

Lemma zrange_cons (lo hi : Z) :
  (lo < hi)%Z → zrange lo hi = lo :: zrange (lo + 1) hi.
Proof.
  intros Hlt. unfold zrange.
  replace (Z.to_nat (hi - lo)) with (S (Z.to_nat (hi - (lo + 1)))) by lia.
  cbn [seq fmap list_fmap]. f_equal; [lia|].
  rewrite <- fmap_S_seq, <- list_fmap_compose.
  apply list_fmap_ext. intros ? k _. simpl. lia.
Qed.

Lemma zrange_at (lo hi : Z) (k : nat) :
  k < Z.to_nat (hi - lo) → zrange lo hi !!! k = (lo + Z.of_nat k)%Z.
Proof.
  intros Hk. unfold zrange.
  erewrite fmap_at by (by rewrite length_seq).
  by rewrite lookup_total_seq_lt.
Qed.

End HydroFacts.

(** Lengths of the arrays that the program builds. *)
Ltac len :=
  repeat first
    [ rewrite length_assign | rewrite length_replicate | rewrite length_fmap
    | rewrite length_zip_with | rewrite length_insert
    | rewrite length_col_in by len | rewrite length_slice_in by len ];
  lia.

Section StageFacts.
Context {F : Type} `{!Scalar F}.
Variable riemann : vec3 F → vec3 F → F → vec3 F.
Implicit Types (g : FVGrid F) (U q : list (vec3 F)).

(** [timestep] on a state of ghosted length. *)
Lemma timestep_ok g U :
  grid_inv g → ghosted g U →
  timestep g U = Ok (div (mul C (dx g)) (s_max g U)).
Proof.
  intros (Hilo & Hihi & Hnx & Hng) HU. unfold ghosted in HU.
  unfold timestep.
  eapply bind_step; [by apply cons_to_prim_ok|].
  eapply bind_step; [by apply (scratch_array_ghosted (T:=F) g U)|].
  eapply bind_step; [apply bc2_same; len|].
  eapply bind_step; [apply set_slice_in; len|].
  eapply bind_step; [apply bc2_same; len|].
  match goal with |- (np_max _ ?s ≫= _) = _ =>
    assert (Hs : s = (λ i, signal_speed (prim (at_ U i)))
                       <$> zrange (ilo g) (ihi g + 1)) end.
  { apply list_eq_total; [rewrite length_fmap, length_zrange; len|].
    intros k Hk.
    assert (k < Z.to_nat (nx g)) by (revert Hk; len).
    erewrite zip_at by len.
    erewrite !fmap_at by (rewrite ?length_zrange; len).
    rewrite zrange_at by lia.
    rewrite (slice_at_eq _ _ _ _ (ilo g + Z.of_nat k)) by len.
    rewrite !col_at by len.
    unfold at_ at 2. rewrite assign_inside by len.
    erewrite fmap_at by len. erewrite zip_at by len.
    erewrite fmap_at by len.
    rewrite !col_at by len.
    unfold at_. erewrite !fmap_at by len.
    unfold signal_speed, sound_speed. cbn [cell_get vec3_cell].
    repeat (f_equal; try lia). }
  rewrite Hs, (zrange_cons (ilo g)) by lia.
  reflexivity.
Qed.

Lemma assign_lookup_outside {X Y : Type} (upd : Y → X → X) s (v : list Y)
    (a : list X) (j : nat) :
  j < s ∨ s + length v ≤ j → assign upd s v a !! j = a !! j.
Proof.
  intros Hj. rewrite assign_lookup.
  destruct (a !! j) as [old|]; [|done].
  cbv [fmap option_fmap option_map]. case_decide; [|done].
  by rewrite (lookup_ge_None_2 v (j - s)) by lia.
Qed.

Lemma getitem_returns {X : Type} (a : list X) (i : Z) :
  (0 ≤ i < Z.of_nat (length a))%Z → ∃ v, getitem a i = Ok v.
Proof.
  intros Hi. unfold getitem. rewrite py_index_in by done.
  destruct (lookup_lt_is_Some_2 a (Z.to_nat i)) as [v Hv]; [lia|].
  rewrite Hv. eauto.
Qed.

Lemma length_fill_slice {X : Type} (a : list X) lo hi (y : X) :
  length (fill_slice a lo hi y) = length a.
Proof. unfold fill_slice. destruct (srange _ _ _). apply length_assign. Qed.

Lemma length_fill_col {T : Type} `{!Cell F T} (a : list T) lo hi n (y : F) :
  length (fill_col a lo hi n y) = length a.
Proof. unfold fill_col. destruct (srange _ _ _). apply length_assign. Qed.

Lemma fill_slice_low {X : Type} (a : list X) (hi : Z) (y : X) (j : nat) :
  (0 ≤ hi ≤ Z.of_nat (length a))%Z → (hi ≤ Z.of_nat j)%Z →
  fill_slice a (Some 0%Z) (Some hi) y !! j = a !! j.
Proof.
  intros Hhi Hj. unfold fill_slice. rewrite srange_in by lia.
  apply assign_lookup_outside. rewrite length_replicate. lia.
Qed.

Lemma fill_slice_high {X : Type} (a : list X) (lo : Z) (y : X) (j : nat) :
  (0 ≤ lo ≤ Z.of_nat (length a))%Z → (Z.of_nat j < lo)%Z →
  fill_slice a (Some lo) None y !! j = a !! j.
Proof.
  intros Hlo Hj. unfold fill_slice. rewrite srange_from by lia.
  apply assign_lookup_outside. lia.
Qed.

Lemma fill_col_low {T : Type} `{!Cell F T} (a : list T) (hi : Z) n (y : F) (j : nat) :
  (0 ≤ hi ≤ Z.of_nat (length a))%Z → (hi ≤ Z.of_nat j)%Z →
  fill_col a (Some 0%Z) (Some hi) n y !! j = a !! j.
Proof.
  intros Hhi Hj. unfold fill_col. rewrite srange_in by lia.
  apply assign_lookup_outside. rewrite length_replicate. lia.
Qed.

Lemma fill_col_high {T : Type} `{!Cell F T} (a : list T) (lo : Z) n (y : F) (j : nat) :
  (0 ≤ lo ≤ Z.of_nat (length a))%Z → (Z.of_nat j < lo)%Z →
  fill_col a (Some lo) None n y !! j = a !! j.
Proof.
  intros Hlo Hj. unfold fill_col. rewrite srange_from by lia.
  apply assign_lookup_outside. lia.
Qed.

(** [fill_BCs] returns on every array of ghosted length and leaves the
    interior cells as they were, for both layouts of the array. *)
Lemma fill_BCs_frame {T : Type} `{!Cell F T} g (a : list T) :
  grid_inv g → ghosted g a →
  ∃ a', fill_BCs g a = Ok a' ∧ length a' = length a ∧
    ∀ j : nat, (ilo g ≤ Z.of_nat j ≤ ihi g)%Z → a' !! j = a !! j.
Proof.
  intros (Hilo & Hihi & Hnx & Hng) Ha. unfold ghosted in Ha.
  unfold fill_BCs. case_decide as Hnc.
  - destruct (getitem_returns a (ilo g)) as [v Hv]; [lia|].
    rewrite Hv, bind_Ok.
    destruct (getitem_returns (fill_slice a (Some 0%Z) (Some (ilo g)) v) (ihi g))
      as [w Hw]; [rewrite length_fill_slice; lia|].
    rewrite Hw, bind_Ok. eexists. split; [done|].
    split; [by rewrite !length_fill_slice|].
    intros j Hj.
    rewrite fill_slice_high by (rewrite ?length_fill_slice; lia).
    rewrite fill_slice_low by lia. done.
  - clear Hnc. generalize (range (default 1 (cell_shape1 F T))). intros ns.
    revert a Ha. induction ns as [|n ns IH]; intros a Ha.
    + exists a. done.
    + destruct (getitem_returns a (ilo g)) as [v Hv]; [lia|].
      destruct (getitem_returns
                  (fill_col a (Some 0%Z) (Some (ilo g)) n (cell_get n v)) (ihi g))
        as [w Hw]; [rewrite length_fill_col; lia|].
      erewrite foldM_cons; [|by rewrite Hv, bind_Ok, Hw, bind_Ok].
      destruct (IH (fill_col (fill_col a (Some 0%Z) (Some (ilo g)) n (cell_get n v))
                      (Some (ihi g + 1)%Z) None n (cell_get n w)))
        as (a' & Hfold & Hlen & Hframe); [by rewrite !length_fill_col|].
      exists a'. split; [done|].
      split; [by rewrite Hlen, !length_fill_col|].
      intros j Hj. rewrite Hframe by done.
      rewrite fill_col_high by (rewrite ?length_fill_col; lia).
      rewrite fill_col_low by lia. done.
Qed.

Lemma predictor_loop (U k : list (vec3 F)) (c : F) :
  length k = length U →
  foldM (λ U_tmp n,
           s ← bc2 add (col U None None n) (mul c <$> col k None None n);
           set_col U_tmp None None n s)
        (replicate (length U) cell_zero) (range NVAR)
  = Ok (zip_with (axpy c) U k).
Proof.
  intros Hlen. unfold range, NVAR. cbn [seq].
  do 3 (erewrite foldM_cons;
        [|eapply bind_step;
          [apply bc2_same; rewrite !col_full; len|];
          apply set_col_full; rewrite !col_full; len]).
  cbn [foldM]. f_equal. rewrite !col_full.
  apply list_eq_total; [len|]. intros j Hj.
  assert (j < length U) by (revert Hj; len).
  repeat (erewrite zip_at by len). repeat (erewrite fmap_at by len).
  rewrite lookup_total_replicate_2 by done.
  reflexivity.
Qed.

Lemma corrector_loop (U k : list (vec3 F)) (c : F) :
  length k = length U →
  foldM (λ U n, iadd_col U n (mul c <$> col k None None n)) U (range NVAR)
  = Ok (zip_with (axpy c) U k).
Proof.
  intros Hlen. unfold range, NVAR. cbn [seq].
  do 3 (erewrite foldM_cons;
        [|unfold iadd_col; eapply bind_step;
          [apply broadcast_to_same; rewrite !col_full; len|];
          rewrite assign_full by (rewrite !col_full; len); reflexivity]).
  cbn [foldM]. f_equal. rewrite !col_full.
  apply list_eq_total; [len|]. intros j Hj.
  assert (j < length U) by (revert Hj; len).
  repeat (erewrite zip_at by len). repeat (erewrite fmap_at by len).
  reflexivity.
Qed.

(** The loop body of [mol_solve], stage by stage. *)
Lemma mol_step_ok g U dt :
  grid_inv g → (2 ≤ ng g)%Z → ghosted g U →
  ∃ U1 k1 U_mid k2,
    fill_BCs g U = Ok U1 ∧
    make_flux_divergence riemann g U1 = Ok k1 ∧
    fill_BCs g (zip_with (axpy (mul lit_0_5 dt)) U1 k1) = Ok U_mid ∧
    make_flux_divergence riemann g U_mid = Ok k2 ∧
    mol_step riemann g U dt = Ok (zip_with (axpy dt) U1 k2) ∧
    length U1 = length U ∧ length k1 = length U ∧
    length U_mid = length U ∧ length k2 = length U.
Proof.
  intros Hinv Hg2 HU.
  destruct (fill_BCs_frame g U Hinv HU) as (U1 & HU1 & Hl1 & _).
  assert (Hg1 : ghosted g U1) by (unfold ghosted in *; congruence).
  destruct (make_flux_divergence_ok riemann g U1 Hinv Hg2 Hg1)
    as (? & ? & ? & k1 & _ & _ & Hk1 & _ & Hlk1 & _).
  assert (Hgm : ghosted g (zip_with (axpy (mul lit_0_5 dt)) U1 k1)).
  { unfold ghosted in *. rewrite length_zip_with. lia. }
  destruct (fill_BCs_frame g _ Hinv Hgm) as (U_mid & HUm & Hlm & _).
  rewrite length_zip_with in Hlm.
  assert (Hgm' : ghosted g U_mid) by (unfold ghosted in *; lia).
  destruct (make_flux_divergence_ok riemann g U_mid Hinv Hg2 Hgm')
    as (? & ? & ? & k2 & _ & _ & Hk2 & _ & Hlk2 & _).
  exists U1, k1, U_mid, k2.
  split; [done|]. split; [done|]. split; [done|]. split; [done|].
  split; [|lia].
  unfold mol_step.
  eapply bind_step; [exact HU1|].
  eapply bind_step; [exact Hk1|].
  eapply bind_step; [by apply (scratch_array_ghosted g U1)|].
  eapply bind_step; [apply predictor_loop; lia|].
  eapply bind_step; [exact HUm|].
  eapply bind_step; [exact Hk2|].
  apply corrector_loop. lia.
Qed.

End StageFacts.

(** * What the boundary fill writes *)

Section FillFacts.
Context {F : Type} `{!Scalar F}.
Implicit Types (g : FVGrid F) (U : list (vec3 F)) (a : list F).

Lemma fill_slice_low_at {X : Type} `{!Inhabited X} (b : list X) (hi : Z) (y : X) (j : nat) :
  (0 ≤ hi ≤ Z.of_nat (length b))%Z →
  fill_slice b (Some 0%Z) (Some hi) y !!! j
  = if decide (Z.of_nat j < hi)%Z then y else b !!! j.
Proof.
  intros Hhi. unfold fill_slice. rewrite srange_in by lia. case_decide.
  - rewrite assign_inside by (rewrite ?length_replicate; lia).
    by rewrite lookup_total_replicate_2 by lia.
  - rewrite assign_outside by (rewrite ?length_replicate; lia). done.
Qed.

Lemma fill_slice_high_at {X : Type} `{!Inhabited X} (b : list X) (lo : Z) (y : X) (j : nat) :
  (0 ≤ lo ≤ Z.of_nat (length b))%Z → j < length b →
  fill_slice b (Some lo) None y !!! j
  = if decide (lo ≤ Z.of_nat j)%Z then y else b !!! j.
Proof.
  intros Hlo Hj. unfold fill_slice. rewrite srange_from by lia. case_decide.
  - rewrite assign_inside by (rewrite ?length_replicate; lia).
    by rewrite lookup_total_replicate_2 by lia.
  - rewrite assign_outside by (rewrite ?length_replicate; lia). done.
Qed.

Lemma fill_col_low_at (b : list (vec3 F)) (hi : Z) n (y : F) (j : nat) :
  (0 ≤ hi ≤ Z.of_nat (length b))%Z →
  fill_col b (Some 0%Z) (Some hi) n y !!! j
  = if decide (Z.of_nat j < hi)%Z then vset n y (b !!! j) else b !!! j.
Proof.
  intros Hhi. unfold fill_col. rewrite srange_in by lia. case_decide.
  - rewrite assign_inside by (rewrite ?length_replicate; lia).
    by rewrite lookup_total_replicate_2 by lia.
  - rewrite assign_outside by (rewrite ?length_replicate; lia). done.
Qed.

Lemma fill_col_high_at (b : list (vec3 F)) (lo : Z) n (y : F) (j : nat) :
  (0 ≤ lo ≤ Z.of_nat (length b))%Z → j < length b →
  fill_col b (Some lo) None n y !!! j
  = if decide (lo ≤ Z.of_nat j)%Z then vset n y (b !!! j) else b !!! j.
Proof.
  intros Hlo Hj. unfold fill_col. rewrite srange_from by lia. case_decide.
  - rewrite assign_inside by (rewrite ?length_replicate; lia).
    by rewrite lookup_total_replicate_2 by lia.
  - rewrite assign_outside by (rewrite ?length_replicate; lia). done.
Qed.

(** The one-dimensional branch of [fill_BCs], cell by cell. *)
Lemma fill_BCs_scalar_at g a :
  grid_inv g → ghosted g a →
  ∃ a', fill_BCs g a = Ok a' ∧ length a' = length a ∧
    ∀ j : nat, j < length a →
      a' !!! j = if decide (Z.of_nat j < ilo g)%Z then at_ a (ilo g)
                 else if decide (ihi g < Z.of_nat j)%Z then at_ a (ihi g)
                 else a !!! j.
Proof.
  intros (Hilo & Hihi & Hnx & Hng) Ha. unfold ghosted in Ha.
  unfold fill_BCs. cbn [cell_shape1 scalar_cell default]. rewrite decide_True by done.
  rewrite getitem_in by lia. rewrite bind_Ok.
  rewrite getitem_in by (rewrite length_fill_slice; lia). rewrite bind_Ok.
  eexists. split; [done|]. split; [by rewrite !length_fill_slice|].
  intros j Hj.
  rewrite fill_slice_high_at by (rewrite ?length_fill_slice; lia).
  unfold at_ at 1. rewrite !fill_slice_low_at by lia.
  rewrite (decide_False (P := (Z.of_nat (Z.to_nat (ihi g)) < ilo g)%Z)) by lia.
  repeat case_decide; try lia; done.
Qed.

(** One pass of the loop of the two-dimensional branch. *)
Lemma fill_BCs_pass g U (n : nat) :
  grid_inv g → ghosted g U →
  ∃ U',
    (v ← getitem U (ilo g);
     let atmp := fill_col U (Some 0%Z) (Some (ilo g)) n (cell_get n v) in
     v ← getitem atmp (ihi g);
     Ok (fill_col atmp (Some (ihi g + 1)%Z) None n (cell_get n v))) = Ok U' ∧
    length U' = length U ∧
    ∀ j : nat, j < length U →
      U' !!! j = if decide (Z.of_nat j < ilo g)%Z
                 then vset n (vget n (at_ U (ilo g))) (U !!! j)
                 else if decide (ihi g < Z.of_nat j)%Z
                      then vset n (vget n (at_ U (ihi g))) (U !!! j)
                      else U !!! j.
Proof.
  intros (Hilo & Hihi & Hnx & Hng) HU. unfold ghosted in HU.
  rewrite getitem_in by lia. rewrite bind_Ok. cbv zeta.
  rewrite getitem_in by (rewrite length_fill_col; lia). rewrite bind_Ok.
  eexists. split; [done|]. split; [by rewrite !length_fill_col|].
  intros j Hj.
  rewrite fill_col_high_at by (rewrite ?length_fill_col; lia).
  unfold at_ at 1. rewrite !fill_col_low_at by lia.
  rewrite (decide_False (P := (Z.of_nat (Z.to_nat (ihi g)) < ilo g)%Z)) by lia.
  cbn [cell_get vec3_cell].
  repeat case_decide; try lia; done.
Qed.

(** The two-dimensional branch of [fill_BCs], cell by cell. *)
Lemma fill_BCs_vector_at g U :
  grid_inv g → ghosted g U →
  ∃ U', fill_BCs g U = Ok U' ∧ length U' = length U ∧
    ∀ j : nat, j < length U →
      U' !!! j = if decide (Z.of_nat j < ilo g)%Z then at_ U (ilo g)
                 else if decide (ihi g < Z.of_nat j)%Z then at_ U (ihi g)
                 else U !!! j.
Proof.
  intros Hinv HU.
  destruct (fill_BCs_pass g U 0 Hinv HU) as (U0 & HU0 & Hl0 & Hv0).
  assert (HgU0 : ghosted g U0) by (unfold ghosted in *; congruence).
  destruct (fill_BCs_pass g U0 1 Hinv HgU0) as (U1 & HU1 & Hl1 & Hv1).
  assert (HgU1 : ghosted g U1) by (unfold ghosted in *; congruence).
  destruct (fill_BCs_pass g U1 2 Hinv HgU1) as (U2 & HU2 & Hl2 & Hv2).
  destruct Hinv as (Hilo & Hihi & Hnx & Hng). unfold ghosted in HU.
  exists U2. split.
  { unfold fill_BCs. cbn [cell_shape1 vec3_cell default].
    rewrite decide_False by done. unfold range.
    change (seq 0 (Datatypes.id 3)) with [0; 1; 2].
    erewrite foldM_cons by exact HU0.
    erewrite foldM_cons by exact HU1.
    erewrite foldM_cons by exact HU2. done. }
  split; [congruence|].
  intros j Hj.
  assert (Hin0 : ∀ i, (ilo g ≤ i ≤ ihi g)%Z → at_ U0 i = at_ U i).
  { intros i Hi. unfold at_. rewrite Hv0 by lia. repeat case_decide; try lia; done. }
  assert (Hin1 : ∀ i, (ilo g ≤ i ≤ ihi g)%Z → at_ U1 i = at_ U i).
  { intros i Hi. rewrite <- Hin0 by done. unfold at_.
    rewrite Hv1 by lia. repeat case_decide; try lia; done. }
  rewrite Hv2, Hv1, Hv0 by lia.
  rewrite !Hin1, !Hin0 by lia.
  repeat case_decide; try lia; try done.
  - by destruct (at_ U (ilo g)).
  - by destruct (at_ U (ihi g)).
Qed.

End FillFacts.

(** * Facts about binary64 *)

Section FloatFacts.
Implicit Types (y z : float) (w : vec3 float).

Lemma is_finite_cases y :
  PrimFloat.is_finite y = true →
  (∃ s, Prim2SF y = S754_zero s) ∨ (∃ s m e, Prim2SF y = S754_finite s m e).
Proof.
  unfold PrimFloat.is_finite, Prim2SF. intros H.
  destruct (PrimFloat.is_nan y); [done|].
  destruct (PrimFloat.is_zero y); [left; eauto|].
  destruct (PrimFloat.is_infinity y); [done|].
  destruct (Z.frexp y) as [r ex].
  destruct (shr_fexp _ _ _ _ _) as [sh e'].
  destruct (shr_m sh); [left; eauto | right; eauto | left; eauto].
Qed.

Lemma SFeqb_refl (s : bool) (m : positive) (e : Z) :
  SFeqb (S754_finite s m e) (S754_finite s m e) = true.
Proof.
  unfold SFeqb, SFcompare.
  destruct s; by rewrite Z.compare_refl, Pos.compare_cont_refl.
Qed.

Lemma is_finite_false y :
  PrimFloat.is_finite y = false →
  Prim2SF y = S754_nan ∨ ∃ s, Prim2SF y = S754_infinity s.
Proof.
  unfold PrimFloat.is_finite, PrimFloat.is_nan, PrimFloat.is_infinity.
  rewrite !FloatAxioms.eqb_spec, FloatAxioms.abs_spec.
  destruct (Prim2SF y) as [s|s| |s m e]; cbn [SFabs]; eauto.
  - by destruct s.
  - rewrite !SFeqb_refl. done.
Qed.

Lemma float_sub_diag y : PrimFloat.is_finite y = true → PrimFloat.sub y y = 0%float.
Proof.
  intros H. apply Prim2SF_inj. rewrite FloatAxioms.sub_spec.
  destruct (is_finite_cases y H) as [[s ->] | (s & m & e & ->)].
  - by destruct s.
  - unfold SF64sub, SFsub. rewrite Z.sub_diag. reflexivity.
Qed.

Lemma float_sub_zero y : PrimFloat.is_finite y = true → PrimFloat.sub y 0%float = y.
Proof.
  intros H. apply Prim2SF_inj. rewrite FloatAxioms.sub_spec.
  destruct (is_finite_cases y H) as [[s ->] | (s & m & e & ->)].
  - by destruct s.
  - reflexivity.
Qed.

Lemma float_add_zero_eqb y :
  PrimFloat.is_finite y = true → PrimFloat.eqb (PrimFloat.add y 0%float) y = true.
Proof.
  intros H. rewrite FloatAxioms.eqb_spec, FloatAxioms.add_spec.
  destruct (is_finite_cases y H) as [[s ->] | (s & m & e & ->)].
  - by destruct s.
  - change (Prim2SF 0%float) with (S754_zero false). cbn [SF64add SFadd].
    apply SFeqb_refl.
Qed.

Lemma finite3_components w :
  finite3 w = true →
  PrimFloat.is_finite (c0 w) = true ∧ PrimFloat.is_finite (c1 w) = true ∧
  PrimFloat.is_finite (c2 w) = true.
Proof.
  unfold finite3. intros H.
  apply andb_prop in H as [H H2]. apply andb_prop in H as [H0 H1]. done.
Qed.

(** The slope between two cells that hold the same finite values is zero. *)
Lemma float_slope_zero w :
  finite3 w = true → vmap (mul lit_0_5) (vzip sub w w) = V3 zero zero zero.
Proof.
  intros H. apply finite3_components in H as (H0 & H1 & H2).
  unfold vmap, vzip. cbn [c0 c1 c2 sub float_scalar].
  by rewrite !float_sub_diag.
Qed.

Lemma float_minus_half_zero w :
  finite3 w = true → vzip sub w (vmap (mul lit_0_5) (V3 zero zero zero)) = w.
Proof.
  intros H. apply finite3_components in H as (H0 & H1 & H2).
  destruct w as [a b d]. unfold vmap, vzip. cbn [c0 c1 c2] in *.
  change (mul lit_0_5 zero) with 0%float. cbn [sub float_scalar].
  by rewrite !float_sub_zero.
Qed.

Lemma float_plus_half_zero w :
  finite3 w = true →
  vzip add w (vmap (mul lit_0_5) (V3 zero zero zero)) = vzip add w (V3 zero zero zero) ∧
  same3 (vzip add w (V3 zero zero zero)) w = true.
Proof.
  intros H. apply finite3_components in H as (H0 & H1 & H2).
  split; [reflexivity|].
  unfold same3, vzip. cbn [c0 c1 c2 add float_scalar].
  change (zero (F := float)) with 0%float.
  by rewrite !float_add_zero_eqb.
Qed.

(** ** When a quotient is positive *)

Lemma digits2_pos_bounds (p : positive) :
  (2 ^ (Z.pos (digits2_pos p) - 1) ≤ Z.pos p < 2 ^ Z.pos (digits2_pos p))%Z.
Proof.
  induction p as [p IH | p IH |]; cbn [digits2_pos].
  - rewrite Pos2Z.inj_succ.
    replace (Z.succ (Z.pos (digits2_pos p)) - 1)%Z
      with (Z.succ (Z.pos (digits2_pos p) - 1))%Z by lia.
    rewrite !Z.pow_succ_r by lia. lia.
  - rewrite Pos2Z.inj_succ.
    replace (Z.succ (Z.pos (digits2_pos p)) - 1)%Z
      with (Z.succ (Z.pos (digits2_pos p) - 1))%Z by lia.
    rewrite !Z.pow_succ_r by lia. lia.
  - simpl. lia.
Qed.

Lemma shr_1_div2 (mrs : shr_record) :
  (0 ≤ shr_m mrs)%Z → shr_m (shr_1 mrs) = (shr_m mrs / 2)%Z.
Proof.
  destruct mrs as [m r s]. cbn [shr_m shr_1]. intros Hm.
  rewrite <- Z.div2_div.
  destruct m as [|[p|p|]|p]; cbn [shr_m]; (reflexivity || lia).
Qed.

Lemma pow2_xO (p : positive) : (2 ^ Z.pos p~0 = 2 ^ Z.pos p * 2 ^ Z.pos p)%Z.
Proof. rewrite <- Z.pow_add_r by lia. f_equal. lia. Qed.

Lemma pow2_xI (p : positive) : (2 ^ Z.pos p~1 = 2 * (2 ^ Z.pos p * 2 ^ Z.pos p))%Z.
Proof. rewrite <- Z.pow_add_r, <- Z.pow_succ_r by lia. f_equal. lia. Qed.

(** Shifting a mantissa right by [p] bits divides it by [2^p]. *)
Lemma iter_pos_shr_1 (p : positive) (mrs : shr_record) :
  (0 ≤ shr_m mrs)%Z →
  shr_m (SpecFloat.iter_pos shr_1 p mrs) = (shr_m mrs / 2 ^ Z.pos p)%Z.
Proof.
  revert mrs. induction p as [p IH | p IH |]; intros mrs Hm; cbn [SpecFloat.iter_pos].
  - assert (H1 : (0 ≤ shr_m (shr_1 mrs))%Z)
      by (rewrite shr_1_div2 by done; apply Z.div_pos; lia).
    assert (H2 : (0 ≤ shr_m (SpecFloat.iter_pos shr_1 p (shr_1 mrs)))%Z)
      by (rewrite IH by done; apply Z.div_pos; lia).
    rewrite IH, IH, shr_1_div2 by done.
    rewrite !Z.div_div by lia. by rewrite pow2_xI.
  - assert (H2 : (0 ≤ shr_m (SpecFloat.iter_pos shr_1 p mrs))%Z)
      by (rewrite IH by done; apply Z.div_pos; lia).
    rewrite IH, IH by done.
    rewrite !Z.div_div by lia. by rewrite pow2_xO.
  - rewrite shr_1_div2 by done. reflexivity.
Qed.

Lemma shr_m_record_of_loc (m : Z) (l : location) : shr_m (shr_record_of_loc m l) = m.
Proof. by destruct l as [|[]]. Qed.

(** A mantissa of at least 53 bits keeps 53 bits through [shr_fexp]. *)
Lemma shr_fexp_big (m e : Z) (l : location) :
  (2 ^ 52 ≤ m)%Z → (-1074 ≤ e)%Z →
  (2 ^ 52 ≤ shr_m (fst (shr_fexp prec emax m e l)))%Z ∧
  (-1074 ≤ snd (shr_fexp prec emax m e l))%Z.
Proof.
  intros Hm He. unfold shr_fexp.
  destruct m as [|p|p]; [lia | | lia].
  cbn [Zdigits2]. pose proof (digits2_pos_bounds p) as [Hlo Hhi].
  set (d := Z.pos (digits2_pos p)) in *.
  assert (Hd : (53 ≤ d)%Z).
  { destruct (Z.le_gt_cases 53 d) as [|Hlt]; [done|].
    assert (2 ^ d ≤ 2 ^ 52)%Z by (apply Z.pow_le_mono_r; lia). lia. }
  assert (Hk : (fexp prec emax (d + e) - e = d - 53)%Z).
  { unfold fexp, SpecFloat.emin, prec, emax. lia. }
  rewrite Hk. unfold shr.
  destruct (d - 53)%Z as [|k|k] eqn:Hdk; cbn [fst snd].
  - rewrite shr_m_record_of_loc. lia.
  - rewrite iter_pos_shr_1, shr_m_record_of_loc by (rewrite shr_m_record_of_loc; lia).
    split; [|lia].
    apply Z.div_le_lower_bound; [lia|].
    rewrite <- Z.pow_add_r by lia.
    replace (Z.pos k + 52)%Z with (d - 1)%Z by lia. done.
  - lia.
Qed.

Lemma binary_round_aux_big (m e : Z) (l : location) :
  (2 ^ 52 ≤ m)%Z → (-1074 ≤ e)%Z →
  (∃ m' e', binary_round_aux prec emax false m e l = S754_finite false m' e') ∨
  binary_round_aux prec emax false m e l = S754_infinity false.
Proof.
  intros Hm He. unfold binary_round_aux.
  pose proof (shr_fexp_big m e l Hm He) as [H1 H2].
  destruct (shr_fexp prec emax m e l) as [mrs1 e1]. cbn [fst snd] in H1, H2.
  set (m2 := round_nearest_even (shr_m mrs1) (loc_of_shr_record mrs1)).
  assert (Hm2 : (2 ^ 52 ≤ m2)%Z).
  { unfold m2, round_nearest_even.
    destruct (loc_of_shr_record mrs1) as [|[]]; try lia.
    destruct (Z.even (shr_m mrs1)); lia. }
  pose proof (shr_fexp_big m2 e1 loc_Exact Hm2 H2) as [H3 H4].
  destruct (shr_fexp prec emax m2 e1 loc_Exact) as [mrs2 e2]. cbn [fst snd] in H3, H4.
  destruct (shr_m mrs2) as [|q|q]; [lia | | lia].
  destruct (e2 <=? emax - prec)%Z; [left; eauto | by right].
Qed.

(** The quotient of two positive finite floats whose binary exponents differ
    by at most 1021 is a positive float or the infinity: it is not rounded
    down to zero. *)
Lemma SFdiv_positive (m1 m2 : positive) (e1 e2 : Z) :
  valid_binary (S754_finite false m1 e1) = true →
  valid_binary (S754_finite false m2 e2) = true →
  (-1021 ≤ Z.pos (digits2_pos m1) + e1 - (Z.pos (digits2_pos m2) + e2))%Z →
  (∃ m e, SF64div (S754_finite false m1 e1) (S754_finite false m2 e2)
          = S754_finite false m e) ∨
  SF64div (S754_finite false m1 e1) (S754_finite false m2 e2) = S754_infinity false.
Proof.
  intros Hv1 Hv2 Hexp.
  unfold SF64div, SFdiv, SFdiv_core_binary. cbn [Zdigits2 xorb].
  pose proof (digits2_pos_bounds m1) as [Hlo1 Hhi1].
  pose proof (digits2_pos_bounds m2) as [Hlo2 Hhi2].
  set (d1 := Z.pos (digits2_pos m1)) in *.
  set (d2 := Z.pos (digits2_pos m2)) in *.
  assert (Hd1 : (d1 ≤ 53)%Z).
  { cbn [valid_binary] in Hv1. unfold bounded, canonical_mantissa in Hv1.
    apply andb_prop in Hv1 as [Hc _]. apply Z.eqb_eq in Hc.
    fold d1 in Hc. unfold fexp, SpecFloat.emin, prec, emax in Hc. lia. }
  assert (Hd2 : (1 ≤ d2)%Z) by (unfold d2; lia).
  assert (He' : Z.min (fexp prec emax (d1 + e1 - (d2 + e2))) (e1 - e2)
                = (d1 + e1 - (d2 + e2) - 53)%Z).
  { unfold fexp, SpecFloat.emin, prec, emax. lia. }
  rewrite He'.
  replace (e1 - e2 - (d1 + e1 - (d2 + e2) - 53))%Z with (53 + d2 - d1)%Z by lia.
  destruct (53 + d2 - d1)%Z as [|s|s] eqn:Hs; [lia | | lia].
  rewrite Z.shiftl_mul_pow2 by lia.
  pose proof (Z.div_eucl_eq (Z.pos m1 * 2 ^ Z.pos s) (Z.pos m2) ltac:(lia)) as Heq.
  pose proof (Z.mod_pos_bound (Z.pos m1 * 2 ^ Z.pos s) (Z.pos m2) ltac:(lia)) as Hr.
  unfold Z.modulo in Hr.
  destruct (Z.div_eucl (Z.pos m1 * 2 ^ Z.pos s) (Z.pos m2)) as [q r].
  apply binary_round_aux_big; [|lia].
  assert (Hbig : (2 ^ 52 * 2 ^ d2 ≤ Z.pos m1 * 2 ^ Z.pos s)%Z).
  { rewrite <- Z.pow_add_r by lia.
    replace (52 + d2)%Z with ((d1 - 1) + Z.pos s)%Z by lia.
    rewrite Z.pow_add_r by lia.
    apply Z.mul_le_mono_nonneg_r; [lia | done]. }
  destruct (Z.le_gt_cases (2 ^ 52) q) as [|Hlt]; [done|].
  exfalso.
  assert (Z.pos m2 * q + r < Z.pos m2 * 2 ^ 52)%Z by nia.
  assert (Z.pos m2 * 2 ^ 52 < 2 ^ 52 * 2 ^ d2)%Z by nia.
  lia.
Qed.

Lemma positive_number_cases y :
  positive_number y = true → ∃ m e, Prim2SF y = S754_finite false m e.
Proof.
  unfold positive_number, PrimFloat.is_infinity. intros H.
  apply andb_prop in H as [Hlt Hinf]. apply negb_true_iff in Hinf.
  rewrite FloatAxioms.ltb_spec in Hlt.
  rewrite FloatAxioms.eqb_spec, FloatAxioms.abs_spec in Hinf.
  change (Prim2SF 0%float) with (S754_zero false) in Hlt.
  change (Prim2SF infinity) with (S754_infinity false) in Hinf.
  destruct (Prim2SF y) as [s|s| |s m e]; try destruct s;
    cbn in Hlt, Hinf; try discriminate; eauto.
Qed.

Lemma float_div_positive y z :
  positive_number y = true → positive_number z = true →
  (-1021 ≤ exponent y - exponent z)%Z →
  PrimFloat.ltb 0%float (PrimFloat.div y z) = true.
Proof.
  intros Hy Hz. unfold exponent.
  pose proof (Prim2SF_valid y) as Hvy. pose proof (Prim2SF_valid z) as Hvz.
  destruct (positive_number_cases y Hy) as (m1 & e1 & Ey).
  destruct (positive_number_cases z Hz) as (m2 & e2 & Ez).
  rewrite Ey in Hvy |- *. rewrite Ez in Hvz |- *. intros Hexp.
  rewrite FloatAxioms.ltb_spec, FloatAxioms.div_spec, Ey, Ez.
  change (Prim2SF 0%float) with (S754_zero false).
  destruct (SFdiv_positive m1 m2 e1 e2 Hvy Hvz Hexp) as [(m & e & ->) | ->]; done.
Qed.

Lemma float_div_not_number y z :
  positive_number y = true → PrimFloat.is_finite z = false →
  PrimFloat.ltb 0%float (PrimFloat.div y z) = false.
Proof.
  intros Hy Hz.
  destruct (positive_number_cases y Hy) as (m1 & e1 & Ey).
  rewrite FloatAxioms.ltb_spec, FloatAxioms.div_spec, Ey.
  change (Prim2SF 0%float) with (S754_zero false).
  destruct (is_finite_false z Hz) as [-> | [s ->]]; [done|]. by destruct s.
Qed.

(** ** The sign of the signal speed *)

Lemma shr_fexp_nonneg (m e : Z) (l : location) :
  (0 ≤ m)%Z → (0 ≤ shr_m (fst (shr_fexp prec emax m e l)))%Z.
Proof.
  intros Hm. unfold shr_fexp, shr.
  destruct (fexp prec emax (Zdigits2 m + e) - e)%Z as [|k|k]; cbn [fst].
  - by rewrite shr_m_record_of_loc.
  - rewrite iter_pos_shr_1, shr_m_record_of_loc by (by rewrite shr_m_record_of_loc).
    apply Z.div_pos; lia.
  - by rewrite shr_m_record_of_loc.
Qed.

Lemma binary_round_aux_plus (m e : Z) (l : location) :
  (0 ≤ m)%Z → sf_plus (binary_round_aux prec emax false m e l) = true.
Proof.
  intros Hm. unfold binary_round_aux.
  pose proof (shr_fexp_nonneg m e l Hm) as H1.
  destruct (shr_fexp prec emax m e l) as [mrs1 e1]. cbn [fst] in H1.
  set (m2 := round_nearest_even (shr_m mrs1) (loc_of_shr_record mrs1)).
  assert (Hm2 : (0 ≤ m2)%Z).
  { unfold m2, round_nearest_even.
    destruct (loc_of_shr_record mrs1) as [|[]]; try lia.
    destruct (Z.even (shr_m mrs1)); lia. }
  pose proof (shr_fexp_nonneg m2 e1 loc_Exact Hm2) as H3.
  destruct (shr_fexp prec emax m2 e1 loc_Exact) as [mrs2 e2]. cbn [fst] in H3.
  destruct (shr_m mrs2) as [|q|q]; [done | | lia].
  by destruct (e2 <=? emax - prec)%Z.
Qed.

Lemma SFmul_plus (a b : spec_float) (m1 m2 : positive) (e1 e2 : Z) :
  a = S754_finite false m1 e1 → b = S754_finite false m2 e2 →
  sf_plus (SF64mul a b) = true.
Proof.
  intros -> ->. unfold SF64mul, SFmul. cbn [xorb].
  by apply binary_round_aux_plus.
Qed.

Lemma SFdiv_plus (a : spec_float) (m2 : positive) (e2 : Z) :
  sf_plus a = true → sf_plus (SF64div a (S754_finite false m2 e2)) = true.
Proof.
  destruct a as [[]|[]| |[] m1 e1]; try done. intros _.
  unfold SF64div, SFdiv, SFdiv_core_binary. cbn [xorb].
  set (s := (e1 - e2 - _)%Z).
  set (m' := match s with Z.pos _ => Z.shiftl (Z.pos m1) s | 0%Z => Z.pos m1 | Z.neg _ => 0%Z end).
  assert (Hm' : (0 ≤ m')%Z).
  { unfold m'. destruct s; try lia. apply Z.shiftl_nonneg. lia. }
  pose proof (Z.div_eucl_eq m' (Z.pos m2) ltac:(lia)) as Heq.
  pose proof (Z.mod_pos_bound m' (Z.pos m2) ltac:(lia)) as Hr.
  unfold Z.modulo in Hr.
  destruct (Z.div_eucl m' (Z.pos m2)) as [q r].
  apply binary_round_aux_plus. nia.
Qed.

Lemma SFsqrt_plus (a : spec_float) :
  sf_plus a = true → sf_plus (SF64sqrt a) = true.
Proof.
  destruct a as [[]|[]| |[] m1 e1]; try done. intros _.
  unfold SF64sqrt, SFsqrt, SFsqrt_core_binary.
  set (s := (e1 - _)%Z).
  set (m' := match s with Z.pos _ => Z.shiftl (Z.pos m1) s | 0%Z => Z.pos m1 | Z.neg _ => 0%Z end).
  assert (Hm' : (0 ≤ m')%Z).
  { unfold m'. destruct s; try lia. apply Z.shiftl_nonneg. lia. }
  pose proof (Z.sqrtrem_spec m' Hm') as Hs.
  destruct (Z.sqrtrem m') as [q r].
  apply binary_round_aux_plus. lia.
Qed.

Lemma SFabs_plus (a : spec_float) : a ≠ S754_nan → sf_plus (SFabs a) = true.
Proof. by destruct a as [[]|[]| |[] m1 e1]. Qed.

Lemma SFadd_plus (a b : spec_float) :
  sf_plus a = true → sf_plus b = true → sf_plus (SF64add a b) = true.
Proof.
  destruct a as [[]|[]| |[] m1 e1], b as [[]|[]| |[] m2 e2]; try done. intros _ _.
  unfold SF64add, SFadd. cbn [cond_Zopp].
  destruct (shl_align m1 _ _) as [a1 ?], (shl_align m2 _ _) as [a2 ?].
  cbn [fst]. unfold binary_normalize, binary_round.
  change (Z.pos a1 + Z.pos a2)%Z with (Z.pos (a1 + a2)). cbv iota beta.
  match goal with |- context [shl_align ?p ?q ?r] =>
    destruct (shl_align p q r) as [mz ez] end.
  by apply binary_round_aux_plus.
Qed.

Lemma SFmul_nan_r (a : spec_float) : SF64mul a S754_nan = S754_nan.
Proof. by destruct a. Qed.

Lemma SFsub_nan_r (a : spec_float) : SF64sub a S754_nan = S754_nan.
Proof. by destruct a. Qed.

Lemma positive_number_of_plus (y : float) :
  sign_plus y = true →
  Prim2SF y = S754_zero false ∨ Prim2SF y = S754_infinity false
  ∨ positive_number y = true.
Proof.
  unfold sign_plus, positive_number, PrimFloat.is_infinity.
  rewrite FloatAxioms.ltb_spec, FloatAxioms.eqb_spec, FloatAxioms.abs_spec.
  change (Prim2SF 0%float) with (S754_zero false).
  change (Prim2SF infinity) with (S754_infinity false).
  destruct (Prim2SF y) as [[]|[]| |[] m e]; try done; eauto.
Qed.

(** In a cell with positive density and pressure the velocity is not NaN,
    and the signal speed is [+0.0], a positive number or [+inf]. *)
Lemma signal_speed_plus (u : vec3 float) :
  positive_number (vget QRHO (prim u)) = true →
  positive_number (vget QP (prim u)) = true →
  sign_plus (signal_speed (prim u)) = true.
Proof.
  intros Hrho Hp.
  destruct (positive_number_cases _ Hrho) as (mr & er & Er).
  destruct (positive_number_cases _ Hp) as (mp & ep & Ep).
  unfold sign_plus, signal_speed, sound_speed.
  cbn [add sqrt div mul abs float_scalar].
  rewrite FloatAxioms.add_spec, FloatAxioms.abs_spec, FloatAxioms.sqrt_spec,
    FloatAxioms.div_spec, FloatAxioms.mul_spec, Ep, Er.
  apply SFadd_plus.
  - apply SFabs_plus. intros Hnan.
    revert Ep. unfold prim at 1. cbn [vget QP c2 mul sub sqr float_scalar].
    unfold prim in Hnan. cbn [vget QU c1 div float_scalar] in Hnan.
    rewrite !FloatAxioms.mul_spec, FloatAxioms.sub_spec, !FloatAxioms.mul_spec.
    cbn [vget URHO c0 QRHO UMX div float_scalar] in *. rewrite Hnan.
    rewrite !SFmul_nan_r, SFsub_nan_r. by destruct (Prim2SF _).
  - apply SFsqrt_plus, SFdiv_plus.
    eapply SFmul_plus; [|reflexivity]. unfold gamma. vm_compute. reflexivity.
Qed.

Lemma float_max_plus (a b : float) :
  sign_plus a = true → sign_plus b = true → sign_plus (float_max a b) = true.
Proof.
  intros Ha Hb. unfold float_max.
  destruct (PrimFloat.is_nan a); [done|].
  destruct (PrimFloat.is_nan b); [done|].
  by destruct (PrimFloat.ltb a b).
Qed.

Lemma foldl_max_plus (l : list float) (a : float) :
  sign_plus a = true → Forall (λ b, sign_plus b = true) l →
  sign_plus (foldl float_max a l) = true.
Proof.
  revert a. induction l as [|b l IH]; intros a Ha Hl; [done|].
  apply Forall_cons in Hl as [Hb Hl]. cbn [foldl].
  apply IH; [by apply float_max_plus | done].
Qed.

(** With positive density and pressure in every interior cell the maximal
    signal speed is [+0.0], a positive number or [+inf]. *)
Lemma s_max_plus (g : FVGrid float) (U : list (vec3 float)) :
  (ilo g ≤ ihi g)%Z →
  (∀ i, interior g i →
     positive_number (vget QRHO (prim (at_ U i))) = true ∧
     positive_number (vget QP (prim (at_ U i))) = true) →
  sign_plus (s_max g U) = true.
Proof.
  intros Hle Hpos. unfold s_max. cbn [fmax float_scalar].
  apply foldl_max_plus.
  - destruct (Hpos (ilo g)) as [Hr Hp]; [unfold interior; lia|].
    by apply signal_speed_plus.
  - apply Forall_fmap, Forall_forall. intros i Hi.
    unfold zrange in Hi. apply list_elem_of_fmap in Hi as (k & -> & Hk).
    apply elem_of_seq in Hk.
    destruct (Hpos (ilo g + 1 + Z.of_nat k)%Z) as [Hr Hp]; [unfold interior; lia|].
    by apply signal_speed_plus.
Qed.

Lemma sign_plus_not_nan (y : float) : sign_plus y = true → PrimFloat.is_nan y = false.
Proof.
  unfold sign_plus, PrimFloat.is_nan. rewrite FloatAxioms.eqb_spec.
  destruct (Prim2SF y) as [[]|[]| |[] m e]; try done.
  intros _. by rewrite SFeqb_refl.
Qed.

(** A positive number divided by [+0.0], by a positive number that is not
    too large, or by [+inf]. *)
Lemma float_div_plus (y z : float) :
  positive_number y = true → sign_plus z = true →
  (PrimFloat.is_finite z = true → (-1021 ≤ exponent y - exponent z)%Z →
   PrimFloat.ltb 0%float (PrimFloat.div y z) = true) ∧
  (PrimFloat.is_finite z = false → PrimFloat.div y z = 0%float).
Proof.
  intros Hy Hz.
  destruct (positive_number_cases y Hy) as (m1 & e1 & Ey).
  destruct (positive_number_of_plus z Hz) as [E0 | [Einf | Hpos]].
  - split.
    + intros _ _. rewrite FloatAxioms.ltb_spec, FloatAxioms.div_spec, Ey, E0. done.
    + intros Hfin. destruct (is_finite_false z Hfin) as [E | [s E]]; congruence.
  - split.
    + intros Hfin. destruct (is_finite_cases z Hfin) as [[s E] | (s & m & e & E)]; congruence.
    + intros _. apply Prim2SF_inj.
      by rewrite FloatAxioms.div_spec, Ey, Einf.
  - split.
    + intros _ Hexp. by apply float_div_positive.
    + intros Hfin. destruct (positive_number_cases z Hpos) as (m & e & E).
      destruct (is_finite_false z Hfin) as [E' | [s E']]; congruence.
Qed.

(** ** The two masks of the initial conditions *)

Lemma SFcompare_antisym (a b : spec_float) :
  SFcompare b a = CompOpp <$> SFcompare a b.
Proof.
  destruct a as [s1|s1| |s1 m1 e1], b as [s2|s2| |s2 m2 e2];
    try destruct s1; try destruct s2; try reflexivity;
    cbn [SFcompare fmap option_fmap option_map];
    rewrite (Z.compare_antisym e1 e2);
    destruct (e1 ?= e2)%Z; cbn [CompOpp]; try reflexivity;
    change (Pos.compare_cont Eq m2 m1) with (Pos.compare m2 m1);
    change (Pos.compare_cont Eq m1 m2) with (Pos.compare m1 m2);
    rewrite (Pos.compare_antisym m1 m2);
    by destruct (m1 ?= m2)%positive.
Qed.

(** For floats other than NaN, [y >= z] is the negation of [y < z]. *)
Lemma float_masks_complementary y z :
  PrimFloat.is_nan y = false → PrimFloat.is_nan z = false →
  geb y z = negb (ltb y z).
Proof.
  unfold PrimFloat.is_nan. cbn [geb ltb float_driver].
  rewrite !FloatAxioms.eqb_spec, FloatAxioms.leb_spec, FloatAxioms.ltb_spec.
  unfold SFleb, SFltb, SFeqb. rewrite (SFcompare_antisym (Prim2SF y) (Prim2SF z)).
  intros Hy Hz.
  destruct (Prim2SF y) as [s1|s1| |s1 m1 e1], (Prim2SF z) as [s2|s2| |s2 m2 e2];
    try done; clear Hy Hz;
    match goal with
    | |- context [SFcompare ?a ?b] =>
        destruct (SFcompare a b) as [[]|] eqn:E
    end; try done;
    exfalso; clear -E; cbn in E; repeat case_match; congruence.
Qed.

End FloatFacts.

(** * The claims, for every arithmetic *)

Section Claims.
Context {F : Type} `{!Scalar F}.
Variable riemann : vec3 F → vec3 F → F → vec3 F.
Implicit Types (g : FVGrid F) (U q : list (vec3 F)).

(** C3 (as the code has it): the constructor checks nothing.  With [nx = 0]
    it fails, by the division that computes [dx].  A negative [nx], an [ng]
    below two and [xmin ≥ xmax] are not rejected: for [nx] other than zero a
    grid is returned that holds [nx], [ng], [xmin] and [xmax] as they were
    given.  (Stated for [nx] and [ng] up to a million in absolute value, sizes
    at which the arrays of the grid are small, and for an [nx] that can be
    converted to a float, as each of these can.) *)
Theorem FVGrid_init_checks_nothing (n_x n_g : Z) (x0 x1 : F) :
  (-1000000 ≤ n_x ≤ 1000000)%Z → (-1000000 ≤ n_g ≤ 1000000)%Z →
  FVGrid_init 0 n_g x0 x1 = Raise ZeroDivisionError ∧
  (n_x ≠ 0%Z → int_fits n_x = true →
   ∃ g, FVGrid_init n_x n_g x0 x1 = Ok g ∧
        nx g = n_x ∧ ng g = n_g ∧ xmin g = x0 ∧ xmax g = x1).
Proof.
  intros _ _. split; [done|]. intros Hne Hfit.
  destruct (FVGrid_init_returns n_x n_g x0 x1 Hne Hfit) as [g Hg].
  exists g. split; [done|].
  apply FVGrid_init_inv in Hg as (? & ? & _ & _ & ? & ? & _). done.
Qed.

(** C4 (as the code has it): the core has no signal for a non-physical state.
    On a grid with interior cells and two ghost cells, the conversion, the
    flux divergence, the timestep and the loop body return normally for every
    state of ghosted length, whatever values it holds. *)
Theorem core_never_raises (n_x n_g : Z) (x0 x1 : F) g U (dt : F) :
  FVGrid_init n_x n_g x0 x1 = Ok g → (1 ≤ n_x)%Z → (2 ≤ n_g)%Z → ghosted g U →
  cons_to_prim g U = Ok (prim <$> U) ∧
  returns (make_flux_divergence riemann g U) ∧
  returns (timestep g U) ∧
  returns (mol_step riemann g U dt).
Proof.
  intros Hg Hnx Hng HU.
  assert (Hinv : grid_inv g) by (eapply FVGrid_init_grid_inv; [done|lia..]).
  assert (Hg2 : (2 ≤ ng g)%Z).
  { apply FVGrid_init_inv in Hg as (_ & -> & _). done. }
  split; [by apply cons_to_prim_ok|].
  split.
  { destruct (make_flux_divergence_ok riemann g U Hinv Hg2 HU)
      as (? & ? & ? & A & _ & _ & HA & _). by exists A. }
  split.
  { eexists. by apply timestep_ok. }
  destruct (mol_step_ok riemann g U dt Hinv Hg2 HU)
    as (U1 & k1 & Um & k2 & _ & _ & _ & _ & Hstep & _).
  eexists. exact Hstep.
Qed.

(** C5: on a grid with at least two ghost cells the reconstruction computes
    the centered slopes [0.5 (Q[i+1] - Q[i-1])] on [ilo-1 .. ihi+1] and
    returns [Q_left[i] = Q[i-1] + 0.5 slope[i-1]] and
    [Q_right[i] = Q[i] - 0.5 slope[i]] on the interfaces [ilo .. ihi+1], where
    [Q] is the primitive conversion of [U]. *)
Theorem states_reconstruction (n_x n_g : Z) (x0 x1 : F) g U :
  FVGrid_init n_x n_g x0 x1 = Ok g → (1 ≤ n_x)%Z → (2 ≤ n_g)%Z → ghosted g U →
  ∃ Q dq q_l q_r,
    cons_to_prim g U = Ok Q ∧ Q = prim <$> U ∧
    slopes g Q = Ok dq ∧
    states g U = Ok (q_l, q_r) ∧
    length dq = length U ∧ length q_l = length U ∧ length q_r = length U ∧
    (∀ i, (ilo g - 1 ≤ i ≤ ihi g + 1)%Z →
          at_ dq i = vmap (mul lit_0_5) (vzip sub (at_ Q (i + 1)) (at_ Q (i - 1)))) ∧
    (∀ i, (ilo g ≤ i ≤ ihi g + 1)%Z →
          at_ q_l i = vzip add (at_ Q (i - 1)) (vmap (mul lit_0_5) (at_ dq (i - 1))) ∧
          at_ q_r i = vzip sub (at_ Q i) (vmap (mul lit_0_5) (at_ dq i))).
Proof.
  intros Hg Hnx Hng HU.
  assert (Hinv : grid_inv g) by (eapply FVGrid_init_grid_inv; [done|lia..]).
  assert (Hg2 : (2 ≤ ng g)%Z).
  { apply FVGrid_init_inv in Hg as (_ & -> & _). done. }
  assert (HQ : ghosted g (prim <$> U)) by (unfold ghosted; by rewrite length_fmap).
  destruct (slopes_ok g (prim <$> U) Hinv Hg2 HQ) as (dq & Hdq & Hld & Hslope & _).
  destruct (states_ok g U Hinv Hg2 HU) as (q_l & q_r & Hst & Hll & Hlr' & Hlr & _).
  rewrite length_fmap in Hld.
  exists (prim <$> U), dq, q_l, q_r.
  split; [by apply cons_to_prim_ok|]. split; [done|].
  split; [done|]. split; [done|].
  split; [done|]. split; [done|]. split; [done|].
  split; [exact Hslope|].
  intros i Hi. destruct (Hlr i Hi) as [Hl Hr].
  rewrite Hl, Hr. unfold Q_left, Q_right.
  rewrite !Hslope by lia. done.
Qed.

(** C6: the flux divergence calls the Riemann solver once per interface
    [ilo .. ihi+1], in order, on the reconstructed pair of that interface, and
    returns [(flux[i] - flux[i+1]) / dx] in the interior cells and zero in the
    other cells. *)
Theorem make_flux_divergence_spec (n_x n_g : Z) (x0 x1 : F) g U :
  FVGrid_init n_x n_g x0 x1 = Ok g → (1 ≤ n_x)%Z → (2 ≤ n_g)%Z → ghosted g U →
  ∃ q_l q_r flux calls RHS,
    states g U = Ok (q_l, q_r) ∧
    interface_flux riemann g U = Ok (flux, calls) ∧
    make_flux_divergence riemann g U = Ok RHS ∧
    length flux = length U ∧ length RHS = length U ∧
    calls = (λ i, (at_ q_l i, at_ q_r i)) <$> zrange (ilo g) (ihi g + 2) ∧
    length calls = Z.to_nat (n_x + 1) ∧
    (∀ i, (ilo g ≤ i ≤ ihi g + 1)%Z →
          at_ flux i = riemann (at_ q_l i) (at_ q_r i) gamma) ∧
    (∀ i, (ilo g ≤ i ≤ ihi g)%Z →
          at_ RHS i = vmap (λ v, div v (dx g)) (vzip sub (at_ flux i) (at_ flux (i + 1)))) ∧
    (∀ i, (0 ≤ i < ilo g ∨ ihi g < i < Z.of_nat (length U))%Z →
          at_ RHS i = V3 zero zero zero).
Proof.
  intros Hg Hnx Hng HU.
  assert (Hinv : grid_inv g) by (eapply FVGrid_init_grid_inv; [done|lia..]).
  pose proof (FVGrid_init_inv _ _ _ _ _ Hg) as (Hgnx & Hgng & Hilo & Hihi & _).
  assert (Hg2 : (2 ≤ ng g)%Z) by lia.
  destruct (make_flux_divergence_ok riemann g U Hinv Hg2 HU)
    as (q_l & q_r & flux & A & Hst & Hif & HA & Hlf & HlA & _ & Hfl & HAin & HAout).
  eexists q_l, q_r, flux, _, A.
  split; [done|]. split; [done|]. split; [done|].
  split; [done|]. split; [done|]. split; [done|].
  split; [rewrite length_fmap, length_zrange; lia|].
  split; [done|].
  split; [intros i Hi; by apply HAin|].
  intros i Hi. apply HAout. lia.
Qed.

(** C7: the timestep is [C dx / s_max], with [s_max] the largest
    [|u| + sqrt(gamma p / rho)] of the interior cells of the primitive
    conversion of [U]. *)
Theorem timestep_formula (n_x n_g : Z) (x0 x1 : F) g U :
  FVGrid_init n_x n_g x0 x1 = Ok g → (1 ≤ n_x)%Z → (0 ≤ n_g)%Z → ghosted g U →
  timestep g U = Ok (div (mul C (dx g)) (s_max g U)).
Proof.
  intros Hg Hnx Hng HU.
  apply timestep_ok; [|done]. eapply FVGrid_init_grid_inv; done.
Qed.

(** C10: [fill_BCs] changes ghost entries only.  For an array of ghosted
    length, one number per cell or a vector per cell, it returns an array of
    the same length whose entries at [ilo .. ihi] are the ones it was given. *)
Theorem fill_BCs_keeps_interior {T : Type} `{!Cell F T} (n_x n_g : Z) (x0 x1 : F) g
    (atmp : list T) :
  FVGrid_init n_x n_g x0 x1 = Ok g → (1 ≤ n_x)%Z → (0 ≤ n_g)%Z → ghosted g atmp →
  ∃ atmp', fill_BCs g atmp = Ok atmp' ∧ length atmp' = length atmp ∧
    ∀ i, (ilo g ≤ i ≤ ihi g)%Z → atmp' !! Z.to_nat i = atmp !! Z.to_nat i.
Proof.
  intros Hg Hnx Hng Ha.
  assert (Hinv : grid_inv g) by (eapply FVGrid_init_grid_inv; done).
  destruct (fill_BCs_frame g atmp Hinv Ha) as (a' & Hfill & Hlen & Hframe).
  exists a'. split; [done|]. split; [done|].
  intros i Hi. apply Hframe. destruct Hinv as (? & ? & ? & ?). lia.
Qed.

(** C1 (as the code has it): the loop body of [mol_solve] returns, and it is
    the step as it is described except for the last stage: the final update
    adds [dt k2] in every cell, ghost cells included ([k2] is zero there, by
    C6), and [k1] enters through [U_mid] only.  This is the update of the
    interior cells only whenever adding [dt] times zero leaves the two
    boundary cells' values, which the ghost cells hold, as they are. *)
Theorem mol_step_is_full_step (n_x n_g : Z) (x0 x1 : F) g U (dt : F) :
  FVGrid_init n_x n_g x0 x1 = Ok g → (1 ≤ n_x)%Z → (2 ≤ n_g)%Z → ghosted g U →
  returns (mol_step riemann g U dt) ∧
  mol_step riemann g U dt = full_step riemann g U dt ∧
  (axpy dt (at_ U (ilo g)) (V3 zero zero zero) = at_ U (ilo g) →
   axpy dt (at_ U (ihi g)) (V3 zero zero zero) = at_ U (ihi g) →
   mol_step riemann g U dt = spec_step riemann g U dt).
Proof.
  intros Hg Hnx Hng HU.
  assert (Hinv : grid_inv g) by (eapply FVGrid_init_grid_inv; [done|lia..]).
  pose proof (FVGrid_init_inv _ _ _ _ _ Hg) as (Hgnx & Hgng & Hilo & Hihi & _).
  assert (Hg2 : (2 ≤ ng g)%Z) by lia.
  destruct (mol_step_ok riemann g U dt Hinv Hg2 HU)
    as (U1 & k1 & Um & k2 & HU1 & Hk1 & HUm & Hk2 & Hstep & Hl1 & Hlk1 & Hlm & Hlk2).
  assert (Hgm : ghosted g Um) by (unfold ghosted in *; congruence).
  destruct (make_flux_divergence_ok riemann g Um Hinv Hg2 Hgm)
    as (q_l & q_r & flux & A & _ & _ & HA & _ & _ & _ & _ & _ & HAout).
  assert (A = k2) as -> by congruence.
  destruct (fill_BCs_vector_at g U Hinv HU) as (W & HW & HlW & HvW).
  assert (W = U1) as -> by congruence.
  split; [by eexists|]. split.
  - rewrite Hstep. symmetry. unfold full_step.
    eapply bind_step; [exact HU1|].
    eapply bind_step; [exact Hk1|].
    eapply bind_step; [exact HUm|].
    eapply bind_step; [exact Hk2|]. done.
  - intros Hlo Hhi. rewrite Hstep. symmetry. unfold spec_step.
    eapply bind_step; [exact HU1|].
    eapply bind_step; [exact Hk1|].
    eapply bind_step; [exact HUm|].
    eapply bind_step; [exact Hk2|].
    f_equal. apply list_eq. intros j.
    rewrite list_lookup_imap, lookup_zip_with.
    destruct (U1 !! j) as [u|] eqn:Hu; [|done].
    apply lookup_lt_Some in Hu as Hj.
    rewrite (list_lookup_lookup_total_lt k2 j) by lia.
    cbv [fmap option_fmap option_map mbind option_bind].
    case_decide as Hint; [done|].
    f_equal. fold (at_ k2 (Z.of_nat j)) in *.
    replace j with (Z.to_nat (Z.of_nat j)) at 1 by lia.
    fold (at_ k2 (Z.of_nat j)).
    rewrite HAout by (unfold ghosted in HU; lia).
    assert (Hu' : u = U1 !!! j) by (by rewrite list_lookup_total_alt, Hu).
    rewrite Hu', HvW by lia.
    repeat case_decide; (done || lia).
Qed.

End Claims.

(** * The claims that are about binary64 *)

Section FloatClaims.
Implicit Types (g : FVGrid float) (U q : list (vec3 float)).

Lemma at_prim_uniform {F : Type} `{!Scalar F} (u0 : vec3 F) (U : list (vec3 F)) (i : Z) :
  Forall (eq u0) U → (0 ≤ i < Z.of_nat (length U))%Z →
  at_ (prim <$> U) i = prim u0.
Proof.
  intros Hu Hi. unfold at_. erewrite fmap_at by lia. f_equal.
  symmetry. eapply (Forall_lookup_1 _ _ (Z.to_nat i) _ Hu).
  apply list_lookup_lookup_total_lt. lia.
Qed.

(** C9 (as the code has it): for a spatially uniform state whose primitive
    values are finite numbers, every slope is zero, the right state of every
    interface [ilo .. ihi+1] is the primitive state, and the left state is the
    primitive state plus [0.0], which is the same number in each component
    (a component [-0.0] comes out as [0.0]). *)
Theorem uniform_state_reconstruction (n_x n_g : Z) (x0 x1 : float) g
    (u0 : vec3 float) U :
  FVGrid_init n_x n_g x0 x1 = Ok g → (1 ≤ n_x)%Z → (2 ≤ n_g)%Z → ghosted g U →
  Forall (eq u0) U → finite3 (prim u0) = true →
  ∃ dq q_l q_r,
    slopes g (prim <$> U) = Ok dq ∧
    states g U = Ok (q_l, q_r) ∧
    length dq = length U ∧ length q_l = length U ∧ length q_r = length U ∧
    (∀ i, (0 ≤ i < Z.of_nat (length U))%Z → at_ dq i = V3 zero zero zero) ∧
    (∀ i, (ilo g ≤ i ≤ ihi g + 1)%Z →
          at_ q_l i = vzip add (prim u0) (V3 zero zero zero) ∧
          same3 (at_ q_l i) (prim u0) = true ∧
          at_ q_r i = prim u0).
Proof.
  intros Hg Hnx Hng HU Huni Hfin.
  assert (Hinv : grid_inv g) by (eapply FVGrid_init_grid_inv; [done|lia..]).
  pose proof (FVGrid_init_inv _ _ _ _ _ Hg) as (Hgnx & Hgng & Hilo & Hihi & _).
  assert (Hg2 : (2 ≤ ng g)%Z) by lia.
  assert (HQ : ghosted g (prim <$> U)) by (unfold ghosted; by rewrite length_fmap).
  destruct (slopes_ok g (prim <$> U) Hinv Hg2 HQ) as (dq & Hdq & Hld & Hin & Hout).
  destruct (states_ok g U Hinv Hg2 HU) as (q_l & q_r & Hst & Hll & Hlr' & Hlr & _).
  rewrite length_fmap in Hld. unfold ghosted in HU.
  assert (Hslope : ∀ j, (ilo g - 1 ≤ j ≤ ihi g + 1)%Z →
                        slope (prim <$> U) j = V3 zero zero zero).
  { intros j Hj. unfold slope.
    rewrite !(at_prim_uniform u0) by (done || lia).
    by apply float_slope_zero. }
  destruct (float_plus_half_zero (prim u0) Hfin) as [Hplus Hsame].
  exists dq, q_l, q_r. split; [done|]. split; [done|].
  split; [done|]. split; [done|]. split; [done|]. split.
  - intros i Hi.
    destruct (decide (ilo g - 1 ≤ i ≤ ihi g + 1)%Z) as [Hmid|Hmid].
    + rewrite Hin by done. by apply Hslope.
    + rewrite Hout by lia. reflexivity.
  - intros i Hi. destruct (Hlr i Hi) as [-> ->].
    unfold Q_left, Q_right. rewrite !Hslope by lia.
    rewrite !(at_prim_uniform u0) by (done || lia).
    rewrite Hplus, Hsame, float_minus_half_zero by done. done.
Qed.

(** C8 (as the code has it): whether the timestep is positive is decided by
    the maximal signal speed [s_max] over all interior cells, not by one
    cell.  With [C dx] a positive finite number, the timestep is positive
    when [s_max] is a positive finite number and the quotient is not below
    the range of the floats (the binary exponents of [C dx] and [s_max]
    differ by at most 1021); it is not positive when [s_max] is NaN or
    infinite.  With positive density and pressure in every interior cell
    [s_max] is not NaN; the timestep is then positive unless [s_max] has
    overflowed, which gives the timestep [0.0], or the quotient
    underflows. *)
Theorem timestep_positive (n_x n_g : Z) (x0 x1 : float) g U :
  FVGrid_init n_x n_g x0 x1 = Ok g → (1 ≤ n_x)%Z → (0 ≤ n_g)%Z → ghosted g U →
  positive_number (mul C (dx g)) = true →
  ∃ dt, timestep g U = Ok dt ∧
    (positive_number (s_max g U) = true →
     (-1021 ≤ exponent (mul C (dx g)) - exponent (s_max g U))%Z →
     PrimFloat.ltb 0%float dt = true) ∧
    (PrimFloat.is_finite (s_max g U) = false → PrimFloat.ltb 0%float dt = false) ∧
    ((∀ i, interior g i →
        positive_number (vget QRHO (prim (at_ U i))) = true ∧
        positive_number (vget QP (prim (at_ U i))) = true) →
     PrimFloat.is_nan (s_max g U) = false ∧
     (PrimFloat.is_finite (s_max g U) = true →
      (-1021 ≤ exponent (mul C (dx g)) - exponent (s_max g U))%Z →
      PrimFloat.ltb 0%float dt = true) ∧
     (PrimFloat.is_finite (s_max g U) = false → dt = 0%float)).
Proof.
  intros Hg Hnx Hng HU Hn.
  assert (Hinv : grid_inv g) by (eapply FVGrid_init_grid_inv; done).
  eexists. split; [by apply timestep_ok|]. split; [|split].
  - intros Hs Hexp. by apply float_div_positive.
  - intros Hs. by apply float_div_not_number.
  - intros Hpos.
    assert (Hplus : sign_plus (s_max g U) = true).
    { apply s_max_plus; [|done]. destruct Hinv as (-> & -> & ? & ?). lia. }
    split; [by apply sign_plus_not_nan|].
    by apply float_div_plus.
Qed.

End FloatClaims.

(** * The claim that rests on exact arithmetic *)

Section RealFacts.
Variable riemann : vec3 R → vec3 R → R → vec3 R.
Implicit Types (g : FVGrid R) (U q : list (vec3 R)).

Ltac real_ops :=
  unfold zero, gamma, C, sqr in *;
  cbn [add sub mul div of_Z lit_0_5 lit_1_0 lit_1_4 lit_0_8 sqrt abs fmax
       real_scalar] in *.

Lemma vget_axpy (n : nat) (c : R) (u k : vec3 R) :
  vget n (axpy c u k) = (vget n u + c * vget n k)%R.
Proof. destruct n as [|[|n]]; reflexivity. Qed.

Lemma axpy_zero (c : R) (u : vec3 R) : axpy c u (V3 zero zero zero) = u.
Proof.
  destruct u as [a b d]. unfold axpy, vzip. cbn [c0 c1 c2]. real_ops.
  f_equal; lra.
Qed.

Lemma vget_rhs_cell g (flux : list (vec3 R)) (i : Z) (n : nat) :
  vget n (rhs_cell g flux i)
  = ((vget n (at_ flux i) - vget n (at_ flux (i + 1))) / dx g)%R.
Proof. destruct n as [|[|n]]; reflexivity. Qed.

Lemma sumZ_nil (f : Z → R) lo hi : (hi ≤ lo)%Z → sumZ f lo hi = 0%R.
Proof. intros. unfold sumZ. by rewrite zrange_nil. Qed.

Lemma sumZ_snoc (f : Z → R) lo hi :
  (lo ≤ hi)%Z → sumZ f lo (hi + 1) = (sumZ f lo hi + f hi)%R.
Proof.
  intros. unfold sumZ. rewrite zrange_snoc by done.
  rewrite fmap_app, foldr_app. cbn [fmap list_fmap foldr].
  generalize (f <$> zrange lo hi). intros l.
  induction l as [|y l IH]; cbn [foldr]; real_ops; [lra|]. rewrite IH. lra.
Qed.

Lemma sumZ_telescope (a b : Z → R) (c d : R) (lo : Z) (k : nat) :
  (sumZ (λ i, a i + c * ((b i - b (i + 1)%Z) / d)) lo (lo + Z.of_nat k)
   - sumZ a lo (lo + Z.of_nat k)
   = (b lo - b (lo + Z.of_nat k)%Z) * c / d)%R.
Proof.
  induction k as [|k IH].
  - rewrite !sumZ_nil by lia. replace (lo + Z.of_nat 0)%Z with lo by lia.
    unfold Rdiv. ring.
  - replace (lo + Z.of_nat (S k))%Z with (lo + Z.of_nat k + 1)%Z by lia.
    rewrite !sumZ_snoc by lia.
    replace (sumZ (λ i, a i + c * ((b i - b (i + 1)%Z) / d))%R lo (lo + Z.of_nat k))
      with (sumZ a lo (lo + Z.of_nat k) + (b lo - b (lo + Z.of_nat k)%Z) * c / d)%R
      by (rewrite <- IH; ring).
    unfold Rdiv. ring.
Qed.

Lemma sumZ_ext (f f' : Z → R) lo hi :
  (∀ i, (lo ≤ i < hi)%Z → f i = f' i) → sumZ f lo hi = sumZ f' lo hi.
Proof.
  intros Hff. unfold sumZ. f_equal. unfold zrange.
  rewrite <- !list_fmap_compose. apply list_fmap_ext.
  intros j k Hk. apply lookup_seq in Hk as [-> Hk]. simpl. apply Hff. lia.
Qed.

Lemma lookup_total_eq {T : Type} `{!Inhabited T} (a b : list T) (j : nat) :
  a !! j = b !! j → a !!! j = b !!! j.
Proof. intros Hab. by rewrite !list_lookup_total_alt, Hab. Qed.

(** C2 (as the code has it): in exact arithmetic, over one step the interior
    sum of every conserved component changes by
    [(flux[ilo] - flux[ihi+1]) dt / dx], with [flux] the interface fluxes of
    the second flux-divergence evaluation, the one of the final update.  The
    provisos keep the step from dividing by zero: [xmin] differs from [xmax],
    and the density is not zero in the interior cells of the state and of
    the intermediate state.  The telescoping of the sum does not use them. *)
Theorem mol_step_conservation (n_x n_g : Z) (x0 x1 : R) g U (dt : R) :
  FVGrid_init n_x n_g x0 x1 = Ok g → (1 ≤ n_x)%Z → (2 ≤ n_g)%Z → ghosted g U →
  x0 ≠ x1 →
  (∀ i, interior g i → vget URHO (at_ U i) ≠ 0%R) →
  (∀ U1 k1, fill_BCs g U = Ok U1 → make_flux_divergence riemann g U1 = Ok k1 →
     ∀ i, interior g i →
       vget URHO (axpy (mul lit_0_5 dt) (at_ U1 i) (at_ k1 i)) ≠ 0%R) →
  ∃ U1 k1 U_mid flux calls U',
    fill_BCs g U = Ok U1 ∧
    make_flux_divergence riemann g U1 = Ok k1 ∧
    fill_BCs g (zip_with (axpy (mul lit_0_5 dt)) U1 k1) = Ok U_mid ∧
    interface_flux riemann g U_mid = Ok (flux, calls) ∧
    mol_step riemann g U dt = Ok U' ∧
    length flux = length U ∧ length U' = length U ∧
    ∀ n, (interior_sum g n U' - interior_sum g n U
          = (vget n (at_ flux (ilo g)) - vget n (at_ flux (ihi g + 1)))
            * dt / dx g)%R.
Proof.
  intros Hg Hnx Hng HU _ _ _.
  assert (Hinv : grid_inv g) by (eapply FVGrid_init_grid_inv; [done|lia..]).
  pose proof (FVGrid_init_inv _ _ _ _ _ Hg) as (Hgnx & Hgng & Hilo & Hihi & _).
  assert (Hg2 : (2 ≤ ng g)%Z) by lia.
  destruct (mol_step_ok riemann g U dt Hinv Hg2 HU)
    as (U1 & k1 & Um & k2 & HU1 & Hk1 & HUm & Hk2 & Hstep & Hl1 & Hlk1 & Hlm & Hlk2).
  assert (Hgm : ghosted g Um) by (unfold ghosted in *; congruence).
  destruct (make_flux_divergence_ok riemann g Um Hinv Hg2 Hgm)
    as (q_l & q_r & flux & A & _ & Hif & HA & Hlf & _ & _ & _ & HAin & _).
  assert (A = k2) as -> by congruence.
  destruct (fill_BCs_frame g U Hinv HU) as (U1' & HU1' & _ & Hframe).
  assert (U1' = U1) as -> by congruence.
  eexists U1, k1, Um, flux, _, _.
  split; [done|]. split; [done|]. split; [exact HUm|]. split; [exact Hif|].
  split; [exact Hstep|].
  split; [congruence|]. split; [rewrite length_zip_with; lia|].
  intros n. unfold interior_sum.
  unfold ghosted in HU.
  rewrite (sumZ_ext _ (λ i, vget n (at_ U i)
             + dt * ((vget n (at_ flux i) - vget n (at_ flux (i + 1))) / dx g))%R).
  - replace (ihi g + 1)%Z with (ilo g + Z.of_nat (Z.to_nat n_x))%Z by lia.
    apply sumZ_telescope.
  - intros i Hi. unfold at_ at 1.
    erewrite zip_at by lia.
    rewrite vget_axpy. fold (at_ U1 i). fold (at_ k2 i).
    rewrite HAin by (unfold interior; lia). rewrite vget_rhs_cell.
    unfold at_ at 1. rewrite (lookup_total_eq U1 U) by (apply Hframe; lia).
    reflexivity.
Qed.


Lemma foldl_Rmax_ge (y : R) (l : list R) : (y <= foldl Rmax y l)%R.
Proof.
  revert y. induction l as [|z l IH]; intros y; cbn [foldl]; [lra|].
  eapply Rle_trans; [apply (Rmax_l y z) | apply IH].
Qed.

Lemma foldl_Rmax_upper (y : R) (l : list R) (z : R) :
  z ∈ l → (z <= foldl Rmax y l)%R.
Proof.
  revert y. induction l as [|w l IH]; intros y Hz; [by apply elem_of_nil in Hz|].
  apply elem_of_cons in Hz as [->|Hz]; cbn [foldl].
  - eapply Rle_trans; [apply (Rmax_r y w) | apply foldl_Rmax_ge].
  - by apply IH.
Qed.

Lemma foldl_Rmax_attained (y : R) (l : list R) :
  foldl Rmax y l = y ∨ foldl Rmax y l ∈ l.
Proof.
  revert y. induction l as [|w l IH]; intros y; cbn [foldl]; [by left|].
  destruct (IH (Rmax y w)) as [Heq|Hin].
  - rewrite Heq. unfold Rmax. destruct (Rle_dec y w); [right; left | by left].
  - right. by right.
Qed.

(** In exact arithmetic [s_max] is the maximum of the signal speeds of the
    interior cells: an upper bound that one of them attains. *)
Lemma s_max_is_maximum g U :
  grid_inv g →
  (∀ i, (ilo g ≤ i ≤ ihi g)%Z → (signal_speed (prim (at_ U i)) <= s_max g U)%R) ∧
  (∃ i, (ilo g ≤ i ≤ ihi g)%Z ∧ s_max g U = signal_speed (prim (at_ U i))).
Proof.
  intros (Hilo & Hihi & Hnx & Hng). unfold s_max. cbv [fmax real_scalar]. split.
  - intros i Hi. destruct (decide (i = ilo g)) as [->|Hne].
    + apply foldl_Rmax_ge.
    + apply foldl_Rmax_upper. apply list_elem_of_fmap. exists i. split; [done|].
      unfold zrange. apply list_elem_of_fmap. exists (Z.to_nat (i - (ilo g + 1))).
      split; [lia|]. apply elem_of_seq. lia.
  - destruct (foldl_Rmax_attained (signal_speed (prim (at_ U (ilo g))))
               ((λ i, signal_speed (prim (at_ U i))) <$> zrange (ilo g + 1) (ihi g + 1)))
      as [Heq|Hin].
    + exists (ilo g). split; [lia | done].
    + apply list_elem_of_fmap in Hin as (i & Hi & Hin). exists i. split; [|done].
      unfold zrange in Hin. apply list_elem_of_fmap in Hin as (k & -> & Hk).
      apply elem_of_seq in Hk. lia.
Qed.

End RealFacts.

(** * The claims at concrete inputs *)

(** Evaluates the indices of the lookups in a goal. *)
Ltac eval_idx :=
  unfold at_;
  repeat match goal with
    | |- context [Z.to_nat ?z] =>
        let n := eval vm_compute in (Z.to_nat z) in
        progress change (Z.to_nat z) with n
    end.

(** The embedding evaluates to the first timestep that the notebook prints
    for 128 cells, [0.005282214092053229], and to the largest entry of the
    initial state that it prints, [2.5000000000000004]. *)
Example first_timestep_of_the_notebook :
  (g ← FVGrid_init 128 2 0%float 1%float; timestep g (sod_initial g))
  = Ok 0x1.5a2cd8c69d61bp-8%float ∧
  (g ← FVGrid_init 128 2 0%float 1%float;
   Ok (vget UENER (at_ (sod_initial g) 2))) = Ok 0x1.4000000000001p+1%float.
Proof. split; vm_compute; reflexivity. Qed.

(** In binary64, on Sod's state: the loop body and the described step return
    the same array, bit for bit, *)
Example loop_body_is_described_step_binary64 :
  (g ← FVGrid_init 4 2 0%float 1%float; mol_step sample_riemann g sod_state 0.125%float)
  = (g ← FVGrid_init 4 2 0%float 1%float; spec_step sample_riemann g sod_state 0.125%float).
Proof. vm_compute. reflexivity. Qed.

(** and the reconstruction of a uniform state returns the uniform primitive
    state on every interface, with zero slopes. *)
Example uniform_reconstruction_binary64 :
  let U := replicate 8 (V3 1 0.5 2.5)%float in
  (g ← FVGrid_init 4 2 0%float 1%float;
   dq ← slopes g (prim <$> U);
   '(q_l, q_r) ← states g U;
   Ok (dq, slice q_l (Some 2%Z) (Some 7%Z), slice q_r (Some 2%Z) (Some 7%Z)))
  = Ok (replicate 8 (V3 0 0 0)%float,
        replicate 5 (prim (V3 1 0.5 2.5)%float),
        replicate 5 (prim (V3 1 0.5 2.5)%float)).
Proof. vm_compute. reflexivity. Qed.

(** With one ghost cell the grid is constructed, and the reconstruction then
    raises: its stencil reaches two cells beyond the interior. *)
Example one_ghost_cell_raises_in_states :
  (g ← FVGrid_init 4 1 0%float 1%float; states g (take 6 sod_state))
  = Raise ValueError.
Proof. vm_compute. reflexivity. Qed.

(** A uniform state with the velocity [-0.0]: the left state has the velocity
    [0.0], the same number with the other sign bit; the right state has
    [-0.0]. *)
Example negative_zero_left_state :
  let u0 := (V3 1 neg_zero 2.5)%float in
  (g ← FVGrid_init 4 2 0%float 1%float;
   '(q_l, q_r) ← states g (replicate 8 u0);
   Ok (vget QU (prim u0), vget QU (at_ q_l 2), vget QU (at_ q_r 2),
       same3 (at_ q_l 2) (prim u0)))
  = Ok (neg_zero, 0%float, neg_zero, true).
Proof. vm_compute. reflexivity. Qed.

(** The conversion of a Python int: [2^53 + 1] is rounded to the even
    neighbour, [2^63] is exact, and an int beyond the largest float makes the
    constructor raise an OverflowError. *)
Example int_to_float_conversion :
  float_of_Z (2 ^ 53 + 1) = 0x1p+53%float ∧
  float_div_int 1%float (2 ^ 63) = Ok 0x1p-63%float ∧
  FVGrid_init (10 ^ 400) 2 0%float 1%float = Raise OverflowError ∧
  FVGrid_init (- 10 ^ 400) 2 0%float 1%float = Raise OverflowError.
Proof. repeat split; vm_compute; reflexivity. Qed.

(** C1, counterexample: with [dt = nan], a value that [timestep] can
    return, the loop body leaves NaN in the ghost cell 0, where the update of
    the interior cells only keeps the value that [fill_BCs] wrote. *)
Lemma final_update_reaches_ghost_cells :
  (g ← FVGrid_init 4 2 0%float 1%float;
   U ← mol_step sample_riemann g sod_state nan;
   Ok (PrimFloat.is_nan (vget URHO (at_ U 0)))) = Ok true ∧
  (g ← FVGrid_init 4 2 0%float 1%float;
   U ← spec_step sample_riemann g sod_state nan;
   Ok (at_ U 0)) = Ok (V3 1 0 2.5)%float ∧
  (g ← FVGrid_init 4 2 0%float 1%float; mol_step sample_riemann g sod_state nan)
  ≠ (g ← FVGrid_init 4 2 0%float 1%float; spec_step sample_riemann g sod_state nan).
Proof.
  split; [vm_compute; reflexivity|]. split; [vm_compute; reflexivity|].
  vm_compute. discriminate.
Qed.

(** C2, counterexample: in binary64, on Sod's state with two interior cells
    and [dt = 0.125], the change of the interior sum differs from the
    boundary flux imbalance in every component; for the density the sum
    does not change at all. *)
Lemma conservation_is_rounded :
  (g ← FVGrid_init 2 2 0%float 1%float;
   U1 ← fill_BCs g sod_pair;
   k1 ← make_flux_divergence sample_riemann g U1;
   U_mid ← fill_BCs g (zip_with (axpy (mul lit_0_5 0.125%float)) U1 k1);
   '(flux, _) ← interface_flux sample_riemann g U_mid;
   U' ← mol_step sample_riemann g sod_pair 0.125%float;
   Ok ((λ n, (sub (interior_sum g n U') (interior_sum g n sod_pair),
              div (mul (sub (vget n (at_ flux (ilo g))) (vget n (at_ flux (ihi g + 1))))
                       0.125%float) (dx g)))
         <$> [URHO; UMX; UENER]))
  = Ok [(0, 0x1.4p-57); (0x1.23dbd1ffffffep-2, 0x1.23dbd1fffffffp-2);
        (0x1.52cf772p-6, 0x1.52cf772000007p-6)]%float.
Proof. vm_compute. reflexivity. Qed.

(** C9, counterexample: the state of zero density is uniform; its slopes and
    its interface states are NaN in two components. *)
Lemma zero_state_reconstruction :
  (g ← FVGrid_init 4 2 0%float 1%float;
   dq ← slopes g (prim <$> vacuum_state);
   '(q_l, q_r) ← states g vacuum_state;
   Ok (PrimFloat.is_nan (vget QU (at_ dq 2)),
       same3 (at_ q_l 2) (prim (V3 0 0 0)%float),
       same3 (at_ q_r 2) (prim (V3 0 0 0)%float)))
  = Ok (true, false, false).
Proof. vm_compute. reflexivity. Qed.

(** C3, counterexample: a grid with one ghost cell, a grid with a negative
    number of cells and a grid with [xmin ≥ xmax] are all constructed. *)
Lemma FVGrid_init_accepts_invalid :
  (∃ g, FVGrid_init 4 1 0%float 1%float = Ok g ∧ ng g = 1%Z) ∧
  (∃ g, FVGrid_init (-4) 2 0%float 1%float = Ok g ∧ nx g = (-4)%Z) ∧
  (∃ g, FVGrid_init 4 2 1%float 0%float = Ok g
        ∧ PrimFloat.leb (xmax g) (xmin g) = true).
Proof. repeat split; eexists; (split; [reflexivity | vm_compute; reflexivity]). Qed.

(** C4, counterexample: with zero density everywhere the conversion, the flux
    divergence and the loop body (with the stand-in solver) return normally
    and hand NaN to the caller; so does the timestep for a state with a
    negative pressure. *)
Lemma nonphysical_state_passes_silently :
  (g ← FVGrid_init 4 2 0%float 1%float;
   q ← cons_to_prim g vacuum_state;
   Ok (PrimFloat.is_nan (vget QU (at_ q 2)))) = Ok true ∧
  (g ← FVGrid_init 4 2 0%float 1%float;
   A ← make_flux_divergence sample_riemann g vacuum_state;
   Ok (PrimFloat.is_nan (vget UMX (at_ A 2)))) = Ok true ∧
  (g ← FVGrid_init 4 2 0%float 1%float;
   U ← mol_step sample_riemann g vacuum_state 0.125%float;
   Ok (PrimFloat.is_nan (vget UMX (at_ U 2)))) = Ok true ∧
  (g ← FVGrid_init 4 2 0%float 1%float;
   dt ← timestep g mixed_state;
   Ok (PrimFloat.ltb (vget QP (prim (at_ mixed_state 3))) 0, PrimFloat.is_nan dt))
  = Ok (true, true).
Proof. repeat split; vm_compute; reflexivity. Qed.

(** C8, counterexample: density and pressure are positive in the interior
    cell 2, the pressure is negative in the interior cell 3, and the timestep
    is NaN, which is not positive.  With positive density and pressure in
    every cell and a sound speed that overflows, the timestep is [0.0]; and
    so it is on a grid of width [2^-1000] for a state with positive density
    and pressure in every cell and a finite sound speed of about [2^500]. *)
Lemma timestep_not_positive :
  (g ← FVGrid_init 4 2 0%float 1%float;
   dt ← timestep g mixed_state;
   Ok (PrimFloat.ltb 0 (vget QRHO (prim (at_ mixed_state 2))),
       PrimFloat.ltb 0 (vget QP (prim (at_ mixed_state 2))),
       PrimFloat.ltb 0 dt))
  = Ok (true, true, false) ∧
  (g ← FVGrid_init 4 2 0%float 1%float;
   dt ← timestep g stiff_state;
   Ok (positive_number (vget QRHO (prim (at_ stiff_state 2))),
       positive_number (vget QP (prim (at_ stiff_state 2))),
       PrimFloat.is_finite (s_max g stiff_state),
       dt))
  = Ok (true, true, false, 0%float) ∧
  (g ← FVGrid_init 4 2 0%float 0x1p-1000%float;
   dt ← timestep g fast_state;
   Ok (positive_number (vget QRHO (prim (at_ fast_state 2))),
       positive_number (vget QP (prim (at_ fast_state 2))),
       positive_number (mul C (dx g)),
       PrimFloat.is_finite (s_max g fast_state),
       (exponent (mul C (dx g)) - exponent (s_max g fast_state))%Z,
       dt))
  = Ok (true, true, true, true, (-1503)%Z, 0%float).
Proof. repeat split; vm_compute; reflexivity. Qed.

(** C4, witness: the vacuum state on four interior and two ghost cells. *)
Lemma core_never_raises_witness :
  ∃ g, FVGrid_init 4 2 0%float 1%float = Ok g ∧ ghosted g vacuum_state ∧
    cons_to_prim g vacuum_state = Ok (prim <$> vacuum_state) ∧
    returns (make_flux_divergence sample_riemann g vacuum_state) ∧
    returns (timestep g vacuum_state) ∧
    returns (mol_step sample_riemann g vacuum_state 0.125%float).
Proof.
  eexists. split; [reflexivity|]. split; [reflexivity|].
  apply (core_never_raises sample_riemann 4 2 0%float 1%float _ vacuum_state);
    [reflexivity | lia | lia | reflexivity].
Defined.

(** C5, witness: Sod's state on four interior and two ghost cells. *)
Lemma states_reconstruction_witness :
  ∃ g, FVGrid_init 4 2 0%float 1%float = Ok g ∧ ghosted g sod_state ∧
    ∃ Q dq q_l q_r,
      cons_to_prim g sod_state = Ok Q ∧ Q = prim <$> sod_state ∧
      slopes g Q = Ok dq ∧
      states g sod_state = Ok (q_l, q_r) ∧
      length dq = length sod_state ∧ length q_l = length sod_state ∧
      length q_r = length sod_state ∧
      (∀ i, (ilo g - 1 ≤ i ≤ ihi g + 1)%Z →
            at_ dq i = vmap (mul lit_0_5) (vzip sub (at_ Q (i + 1)) (at_ Q (i - 1)))) ∧
      (∀ i, (ilo g ≤ i ≤ ihi g + 1)%Z →
            at_ q_l i = vzip add (at_ Q (i - 1)) (vmap (mul lit_0_5) (at_ dq (i - 1))) ∧
            at_ q_r i = vzip sub (at_ Q i) (vmap (mul lit_0_5) (at_ dq i))).
Proof.
  eexists. split; [reflexivity|]. split; [reflexivity|].
  apply (states_reconstruction 4 2 0%float 1%float _ sod_state);
    [reflexivity | lia | lia | reflexivity].
Defined.

(** C6, witness: Sod's state, five interfaces and five solver calls. *)
Lemma make_flux_divergence_spec_witness :
  ∃ g, FVGrid_init 4 2 0%float 1%float = Ok g ∧ ghosted g sod_state ∧
    ∃ flux calls RHS,
      interface_flux sample_riemann g sod_state = Ok (flux, calls) ∧
      make_flux_divergence sample_riemann g sod_state = Ok RHS ∧
      length RHS = length sod_state ∧
      length calls = 5 ∧
      (∀ i, (ilo g ≤ i ≤ ihi g)%Z →
            at_ RHS i = vmap (λ v, div v (dx g)) (vzip sub (at_ flux i) (at_ flux (i + 1)))) ∧
      (∀ i, (0 ≤ i < ilo g ∨ ihi g < i < 8)%Z → at_ RHS i = V3 zero zero zero).
Proof.
  eexists. split; [reflexivity|]. split; [reflexivity|].
  match goal with |- context [make_flux_divergence _ ?g _] =>
    assert (Hg : FVGrid_init 4 2 0%float 1%float = Ok g) by reflexivity;
    assert (HU : ghosted g sod_state) by reflexivity;
    destruct (make_flux_divergence_spec sample_riemann 4 2 0%float 1%float g sod_state
                Hg ltac:(lia) ltac:(lia) HU)
      as (q_l & q_r & flux & calls & RHS & _ & Hif & HA & _ & HlA & _ & Hlen & _ & Hin & Hout)
  end.
  exists flux, calls, RHS. repeat split; assumption.
Defined.

(** C7, witness: Sod's state. *)
Lemma timestep_formula_witness :
  ∃ g, FVGrid_init 4 2 0%float 1%float = Ok g ∧ ghosted g sod_state ∧
    timestep g sod_state = Ok (div (mul C (dx g)) (s_max g sod_state)).
Proof.
  eexists. split; [reflexivity|]. split; [reflexivity|].
  apply (timestep_formula 4 2 0%float 1%float _ sod_state);
    [reflexivity | lia | lia | reflexivity].
Defined.

(** C10, witness: a vector field and a scalar field of ghosted length. *)
Lemma fill_BCs_keeps_interior_witness :
  ∃ g, FVGrid_init 4 2 0%float 1%float = Ok g ∧
    ghosted g sod_state ∧ ghosted g ramp_field ∧
    (∃ U', fill_BCs g sod_state = Ok U' ∧ length U' = length sod_state ∧
       ∀ i, (ilo g ≤ i ≤ ihi g)%Z → U' !! Z.to_nat i = sod_state !! Z.to_nat i) ∧
    (∃ c', fill_BCs g ramp_field = Ok c' ∧ length c' = length ramp_field ∧
       ∀ i, (ilo g ≤ i ≤ ihi g)%Z → c' !! Z.to_nat i = ramp_field !! Z.to_nat i).
Proof.
  eexists. split; [reflexivity|]. split; [reflexivity|]. split; [reflexivity|].
  split.
  - apply (fill_BCs_keeps_interior 4 2 0%float 1%float _ sod_state);
      [reflexivity | lia | lia | reflexivity].
  - apply (fill_BCs_keeps_interior 4 2 0%float 1%float _ ramp_field);
      [reflexivity | lia | lia | reflexivity].
Defined.

(** C3, witness: a negative [nx], one ghost cell and [xmin > xmax] at once. *)
Lemma FVGrid_init_checks_nothing_witness :
  FVGrid_init 0 1 1%float 0%float = Raise ZeroDivisionError ∧
  ∃ g, FVGrid_init (-4) 1 1%float 0%float = Ok g ∧
       nx g = (-4)%Z ∧ ng g = 1%Z ∧ xmin g = 1%float ∧ xmax g = 0%float.
Proof.
  destruct (FVGrid_init_checks_nothing (-4) 1 1%float 0%float ltac:(lia) ltac:(lia))
    as [H0 Hg].
  split; [exact H0|]. apply Hg; [lia | reflexivity].
Defined.

(** C1, witness: Sod's state in binary64, [dt = 0.125]. *)
Lemma mol_step_is_full_step_witness :
  ∃ g, FVGrid_init 4 2 0%float 1%float = Ok g ∧ ghosted g sod_state ∧
    returns (mol_step sample_riemann g sod_state 0.125%float) ∧
    mol_step sample_riemann g sod_state 0.125%float
    = full_step sample_riemann g sod_state 0.125%float ∧
    mol_step sample_riemann g sod_state 0.125%float
    = spec_step sample_riemann g sod_state 0.125%float.
Proof.
  eexists. split; [reflexivity|]. split; [reflexivity|].
  match goal with |- context [full_step _ ?g _ _] =>
    assert (Hg : FVGrid_init 4 2 0%float 1%float = Ok g) by reflexivity;
    assert (HU : ghosted g sod_state) by reflexivity;
    destruct (mol_step_is_full_step sample_riemann 4 2 0%float 1%float g sod_state
                0.125%float Hg ltac:(lia) ltac:(lia) HU) as (Hret & Hfull & Hspec)
  end.
  split; [exact Hret|]. split; [exact Hfull|].
  apply Hspec; vm_compute; reflexivity.
Defined.

(** The first stage on Sod's state with two interior cells, in exact
    arithmetic: the velocity is zero, so is the mass flux, and the density of
    the intermediate state is the density of the state. *)
Lemma sod_pair_exact_densities (dt : R) :
  ∀ g, FVGrid_init 2 2 0%R 1%R = Ok g →
  (∀ i, interior g i → vget URHO (at_ sod_pair_exact i) ≠ 0%R) ∧
  (∀ U1 k1, fill_BCs g sod_pair_exact = Ok U1 →
     make_flux_divergence sample_riemann g U1 = Ok k1 →
     ∀ i, interior g i →
       vget URHO (axpy (mul lit_0_5 dt) (at_ U1 i) (at_ k1 i)) ≠ 0%R).
Proof.
  intros g Hg.
  assert (Hinv : grid_inv g)
    by (apply (FVGrid_init_grid_inv 2 2 0%R 1%R); [done | lia | lia]).
  assert (Hilo : ilo g = 2%Z) by (by injection Hg as <-).
  assert (Hihi : ihi g = 3%Z) by (by injection Hg as <-).
  assert (Hng : ng g = 2%Z) by (by injection Hg as <-).
  assert (HU : ghosted g sod_pair_exact) by (by injection Hg as <-).
  assert (Hfill : fill_BCs g sod_pair_exact = Ok sod_pair_exact)
    by (by injection Hg as <-).
  unfold interior. rewrite Hilo, Hihi.
  assert (Hcases : ∀ i, (2 ≤ i ≤ 3)%Z → i = 2%Z ∨ i = 3%Z) by (intros; lia).
  split.
  - intros i Hi. destruct (Hcases i Hi) as [-> | ->]; eval_idx; cbn; lra.
  - intros U1 k1 HU1 Hk1 i Hi.
    assert (U1 = sod_pair_exact) as -> by congruence.
    destruct (make_flux_divergence_ok sample_riemann g sod_pair_exact Hinv
                ltac:(lia) HU)
      as (q_l & q_r & flux & A & _ & _ & HA & _ & _ & Hq & Hflux & HAin & _).
    assert (A = k1) as -> by congruence.
    rewrite HAin by (unfold interior; lia).
    rewrite Hilo, Hihi in Hq, Hflux.
    assert (Hmass : ∀ j, (2 ≤ j ≤ 4)%Z → vget URHO (at_ flux j) = 0%R).
    { intros j Hj.
      rewrite Hflux by lia. destruct (Hq j ltac:(lia)) as [-> ->].
      assert (Hj' : j = 2%Z ∨ j = 3%Z ∨ j = 4%Z) by lia.
      destruct Hj' as [-> | [-> | ->]];
        unfold sample_riemann, euler_flux, Q_left, Q_right, slope, prim, sqr, gamma;
        eval_idx; cbn; lra. }
    destruct (Hcases i Hi) as [-> | ->];
      unfold axpy, rhs_cell; cbn [vget URHO vzip vmap c0].
    all: change (c0 (at_ flux ?j)) with (vget URHO (at_ flux j)).
    all: rewrite !Hmass by lia.
    all: eval_idx; cbn.
    all: replace ((0 - 0) / dx g)%R with 0%R by (unfold Rdiv; ring); lra.
Qed.

(** C2, witness: Sod's state with two interior cells in exact arithmetic,
    [dt = 1/8]. *)
Lemma mol_step_conservation_witness :
  ∃ g, FVGrid_init 2 2 0%R 1%R = Ok g ∧ ghosted g sod_pair_exact ∧
    ∃ U1 k1 U_mid flux calls U',
      fill_BCs g sod_pair_exact = Ok U1 ∧
      make_flux_divergence sample_riemann g U1 = Ok k1 ∧
      fill_BCs g (zip_with (axpy (mul lit_0_5 (1 / 8)%R)) U1 k1) = Ok U_mid ∧
      interface_flux sample_riemann g U_mid = Ok (flux, calls) ∧
      mol_step sample_riemann g sod_pair_exact (1 / 8)%R = Ok U' ∧
      length flux = length sod_pair_exact ∧ length U' = length sod_pair_exact ∧
      ∀ n, (interior_sum g n U' - interior_sum g n sod_pair_exact
            = (vget n (at_ flux (ilo g)) - vget n (at_ flux (ihi g + 1)))
              * (1 / 8) / dx g)%R.
Proof.
  eexists. split; [reflexivity|]. split; [reflexivity|].
  match goal with |- context [interface_flux _ ?g _] =>
    destruct (sod_pair_exact_densities (1 / 8)%R g eq_refl) as [Hrho Hmid];
    apply (mol_step_conservation sample_riemann 2 2 0%R 1%R g sod_pair_exact (1 / 8)%R);
      [reflexivity | lia | lia | reflexivity | lra | exact Hrho | exact Hmid]
  end.
Defined.

(** C9, witness: the uniform state [(1, 0.5, 2.5)] in binary64. *)
Lemma uniform_state_reconstruction_witness :
  ∃ g, FVGrid_init 4 2 0%float 1%float = Ok g ∧ ghosted g uniform_float_state ∧
    Forall (eq (V3 1 0.5 2.5)%float) uniform_float_state ∧
    finite3 (prim (V3 1 0.5 2.5)%float) = true ∧
    ∃ dq q_l q_r,
      slopes g (prim <$> uniform_float_state) = Ok dq ∧
      states g uniform_float_state = Ok (q_l, q_r) ∧
      length dq = length uniform_float_state ∧
      length q_l = length uniform_float_state ∧
      length q_r = length uniform_float_state ∧
      (∀ i, (0 ≤ i < Z.of_nat (length uniform_float_state))%Z →
            at_ dq i = V3 zero zero zero) ∧
      (∀ i, (ilo g ≤ i ≤ ihi g + 1)%Z →
            at_ q_l i = vzip add (prim (V3 1 0.5 2.5)%float) (V3 zero zero zero) ∧
            same3 (at_ q_l i) (prim (V3 1 0.5 2.5)%float) = true ∧
            at_ q_r i = prim (V3 1 0.5 2.5)%float).
Proof.
  eexists. split; [reflexivity|]. split; [reflexivity|].
  assert (Hu : Forall (eq (V3 1 0.5 2.5)%float) uniform_float_state)
    by (repeat constructor).
  split; [exact Hu|]. split; [vm_compute; reflexivity|].
  apply (uniform_state_reconstruction 4 2 0%float 1%float _ _ uniform_float_state);
    [reflexivity | lia | lia | reflexivity | exact Hu | vm_compute; reflexivity].
Defined.

(** C8, witness: Sod's state on the unit interval; [C dx = 0.2] has the
    binary exponent [-2] and [s_max], about 1.18, the binary exponent 1. *)
Lemma timestep_positive_witness :
  ∃ g, FVGrid_init 4 2 0%float 1%float = Ok g ∧ ghosted g sod_state ∧
    positive_number (mul C (dx g)) = true ∧
    positive_number (s_max g sod_state) = true ∧
    (exponent (mul C (dx g)) - exponent (s_max g sod_state) = -3)%Z ∧
    (∀ i, interior g i →
        positive_number (vget QRHO (prim (at_ sod_state i))) = true ∧
        positive_number (vget QP (prim (at_ sod_state i))) = true) ∧
    ∃ dt, timestep g sod_state = Ok dt ∧ PrimFloat.ltb 0%float dt = true ∧
      PrimFloat.is_nan (s_max g sod_state) = false.
Proof.
  eexists. split; [reflexivity|]. split; [reflexivity|].
  split; [vm_compute; reflexivity|]. split; [vm_compute; reflexivity|].
  split; [vm_compute; reflexivity|].
  match goal with |- context [timestep ?g _] =>
    assert (Hg : FVGrid_init 4 2 0%float 1%float = Ok g) by reflexivity;
    assert (HU : ghosted g sod_state) by reflexivity;
    assert (Hpos : ∀ i, interior g i →
              positive_number (vget QRHO (prim (at_ sod_state i))) = true ∧
              positive_number (vget QP (prim (at_ sod_state i))) = true);
    [|destruct (timestep_positive 4 2 0%float 1%float g sod_state Hg ltac:(lia) ltac:(lia)
                  HU ltac:(vm_compute; reflexivity)) as (dt & Hdt & _ & _ & Hcells)]
  end.
  - intros i Hi. unfold interior in Hi. cbn in Hi.
    assert (Hc : i = 2%Z ∨ i = 3%Z ∨ i = 4%Z ∨ i = 5%Z) by lia.
    destruct Hc as [-> | [-> | [-> | ->]]]; split; vm_compute; reflexivity.
  - split; [exact Hpos|].
    destruct (Hcells Hpos) as (Hnan & Hfin & _).
    exists dt. split; [exact Hdt|]. split; [|exact Hnan].
    apply Hfin; [vm_compute; reflexivity | vm_compute; discriminate].
Defined.

(** * More of the code: the boundary fill *)

Section FillClaims.
Context {F : Type} `{!Scalar F}.
Implicit Types (g : FVGrid F) (U : list (vec3 F)) (a : list F).

(** X1.  What [fill_BCs] writes: on an array of ghosted length, with one
    number or with a vector per cell, every ghost cell below the interior
    receives the first interior cell and every ghost cell above it receives
    the last interior cell. *)
Theorem fill_BCs_ghost_values (n_x n_g : Z) (x0 x1 : F) g a U :
  FVGrid_init n_x n_g x0 x1 = Ok g → (1 ≤ n_x)%Z → (0 ≤ n_g)%Z →
  ghosted g a → ghosted g U →
  ∃ a' U', fill_BCs g a = Ok a' ∧ fill_BCs g U = Ok U' ∧
    length a' = length a ∧ length U' = length U ∧
    (∀ i, (0 ≤ i < ilo g)%Z →
          at_ a' i = at_ a (ilo g) ∧ at_ U' i = at_ U (ilo g)) ∧
    (∀ i, (ihi g < i < n_x + 2 * n_g)%Z →
          at_ a' i = at_ a (ihi g) ∧ at_ U' i = at_ U (ihi g)).
Proof.
  intros Hg Hnx Hng Ha HU.
  assert (Hinv : grid_inv g) by (eapply FVGrid_init_grid_inv; done).
  pose proof (FVGrid_init_inv _ _ _ _ _ Hg) as (Hgnx & Hgng & Hilo & Hihi & _).
  destruct (fill_BCs_scalar_at g a Hinv Ha) as (a' & Hfa & Hla & Hva).
  destruct (fill_BCs_vector_at g U Hinv HU) as (U' & HfU & HlU & HvU).
  unfold ghosted in Ha, HU.
  exists a', U'. do 4 (split; [done|]).
  split; intros i Hi; unfold at_ at 1 3;
    rewrite Hva, HvU by lia; repeat case_decide; try lia; done.
Qed.

(** X2.  [fill_BCs] is idempotent: filling an array that [fill_BCs] returned
    returns it unchanged, for both layouts. *)
Theorem fill_BCs_idempotent (n_x n_g : Z) (x0 x1 : F) g a U a' U' :
  FVGrid_init n_x n_g x0 x1 = Ok g → (1 ≤ n_x)%Z → (0 ≤ n_g)%Z →
  ghosted g a → ghosted g U →
  fill_BCs g a = Ok a' → fill_BCs g U = Ok U' →
  fill_BCs g a' = Ok a' ∧ fill_BCs g U' = Ok U'.
Proof.
  intros Hg Hnx Hng Ha HU Hfa HfU.
  assert (Hinv : grid_inv g) by (eapply FVGrid_init_grid_inv; done).
  pose proof (FVGrid_init_inv _ _ _ _ _ Hg) as (Hgnx & Hgng & Hilo & Hihi & _).
  destruct (fill_BCs_scalar_at g a Hinv Ha) as (b & Hb & Hlb & Hvb).
  destruct (fill_BCs_vector_at g U Hinv HU) as (V & HV & HlV & HvV).
  assert (b = a') as -> by congruence. assert (V = U') as -> by congruence.
  assert (Ha' : ghosted g a') by (unfold ghosted in *; congruence).
  assert (HU' : ghosted g U') by (unfold ghosted in *; congruence).
  destruct (fill_BCs_scalar_at g a' Hinv Ha') as (a'' & Hfa' & Hla' & Hva').
  destruct (fill_BCs_vector_at g U' Hinv HU') as (U'' & HfU' & HlU' & HvU').
  unfold ghosted in Ha, HU.
  split.
  - rewrite Hfa'. f_equal. apply list_eq_total; [done|].
    intros j Hj. rewrite Hva' by lia. unfold at_. rewrite !Hvb by lia.
    repeat case_decide; try lia; done.
  - rewrite HfU'. f_equal. apply list_eq_total; [done|].
    intros j Hj. rewrite HvU' by lia. unfold at_. rewrite !HvV by lia.
    repeat case_decide; try lia; done.
Qed.

(** X3.  [fill_BCs] reads the cell [ilo] first: on an array with at most
    [ng] cells, the empty array among them, it raises an IndexError, for both
    layouts. *)
Theorem fill_BCs_short_array (n_x n_g : Z) (x0 x1 : F) g a U :
  FVGrid_init n_x n_g x0 x1 = Ok g → (0 ≤ n_g)%Z →
  (Z.of_nat (length a) ≤ n_g)%Z → (Z.of_nat (length U) ≤ n_g)%Z →
  fill_BCs g a = Raise IndexError ∧ fill_BCs g U = Raise IndexError.
Proof.
  intros Hg Hng Ha HU.
  pose proof (FVGrid_init_inv _ _ _ _ _ Hg) as (Hgnx & Hgng & Hilo & Hihi & _).
  assert (Hget : ∀ (X : Type) (b : list X),
            (Z.of_nat (length b) ≤ n_g)%Z → getitem b (ilo g) = Raise IndexError).
  { intros X b Hb. unfold getitem, py_index. rewrite Hilo.
    destruct (Z.ltb_spec n_g 0); [lia|].
    destruct (Z.ltb_spec n_g (Z.of_nat (length b))); [lia|].
    by rewrite andb_false_r. }
  split.
  - unfold fill_BCs. cbn [cell_shape1 scalar_cell default].
    rewrite decide_True by done. by rewrite Hget.
  - unfold fill_BCs. cbn [cell_shape1 vec3_cell default].
    rewrite decide_False by done. unfold range.
    change (seq 0 (Datatypes.id 3)) with [0; 1; 2]. cbn [foldM].
    by rewrite Hget.
Qed.

End FillClaims.

(** * More of the code: misconfigured grids and the stencil *)

Section EdgeFacts.
Context {F : Type} `{!Scalar F}.
Variable riemann : vec3 F → vec3 F → F → vec3 F.
Implicit Types (g : FVGrid F) (U V : list (vec3 F)).

Lemma bc2_mismatch {X Y W : Type} (f : X → Y → W) (l : list X) (k : list Y) :
  length l ≠ length k → length l ≠ 1 → length k ≠ 1 →
  bc2 f l k = Raise ValueError.
Proof.
  intros Hne Hl Hk. unfold bc2. rewrite decide_False by done.
  destruct l as [|? [|? ?]], k as [|? [|? ?]]; simpl in *; done.
Qed.

Lemma foldM_raise {X Y : Type} (body : X → Y → pyresult X) acc y ys e :
  body acc y = Raise e → foldM body acc (y :: ys) = Raise e.
Proof. intros Hb. simpl. by rewrite Hb. Qed.

Lemma length_slice {X : Type} (b : list X) lo hi :
  length (slice b lo hi) = (srange (length b) lo hi).2.
Proof.
  unfold slice. destruct (srange (length b) lo hi) as [s m] eqn:Hs. simpl.
  rewrite length_take, length_drop.
  unfold srange in Hs. injection Hs as <- <-.
  assert (py_bound (length b) (length b) hi ≤ length b); [|lia].
  destruct hi as [i|]; simpl; [|done].
  destruct (Z.ltb_spec i 0); lia.
Qed.

(** X4.  One ghost cell is not enough for the reconstruction: on a grid with
    [ng = 1] the lower bound [ilo - 2 = -1] of the second slice that the
    slopes subtract counts from the end of the array, so that the two slices
    have [nx + 1] cells and no cell, and [states], [make_flux_divergence] and
    the loop body raise a ValueError for every state of ghosted length. *)
Theorem states_needs_two_ghost_cells (n_x : Z) (x0 x1 : F) g U (dt : F) :
  FVGrid_init n_x 1 x0 x1 = Ok g → (1 ≤ n_x)%Z → ghosted g U →
  (∀ n, length (col (prim <$> U) (Some (ilo g)) (Some (ihi g + 3)%Z) n)
        = Z.to_nat (n_x + 1) ∧
        length (col (prim <$> U) (Some (ilo g - 2)%Z) (Some (ihi g + 1)%Z) n) = 0) ∧
  states g U = Raise ValueError ∧
  make_flux_divergence riemann g U = Raise ValueError ∧
  mol_step riemann g U dt = Raise ValueError.
Proof.
  intros Hg Hnx HU.
  assert (Hinv : grid_inv g) by (eapply FVGrid_init_grid_inv; [done|lia..]).
  pose proof (FVGrid_init_inv _ _ _ _ _ Hg) as (Hgnx & Hgng & Hilo & Hihi & _).
  assert (Hst : ∀ V, ghosted g V → states g V = Raise ValueError).
  { intros V HV. unfold states.
    rewrite cons_to_prim_ok by done. rewrite bind_Ok.
    assert (Hsl : slopes g (prim <$> V) = Raise ValueError); [|by rewrite Hsl].
    unfold slopes. rewrite (scratch_array_ghosted g V) by done. rewrite bind_Ok.
    unfold range, NVAR. cbn [seq]. apply foldM_raise.
    rewrite bc2_mismatch; [done|..]; unfold col;
      rewrite ?length_fmap, !length_slice, ?length_fmap;
      unfold ghosted in HV; unfold srange, py_bound; rewrite Hilo, Hihi; cbn [snd];
      repeat match goal with |- context [(?a <? ?b)%Z] => destruct (Z.ltb_spec a b) end;
      lia. }
  assert (Hfd : ∀ V, ghosted g V → make_flux_divergence riemann g V = Raise ValueError).
  { intros V HV. unfold make_flux_divergence, interface_flux. by rewrite Hst. }
  split.
  { intros n. unfold col. rewrite !length_fmap, !length_slice, length_fmap.
    unfold ghosted in HU. unfold srange, py_bound. rewrite Hilo, Hihi. cbn [snd].
    repeat match goal with |- context [(?a <? ?b)%Z] => destruct (Z.ltb_spec a b) end;
      lia. }
  split; [by apply Hst|]. split; [by apply Hfd|].
  destruct (fill_BCs_frame g U Hinv HU) as (U1 & HU1 & Hl1 & _).
  unfold mol_step. rewrite HU1, bind_Ok.
  rewrite Hfd by (unfold ghosted in *; congruence). done.
Qed.

(** Without interior cells [timestep] reduces an empty array. *)
Lemma timestep_empty_interior g U :
  ilo g = ng g → ihi g = (ng g + nx g - 1)%Z → (nx g < 0)%Z → (0 ≤ ng g)%Z →
  ghosted g U → timestep g U = Raise ValueError.
Proof.
  intros Hilo Hihi Hnx Hng HU.
  assert (Hempty : ∀ (X : Type) (b : list X),
            ghosted g b → slice b (Some (ilo g)) (Some (ihi g + 1)%Z) = []).
  { intros X b Hb. apply length_zero_iff_nil. rewrite length_slice.
    unfold ghosted in Hb. unfold srange, py_bound. rewrite Hilo, Hihi. cbn [snd].
    repeat match goal with |- context [(?a <? ?b)%Z] => destruct (Z.ltb_spec a b) end;
      lia. }
  unfold timestep.
  rewrite cons_to_prim_ok by done. rewrite bind_Ok.
  rewrite (scratch_array_ghosted (T:=F) g U) by done. rewrite bind_Ok.
  unfold col.
  rewrite (Hempty _ (prim <$> U)) by (unfold ghosted in *; by rewrite length_fmap).
  cbn [fmap list_fmap]. rewrite bc2_same by done. rewrite bind_Ok.
  cbn [zip_with fmap list_fmap].
  unfold set_slice.
  destruct (srange _ _ _) as [s m] eqn:Hs.
  assert (m = 0) as ->.
  { pose proof (length_slice (replicate (length U) (cell_zero (T:=F)))
                  (Some (ilo g)) (Some (ihi g + 1)%Z)) as Hl.
    rewrite Hs in Hl. simpl in Hl. rewrite <- Hl.
    rewrite Hempty; [done|]. unfold ghosted in *. by rewrite length_replicate. }
  rewrite broadcast_to_same by done. rewrite !bind_Ok.
  rewrite Hempty by (unfold ghosted in *; by rewrite length_assign, length_replicate).
  rewrite bc2_same by done. done.
Qed.

(** X5.  A grid with a negative number of cells is constructed, and has no
    interior: [timestep] then takes the maximum of an empty array and raises
    a ValueError, for every state of ghosted length. *)
Theorem timestep_negative_nx (n_x n_g : Z) (x0 x1 : F) g U :
  FVGrid_init n_x n_g x0 x1 = Ok g → (n_x < 0)%Z → (0 ≤ n_g)%Z → ghosted g U →
  timestep g U = Raise ValueError.
Proof.
  intros Hg Hnx Hng HU.
  pose proof (FVGrid_init_inv _ _ _ _ _ Hg) as (Hgnx & Hgng & Hilo & Hihi & _).
  apply timestep_empty_interior; [congruence | congruence | lia | lia | done].
Qed.

Lemma at_fmap_prim U (i : Z) :
  (0 ≤ i < Z.of_nat (length U))%Z → at_ (prim <$> U) i = prim (at_ U i).
Proof. intros Hi. unfold at_. erewrite fmap_at by lia. done. Qed.

(** X6.  The stencil of the scheme: the right-hand side of an interior cell
    [i] is a function of the five cells [i-2 .. i+2] of the state.  Two states
    that agree there have the same right-hand side in [i]. *)
Theorem make_flux_divergence_stencil (n_x n_g : Z) (x0 x1 : F) g U V (i : Z) :
  FVGrid_init n_x n_g x0 x1 = Ok g → (1 ≤ n_x)%Z → (2 ≤ n_g)%Z →
  ghosted g U → ghosted g V → (ilo g ≤ i ≤ ihi g)%Z →
  (∀ j, (i - 2 ≤ j ≤ i + 2)%Z → at_ U j = at_ V j) →
  ∃ A B, make_flux_divergence riemann g U = Ok A ∧
         make_flux_divergence riemann g V = Ok B ∧
         at_ A i = at_ B i.
Proof.
  intros Hg Hnx Hng HU HV Hi Hagree.
  assert (Hinv : grid_inv g) by (eapply FVGrid_init_grid_inv; [done|lia..]).
  pose proof (FVGrid_init_inv _ _ _ _ _ Hg) as (Hgnx & Hgng & Hilo & Hihi & _).
  assert (Hg2 : (2 ≤ ng g)%Z) by lia.
  destruct (make_flux_divergence_ok riemann g U Hinv Hg2 HU)
    as (ql & qr & fl & A & _ & _ & HA & _ & _ & Hq & Hf & HAin & _).
  destruct (make_flux_divergence_ok riemann g V Hinv Hg2 HV)
    as (ql' & qr' & fl' & B & _ & _ & HB & _ & _ & Hq' & Hf' & HBin & _).
  exists A, B. split; [done|]. split; [done|].
  unfold ghosted in HU, HV.
  assert (HQ : ∀ j, (i - 2 ≤ j ≤ i + 2)%Z →
            at_ (prim <$> U) j = at_ (prim <$> V) j).
  { intros j Hj. rewrite !at_fmap_prim by lia. by rewrite Hagree. }
  assert (Hfl : ∀ k, (i ≤ k ≤ i + 1)%Z → at_ fl k = at_ fl' k).
  { intros k Hk. rewrite Hf, Hf' by lia.
    destruct (Hq k) as [-> ->]; [lia|]. destruct (Hq' k) as [-> ->]; [lia|].
    unfold Q_left, Q_right, slope.
    replace (k - 1 + 1)%Z with k by lia.
    rewrite !(HQ k), !(HQ (k - 1)%Z), !(HQ (k + 1)%Z), !(HQ (k - 1 - 1)%Z) by lia.
    done. }
  rewrite HAin, HBin by done. unfold rhs_cell.
  by rewrite !Hfl by lia.
Qed.

End EdgeFacts.

(** * More of the code, in exact arithmetic *)

Ltac real_arith :=
  unfold zero, gamma, C, sqr in *;
  cbn [add sub mul div of_Z lit_0_5 lit_1_0 lit_1_4 lit_0_8 sqrt abs fmax
       real_scalar ltb geb lit_0_125 lit_0_1 lit_0_2 real_driver] in *.

Section RealMore.
Variable riemann : vec3 R → vec3 R → R → vec3 R.
Implicit Types (g : FVGrid R) (U : list (vec3 R)).

Lemma x_at (n_x n_g : Z) (x0 x1 : R) g (i : Z) :
  FVGrid_init n_x n_g x0 x1 = Ok g → (0 ≤ i < n_x + 2 * n_g)%Z →
  length (x g) = Z.to_nat (n_x + 2 * n_g) ∧
  at_ (x g) i = (x0 + (IZR (i - n_g) + 1 / 2) * dx g)%R.
Proof.
  unfold FVGrid_init, float_div_int.
  destruct (n_x =? 0)%Z; [discriminate|].
  destruct (int_fits n_x); [|discriminate].
  intros [= <-] Hi. cbn [x dx]. split.
  - rewrite length_fmap, length_zrange. f_equal. lia.
  - unfold at_. erewrite fmap_at by (rewrite length_zrange; lia).
    rewrite zrange_at by lia. real_arith.
    replace (0 + Z.of_nat (Z.to_nat i))%Z with i by lia. done.
Qed.

(** X7.  The geometry of a grid: [nx] interior cells, [nx + 2 ng] cell
    centres a distance [dx] apart, the first interior centre half a cell
    above [xmin] and the last one half a cell below [xmax]. *)
Theorem cell_centres (n_x n_g : Z) (x0 x1 : R) g :
  FVGrid_init n_x n_g x0 x1 = Ok g → (1 ≤ n_x)%Z → (0 ≤ n_g)%Z →
  (ihi g - ilo g + 1)%Z = n_x ∧
  length (x g) = Z.to_nat (n_x + 2 * n_g) ∧
  at_ (x g) (ilo g) = (x0 + dx g / 2)%R ∧
  at_ (x g) (ihi g) = (x1 - dx g / 2)%R ∧
  (∀ i, (0 ≤ i < n_x + 2 * n_g - 1)%Z →
        (at_ (x g) (i + 1) - at_ (x g) i)%R = dx g).
Proof.
  intros Hg Hnx Hng.
  pose proof (FVGrid_init_inv _ _ _ _ _ Hg) as (Hgnx & Hgng & Hilo & Hihi & _ & _ & Hdx).
  split; [lia|].
  split; [by apply (x_at n_x n_g x0 x1 g 0 Hg); lia|].
  assert (Hn : IZR n_x ≠ 0%R) by (apply not_0_IZR; lia).
  split; [|split].
  - rewrite (proj2 (x_at n_x n_g x0 x1 g (ilo g) Hg ltac:(lia))).
    rewrite Hilo. replace (n_g - n_g)%Z with 0%Z by lia. lra.
  - rewrite (proj2 (x_at n_x n_g x0 x1 g (ihi g) Hg ltac:(lia))).
    rewrite Hihi. replace (n_g + n_x - 1 - n_g)%Z with (n_x - 1)%Z by lia.
    rewrite minus_IZR, Hdx. real_arith. field. done.
  - intros i Hi.
    rewrite (proj2 (x_at n_x n_g x0 x1 g (i + 1) Hg ltac:(lia))).
    rewrite (proj2 (x_at n_x n_g x0 x1 g i Hg ltac:(lia))).
    replace (i + 1 - n_g)%Z with (i - n_g + 1)%Z by lia.
    rewrite plus_IZR. lra.
Qed.

Lemma prim_cons_of_prim (w : vec3 R) :
  vget QRHO w ≠ 0%R → prim (cons_of_prim w) = w.
Proof.
  destruct w as [rho u p]. cbn [vget QRHO c0]. intros Hrho.
  unfold prim, cons_of_prim. cbn [vget URHO UMX UENER QRHO QU QP c0 c1 c2].
  real_arith. f_equal; field; lra.
Qed.

(** X8.  The conversion undoes the formula of the initial conditions: a
    state built from primitive values [(rho, u, p)] with non-zero densities by
    [(rho, rho u, p / (gamma - 1) + rho u^2 / 2)] is converted back to exactly
    these values. *)
Theorem cons_to_prim_round_trip (n_x n_g : Z) (x0 x1 : R) g (W : list (vec3 R)) :
  FVGrid_init n_x n_g x0 x1 = Ok g → ghosted g W →
  Forall (λ w, vget QRHO w ≠ 0%R) W →
  cons_to_prim g (cons_of_prim <$> W) = Ok W.
Proof.
  intros Hg HW Hrho.
  rewrite cons_to_prim_ok by (unfold ghosted in *; by rewrite length_fmap).
  f_equal. rewrite <- list_fmap_compose. rewrite <- (list_fmap_id W) at 2.
  apply list_fmap_ext. intros i w Hw. simpl.
  apply prim_cons_of_prim. by eapply (Forall_lookup_1 _ _ _ _ Hrho).
Qed.


Lemma vmap_half_zero_slope (w : vec3 R) :
  vmap (mul lit_0_5) (vzip sub w w) = V3 0%R 0%R 0%R.
Proof.
  destruct w as [a b d]. unfold vmap, vzip. cbn [c0 c1 c2]. real_arith.
  f_equal; lra.
Qed.

Lemma vzip_add_half_zero (w : vec3 R) :
  vzip add w (vmap (mul lit_0_5) (V3 0%R 0%R 0%R)) = w.
Proof.
  destruct w as [a b d]. unfold vmap, vzip. cbn [c0 c1 c2]. real_arith.
  f_equal; lra.
Qed.

Lemma vzip_sub_half_zero (w : vec3 R) :
  vzip sub w (vmap (mul lit_0_5) (V3 0%R 0%R 0%R)) = w.
Proof.
  destruct w as [a b d]. unfold vmap, vzip. cbn [c0 c1 c2]. real_arith.
  f_equal; lra.
Qed.

(** The interface states and the right-hand side of a uniform state. *)
Lemma uniform_flux_divergence g (u0 : vec3 R) U :
  grid_inv g → (2 ≤ ng g)%Z → ghosted g U → Forall (eq u0) U →
  make_flux_divergence riemann g U = Ok (replicate (length U) (V3 0%R 0%R 0%R)).
Proof.
  intros Hinv Hg2 HU Huni.
  destruct (make_flux_divergence_ok riemann g U Hinv Hg2 HU)
    as (ql & qr & fl & A & _ & _ & HA & _ & HlA & Hq & Hf & HAin & HAout).
  destruct Hinv as (Hilo & Hihi & Hnx & Hng). unfold ghosted in HU.
  assert (HQ : ∀ i, (0 ≤ i < Z.of_nat (length U))%Z → at_ (prim <$> U) i = prim u0).
  { intros i Hi. rewrite at_fmap_prim by done. f_equal. unfold at_.
    symmetry. eapply (Forall_lookup_1 _ _ (Z.to_nat i) _ Huni).
    apply list_lookup_lookup_total_lt. lia. }
  assert (Hfl : ∀ i, (ilo g ≤ i ≤ ihi g + 1)%Z →
            at_ fl i = riemann (prim u0) (prim u0) gamma).
  { intros i Hi. rewrite Hf by done. destruct (Hq i Hi) as [-> ->].
    unfold Q_left, Q_right, slope. rewrite !HQ by lia.
    by rewrite vmap_half_zero_slope, vzip_add_half_zero, vzip_sub_half_zero. }
  rewrite HA. f_equal. apply list_eq_total; [by rewrite length_replicate|].
  intros j Hj. rewrite lookup_total_replicate_2 by lia.
  destruct (decide (ilo g ≤ Z.of_nat j ≤ ihi g)%Z) as [Hin|Hout].
  - replace j with (Z.to_nat (Z.of_nat j)) by lia. fold (at_ A (Z.of_nat j)).
    rewrite HAin by done. unfold rhs_cell. rewrite !Hfl by lia.
    destruct (riemann (prim u0) (prim u0) gamma) as [a b d]. unfold vmap, vzip.
    cbn [c0 c1 c2]. real_arith. unfold Rdiv. f_equal; ring.
  - replace j with (Z.to_nat (Z.of_nat j)) by lia. fold (at_ A (Z.of_nat j)).
    rewrite HAout by lia. done.
Qed.

Lemma zip_axpy_zero (c : R) U :
  zip_with (axpy c) U (replicate (length U) (V3 0%R 0%R 0%R)) = U.
Proof.
  rewrite zip_with_replicate_r_eq by done.
  rewrite <- (list_fmap_id U) at 2. apply list_fmap_ext. intros i u _.
  unfold flip. simpl. apply (axpy_zero c u).
Qed.

(** X10.  A uniform state is steady in exact arithmetic: whatever the Riemann
    solver and the timestep, the loop body returns the uniform state it was
    given.  The density of the state is not zero and [xmin] differs from
    [xmax], so that the step divides by no zero. *)
Theorem uniform_state_is_steady (n_x n_g : Z) (x0 x1 : R) g (u0 : vec3 R) U (dt : R) :
  FVGrid_init n_x n_g x0 x1 = Ok g → (1 ≤ n_x)%Z → (2 ≤ n_g)%Z → ghosted g U →
  Forall (eq u0) U → vget URHO u0 ≠ 0%R → x0 ≠ x1 →
  mol_step riemann g U dt = Ok U.
Proof.
  intros Hg Hnx Hng HU Huni _ _.
  assert (Hinv : grid_inv g) by (eapply FVGrid_init_grid_inv; [done|lia..]).
  pose proof (FVGrid_init_inv _ _ _ _ _ Hg) as (Hgnx & Hgng & Hilo & Hihi & _).
  assert (Hg2 : (2 ≤ ng g)%Z) by lia.
  assert (Hcell : ∀ i, (0 ≤ i < Z.of_nat (length U))%Z → at_ U i = u0).
  { intros i Hi. unfold at_. symmetry.
    eapply (Forall_lookup_1 _ _ (Z.to_nat i) _ Huni).
    apply list_lookup_lookup_total_lt. lia. }
  assert (Hfill : fill_BCs g U = Ok U).
  { destruct (fill_BCs_vector_at g U Hinv HU) as (U1 & HU1 & Hl1 & Hv1).
    rewrite HU1. f_equal. apply list_eq_total; [done|].
    intros j Hj. rewrite Hl1 in Hj. rewrite Hv1 by done.
    unfold ghosted in HU. rewrite !Hcell by lia.
    assert (Hj' : U !!! j = u0).
    { replace j with (Z.to_nat (Z.of_nat j)) by lia. apply Hcell. lia. }
    rewrite Hj'. by repeat case_decide. }
  destruct (mol_step_ok riemann g U dt Hinv Hg2 HU)
    as (U1 & k1 & Um & k2 & HU1 & Hk1 & HUm & Hk2 & Hstep & _).
  assert (U1 = U) as -> by congruence.
  rewrite (uniform_flux_divergence g u0 U Hinv Hg2 HU Huni) in Hk1.
  injection Hk1 as <-. rewrite zip_axpy_zero, Hfill in HUm.
  injection HUm as <-.
  rewrite (uniform_flux_divergence g u0 U Hinv Hg2 HU Huni) in Hk2.
  injection Hk2 as <-. by rewrite Hstep, zip_axpy_zero.
Qed.

(** The timestep of a state with one physical interior cell, on a grid with
    [xmin < xmax]. *)
Lemma timestep_real g U (i : Z) :
  grid_inv g → ghosted g U → (0 < dx g)%R → (ilo g ≤ i ≤ ihi g)%Z →
  (0 < vget QRHO (prim (at_ U i)))%R → (0 < vget QP (prim (at_ U i)))%R →
  timestep g U = Ok (div (mul C (dx g)) (s_max g U)) ∧ (0 < s_max g U)%R ∧
  (0 < div (mul C (dx g)) (s_max g U))%R.
Proof.
  intros Hinv HU Hdx Hi Hrho Hp.
  split; [by apply timestep_ok|].
  assert (Hs : (0 < s_max g U)%R).
  { destruct (s_max_is_maximum g U Hinv) as [Hub _].
    eapply Rlt_le_trans; [|apply (Hub i); lia].
    unfold signal_speed, sound_speed. real_arith.
    assert (0 < R_sqrt.sqrt (14 / 10 * vget QP (prim (at_ U i))
                             / vget QRHO (prim (at_ U i))))%R.
    { apply sqrt_lt_R0. apply Rdiv_lt_0_compat; lra. }
    pose proof (Rabs_pos (vget QU (prim (at_ U i)))). lra. }
  split; [done|]. real_arith. apply Rdiv_lt_0_compat; [lra | done].
Qed.

(** X11.  The CFL condition: for a state with positive density and pressure
    in its interior cells, on a grid with [xmin < xmax], no signal crosses
    more than the fraction [C] of a cell in one timestep:
    [(|u| + c) dt <= C dx] in every interior cell, with equality in one. *)
Theorem timestep_cfl (n_x n_g : Z) (x0 x1 : R) g U :
  FVGrid_init n_x n_g x0 x1 = Ok g → (1 ≤ n_x)%Z → (0 ≤ n_g)%Z → (x0 < x1)%R →
  ghosted g U →
  (∀ i, (ilo g ≤ i ≤ ihi g)%Z →
        (0 < vget QRHO (prim (at_ U i)))%R ∧ (0 < vget QP (prim (at_ U i)))%R) →
  ∃ dt, timestep g U = Ok dt ∧
    (∀ i, (ilo g ≤ i ≤ ihi g)%Z →
          (signal_speed (prim (at_ U i)) * dt <= C * dx g)%R) ∧
    (∃ i, (ilo g ≤ i ≤ ihi g)%Z ∧
          (signal_speed (prim (at_ U i)) * dt = C * dx g)%R).
Proof.
  intros Hg Hnx Hng Hx HU Hpos.
  assert (Hinv : grid_inv g) by (eapply FVGrid_init_grid_inv; done).
  pose proof (FVGrid_init_inv _ _ _ _ _ Hg) as (Hgnx & Hgng & Hilo & Hihi & _ & _ & Hdx).
  assert (Hd : (0 < dx g)%R).
  { rewrite Hdx. real_arith. apply Rdiv_lt_0_compat; [lra|]. apply IZR_lt. lia. }
  destruct (Hpos (ilo g)) as [Hrho Hp]; [lia|].
  destruct (timestep_real g U (ilo g) Hinv HU Hd ltac:(lia) Hrho Hp) as (Hdt & Hs & _).
  destruct (s_max_is_maximum g U Hinv) as [Hub (k & Hk & Hmax)].
  eexists. split; [exact Hdt|]. real_arith.
  split.
  - intros i Hi. specialize (Hub i Hi).
    set (v := signal_speed (prim (at_ U i))) in *.
    set (s := s_max g U) in *.
    replace (v * (8 / 10 * dx g / s))%R with ((8 / 10 * dx g) * (v / s))%R
      by (field; lra).
    assert (Hle : (v / s <= 1)%R).
    { apply (Rmult_le_reg_r s); [done|].
      unfold Rdiv. rewrite Rmult_assoc, Rinv_l by lra. lra. }
    assert (0 < 8 / 10 * dx g)%R by lra. nra.
  - exists k. split; [done|]. rewrite <- Hmax. field. lra.
Qed.

End RealMore.

(** * More of the code: the driver *)

Section DriverFacts.
Context {F : Type} `{!Scalar F, !Driver F}.
Variable riemann : vec3 F → vec3 F → F → vec3 F.
Implicit Types (g : FVGrid F) (U : list (vec3 F)).

Lemma length_x (n_x n_g : Z) (x0 x1 : F) g :
  FVGrid_init n_x n_g x0 x1 = Ok g → length (x g) = Z.to_nat (n_x + 2 * n_g).
Proof.
  unfold FVGrid_init, float_div_int.
  destruct (n_x =? 0)%Z; [discriminate|].
  destruct (int_fits n_x); [|discriminate].
  intros [= <-]. cbn [x]. rewrite length_fmap, length_zrange. f_equal. lia.
Qed.

(** The six masked assignments of the initial conditions, cell by cell. *)
Lemma initial_conditions_ok g U :
  length (x g) = length U →
  initial_conditions g U
  = Ok (zip_with (λ xc u,
                    if geb xc lit_0_5
                    then cons_of_prim (V3 lit_0_125 zero lit_0_1)
                    else if ltb xc lit_0_5
                         then cons_of_prim (V3 lit_1_0 zero lit_1_0) else u)
                 (x g) U).
Proof.
  intros Hlen. unfold initial_conditions. cbv zeta. unfold mask_set_col.
  do 6 (rewrite decide_True by (rewrite ?length_zip_with, !length_fmap; lia);
        rewrite bind_Ok).
  f_equal. apply list_eq_total; [rewrite !length_zip_with, !length_fmap; lia|].
  intros j Hj.
  assert (j < length U) by (revert Hj; rewrite !length_zip_with, !length_fmap; lia).
  repeat (erewrite zip_at by (rewrite ?length_zip_with, ?length_fmap; lia)).
  repeat (erewrite fmap_at by lia).
  destruct (geb (x g !!! j) lit_0_5), (ltb (x g !!! j) lit_0_5); reflexivity.
Qed.

Lemma array_max_returns U : U ≠ [] → returns (array_max U).
Proof. destruct U as [|u U]; [done|]. intros _. unfold array_max. simpl. by eexists. Qed.

(** One pass of the loop on a grid with interior cells and two ghost cells. *)
Lemma mol_iter_ok g (tmax : F) U (t : F) :
  grid_inv g → (2 ≤ ng g)%Z → ghosted g U →
  ∃ m U',
    let dt := div (mul C (dx g)) (s_max g U) in
    let dt' := if ltb tmax (add t dt) then sub tmax t else dt in
    mol_iter riemann g tmax U t = Ok (add t dt', U', (t, dt', m)) ∧
    mol_step riemann g U dt' = Ok U' ∧ ghosted g U'.
Proof.
  intros Hinv Hg2 HU. cbv zeta.
  set (dt' := if ltb tmax (add t (div (mul C (dx g)) (s_max g U)))
              then sub tmax t else div (mul C (dx g)) (s_max g U)).
  destruct (array_max_returns U) as [m Hm].
  { destruct Hinv as (? & ? & ? & ?). unfold ghosted in HU.
    intros ->. simpl in HU. lia. }
  destruct (mol_step_ok riemann g U dt' Hinv Hg2 HU)
    as (U1 & k1 & Um & k2 & _ & _ & _ & _ & Hstep & Hl1 & _ & _ & Hl2).
  exists m, (zip_with (axpy dt') U1 k2).
  split; [|split; [done|]].
  - unfold mol_iter. rewrite timestep_ok by done. rewrite bind_Ok.
    fold dt'. by rewrite Hm, bind_Ok, Hstep.
  - unfold ghosted in *. rewrite length_zip_with. lia.
Qed.

(** The loop never raises. *)
Lemma mol_loop_chain g (tmax : F) (fuel : nat) U (t : F) (out : list (F * F * F)) :
  grid_inv g → (2 ≤ ng g)%Z → ghosted g U →
  mol_loop riemann fuel g tmax U t out = None ∨
  ∃ U' lines t_end,
    mol_loop riemann fuel g tmax U t out = Some (Ok (U', out ++ lines)) ∧
    ghosted g U' ∧ printed_chain tmax t lines t_end.
Proof.
  intros Hinv Hg2.
  revert U t out. induction fuel as [|fuel IH]; intros U t out HU; cbn [mol_loop].
  - destruct (ltb t tmax) eqn:Ht; [by left|]. right.
    exists U, [], t. rewrite app_nil_r. repeat split; [done | by constructor].
  - destruct (ltb t tmax) eqn:Ht.
    2: { right. exists U, [], t. rewrite app_nil_r.
         repeat split; [done | by constructor]. }
    destruct (mol_iter_ok g tmax U t Hinv Hg2 HU) as (m & U' & Hit & _ & HU').
    cbv zeta in Hit. rewrite Hit.
    set (dt := div (mul C (dx g)) (s_max g U)) in *.
    set (dt' := if ltb tmax (add t dt) then sub tmax t else dt) in *.
    assert (Hclamp : ltb tmax (add t dt') = false ∨ dt' = sub tmax t).
    { unfold dt'. destruct (ltb tmax (add t dt)) eqn:Hc; [by right | by left]. }
    destruct (IH U' (add t dt') (out ++ [(t, dt', m)]) HU')
      as [Hnone | (U'' & rest & t_end & Hloop & HU'' & Hchain)]; [by left|].
    right. exists U'', ((t, dt', m) :: rest), t_end.
    split; [by rewrite Hloop, <- app_assoc|]. split; [done|].
    by constructor.
Qed.

(** X12.  [mol_solve] needs a positive number of cells: for [nx = 0] it
    raises the ZeroDivisionError of the grid constructor, for a negative [nx]
    of the [int64] range a ValueError, and for an [nx] that cannot be
    converted to a float the OverflowError of the grid constructor.  (The
    loop is entered because [0.0 < 0.2].) *)
Theorem mol_solve_nonpositive_nx (fuel : nat) (n_x : Z) :
  ltb (zero : F) lit_0_2 = true → (n_x ≤ 0)%Z →
  (- 2 ^ 63 ≤ n_x)%Z ∨ int_fits n_x = false →
  mol_solve riemann (S fuel) n_x
  = Some (Raise (if decide (n_x = 0%Z) then ZeroDivisionError
                 else if int_fits n_x then ValueError else OverflowError)).
Proof.
  intros Hlt Hnx _. unfold mol_solve. case_decide as Hz.
  - subst. done.
  - destruct (int_fits n_x) eqn:Hfit.
    2: { unfold FVGrid_init, float_div_int.
         destruct (Z.eqb_spec n_x 0); [done|]. by rewrite Hfit. }
    destruct (FVGrid_init_returns n_x 2 zero lit_1_0 Hz Hfit) as [g Hg].
    rewrite Hg.
    pose proof (FVGrid_init_inv _ _ _ _ _ Hg) as (Hgnx & Hgng & Hilo & Hihi & _).
    unfold scratch_array. rewrite Hgnx, Hgng.
    destruct (Z.ltb_spec (n_x + 2 * 2) 0) as [Hneg|Hpos]; [done|].
    rewrite bind_Ok.
    rewrite initial_conditions_ok
      by (rewrite (length_x _ _ _ _ _ Hg), length_replicate; done).
    cbn [mol_loop]. rewrite Hlt. unfold mol_iter.
    rewrite timestep_empty_interior; [done | congruence | congruence | lia | lia |].
    unfold ghosted. rewrite length_zip_with, (length_x _ _ _ _ _ Hg), length_replicate.
    lia.
Qed.

(** X13.  The initial state of [mol_solve]: when the two masks [x < 0.5] and
    [x >= 0.5] are complementary (no cell centre is NaN), the masked
    assignments leave no cell of the zeroed array unset.  A cell whose centre
    is below [0.5], as the code computes and compares it, holds the conserved
    values of the left state [(1, 0, 1)] of Sod's problem, every other cell
    those of the right state [(0.125, 0, 0.1)], ghost cells included. *)
Theorem initial_conditions_sod (n_x n_g : Z) (x0 x1 : F) g :
  FVGrid_init n_x n_g x0 x1 = Ok g → (0 ≤ n_x + 2 * n_g)%Z →
  Forall (λ xc, geb xc lit_0_5 = negb (ltb xc lit_0_5)) (x g) →
  ∃ U0, (U ← scratch_array g; initial_conditions g U) = Ok U0 ∧
    ghosted g U0 ∧
    ∀ i, (0 ≤ i < n_x + 2 * n_g)%Z →
      at_ U0 i = if ltb (at_ (x g) i) lit_0_5
                 then cons_of_prim (V3 lit_1_0 zero lit_1_0)
                 else cons_of_prim (V3 lit_0_125 zero lit_0_1).
Proof.
  intros Hg Hn Hmask.
  pose proof (FVGrid_init_inv _ _ _ _ _ Hg) as (Hgnx & Hgng & _).
  pose proof (length_x _ _ _ _ _ Hg) as Hlx.
  rewrite scratch_array_ok by lia. rewrite bind_Ok.
  rewrite initial_conditions_ok by (rewrite length_replicate; lia).
  eexists. split; [done|].
  split; [unfold ghosted; rewrite length_zip_with, length_replicate; lia|].
  intros i Hi. unfold at_.
  rewrite zip_at by (rewrite ?length_replicate; lia).
  assert (Hin : x g !! Z.to_nat i = Some (x g !!! Z.to_nat i))
    by (apply list_lookup_lookup_total_lt; lia).
  rewrite (Forall_lookup_1 _ _ _ _ Hmask Hin).
  by destruct (ltb (x g !!! Z.to_nat i) lit_0_5).
Qed.

(** X15.  The time loop on a grid with interior cells and two ghost cells
    never raises, whatever the arithmetic, the solver and the state.  If it
    ends within the passes it is given, the state it returns has ghosted
    length, and the lines it printed form a chain: every line is printed at
    a time below [tmax], its step does not pass [tmax] or is the clamped step
    [tmax - t], the next line starts at [t + dt], and the loop is left at the
    first time that is not below [tmax]. *)
Theorem mol_loop_never_raises (n_x n_g : Z) (x0 x1 : F) g (tmax : F) (fuel : nat)
    U (t : F) (out : list (F * F * F)) :
  FVGrid_init n_x n_g x0 x1 = Ok g → (1 ≤ n_x)%Z → (2 ≤ n_g)%Z → ghosted g U →
  mol_loop riemann fuel g tmax U t out = None ∨
  ∃ U' lines t_end,
    mol_loop riemann fuel g tmax U t out = Some (Ok (U', out ++ lines)) ∧
    ghosted g U' ∧ printed_chain tmax t lines t_end.
Proof.
  intros Hg Hnx Hng HU.
  assert (Hinv : grid_inv g) by (eapply FVGrid_init_grid_inv; [done|lia..]).
  assert (Hg2 : (2 ≤ ng g)%Z).
  { apply FVGrid_init_inv in Hg as (_ & -> & _). done. }
  by apply mol_loop_chain.
Qed.

(** X16.  [mol_solve] with between one and a million cells never raises,
    whatever the arithmetic and the solver.  If its loop ends within the
    passes it is given, it returns a state of [nx + 4] cells, and the printed
    lines form a chain that starts at time [0.0] with [tmax = 0.2]. *)
Theorem mol_solve_never_raises (fuel : nat) (n_x : Z) :
  (1 ≤ n_x ≤ 1000000)%Z → int_fits n_x = true →
  mol_solve riemann fuel n_x = None ∨
  ∃ U lines t_end,
    mol_solve riemann fuel n_x = Some (Ok (U, lines)) ∧
    length U = Z.to_nat (n_x + 4) ∧ printed_chain lit_0_2 zero lines t_end.
Proof.
  intros Hnx Hfit. unfold mol_solve.
  destruct (FVGrid_init_returns n_x 2 zero lit_1_0 ltac:(lia) Hfit) as [g Hg].
  rewrite Hg.
  pose proof (FVGrid_init_inv _ _ _ _ _ Hg) as (Hgnx & Hgng & _).
  pose proof (length_x _ _ _ _ _ Hg) as Hlx.
  rewrite scratch_array_ok by lia. rewrite bind_Ok.
  rewrite initial_conditions_ok by (rewrite length_replicate; lia).
  assert (Hinv : grid_inv g) by (eapply FVGrid_init_grid_inv; [done|lia..]).
  match goal with |- context [mol_loop _ _ _ _ ?U0 _ _] =>
    assert (HU0 : ghosted g U0)
      by (unfold ghosted; rewrite length_zip_with, length_replicate; lia);
    destruct (mol_loop_chain g lit_0_2 fuel U0 zero [] Hinv ltac:(lia) HU0)
      as [Hnone | (U' & lines & t_end & Hloop & HU' & Hchain)]; [by left|]
  end.
  right. exists U', lines, t_end. split; [done|]. split; [|exact Hchain].
  unfold ghosted in HU'. lia.
Qed.

(** X18.  The ghost cells lag one step behind: in the state that the loop
    body returns, every ghost cell below the interior holds the first
    interior cell of the state the body was given, plus [dt] times zero, and
    every ghost cell above it the last one, not the cells that the body has
    just computed. *)
Theorem mol_step_ghost_cells (n_x n_g : Z) (x0 x1 : F) g U (dt : F) :
  FVGrid_init n_x n_g x0 x1 = Ok g → (1 ≤ n_x)%Z → (2 ≤ n_g)%Z → ghosted g U →
  ∃ U', mol_step riemann g U dt = Ok U' ∧ ghosted g U' ∧
    (∀ i, (0 ≤ i < ilo g)%Z →
          at_ U' i = axpy dt (at_ U (ilo g)) (V3 zero zero zero)) ∧
    (∀ i, (ihi g < i < n_x + 2 * n_g)%Z →
          at_ U' i = axpy dt (at_ U (ihi g)) (V3 zero zero zero)).
Proof.
  intros Hg Hnx Hng HU.
  assert (Hinv : grid_inv g) by (eapply FVGrid_init_grid_inv; [done|lia..]).
  pose proof (FVGrid_init_inv _ _ _ _ _ Hg) as (Hgnx & Hgng & Hilo & Hihi & _).
  assert (Hg2 : (2 ≤ ng g)%Z) by lia.
  destruct (mol_step_ok riemann g U dt Hinv Hg2 HU)
    as (U1 & k1 & Um & k2 & HU1 & Hk1 & HUm & Hk2 & Hstep & Hl1 & Hlk1 & Hlm & Hlk2).
  assert (Hgm : ghosted g Um) by (unfold ghosted in *; congruence).
  destruct (make_flux_divergence_ok riemann g Um Hinv Hg2 Hgm)
    as (q_l & q_r & flux & A & _ & _ & HA & _ & _ & _ & _ & _ & HAout).
  assert (A = k2) as -> by congruence.
  destruct (fill_BCs_vector_at g U Hinv HU) as (W & HW & HlW & HvW).
  assert (W = U1) as -> by congruence.
  unfold ghosted in HU.
  assert (Hghost : ∀ i, (0 ≤ i < ilo g ∨ ihi g < i < n_x + 2 * n_g)%Z →
            at_ (zip_with (axpy dt) U1 k2) i
            = axpy dt (at_ U1 i) (V3 zero zero zero)).
  { intros i Hi. unfold at_.
    rewrite zip_at by lia.
    fold (at_ k2 i). by rewrite HAout by lia. }
  exists (zip_with (axpy dt) U1 k2). split; [done|].
  split; [unfold ghosted; rewrite length_zip_with; lia|].
  split; intros i Hi; rewrite Hghost by lia; unfold at_ at 1;
    rewrite HvW by lia; repeat case_decide; try lia; done.
Qed.

End DriverFacts.

Section RealDriver.
Variable riemann : vec3 R → vec3 R → R → vec3 R.
Implicit Types (g : FVGrid R) (U : list (vec3 R)).

Lemma ltb_real_true (a b : R) : ltb a b = true ↔ (a < b)%R.
Proof. cbn [ltb real_driver]. destruct (Rlt_dec a b); split; (done || lra). Qed.

Lemma ltb_real_false (a b : R) : ltb a b = false ↔ (b <= a)%R.
Proof. cbn [ltb real_driver]. destruct (Rlt_dec a b); split; (done || lra). Qed.

(** X14.  One pass of the time loop: with a positive timestep [dt] and
    [t < tmax] the pass returns, advances the time to [min (t + dt) tmax],
    which is later than [t] and not later than [tmax], and prints the time at
    which it started. *)
Theorem mol_iter_time (n_x n_g : Z) (x0 x1 : R) g (tmax : R) U (t dt : R) :
  FVGrid_init n_x n_g x0 x1 = Ok g → (1 ≤ n_x)%Z → (2 ≤ n_g)%Z → ghosted g U →
  timestep g U = Ok dt → (0 < dt)%R → (t < tmax)%R →
  ∃ U' dt' m,
    mol_iter riemann g tmax U t = Ok (Rmin (t + dt) tmax, U', (t, dt', m)) ∧
    mol_step riemann g U dt' = Ok U' ∧ ghosted g U' ∧
    (t + dt' = Rmin (t + dt) tmax)%R ∧ (0 < dt' <= dt)%R ∧
    (t < Rmin (t + dt) tmax <= tmax)%R.
Proof.
  intros Hg Hnx Hng HU Hdt Hpos Ht.
  assert (Hinv : grid_inv g) by (eapply FVGrid_init_grid_inv; [done|lia..]).
  assert (Hg2 : (2 ≤ ng g)%Z).
  { apply FVGrid_init_inv in Hg as (_ & -> & _). done. }
  destruct (mol_iter_ok riemann g tmax U t Hinv Hg2 HU) as (m & U' & Hit & Hst & HU').
  cbv zeta in Hit, Hst.
  assert (Hdt' : div (mul C (dx g)) (s_max g U) = dt)
    by (rewrite timestep_ok in Hdt by done; congruence).
  rewrite Hdt' in Hit, Hst. cbn [add sub real_scalar] in Hit, Hst.
  destruct (ltb tmax (t + dt)%R) eqn:Hc.
  - apply ltb_real_true in Hc.
    exists U', (tmax - t)%R, m.
    rewrite Rmin_right by lra.
    replace (t + (tmax - t))%R with tmax in Hit by lra.
    repeat split; try done; lra.
  - apply ltb_real_false in Hc.
    exists U', dt, m. rewrite Rmin_left by lra.
    repeat split; try done; lra.
Qed.

End RealDriver.

(** * What the ghost cells are worth *)

Section GhostFacts.
Context {F : Type} `{!Scalar F}.
Variable riemann : vec3 F → vec3 F → F → vec3 F.
Implicit Types (g : FVGrid F) (U V : list (vec3 F)).

Lemma fill_BCs_interior_ext g U V :
  grid_inv g → ghosted g U → ghosted g V →
  (∀ i, (ilo g ≤ i ≤ ihi g)%Z → at_ U i = at_ V i) →
  fill_BCs g U = fill_BCs g V.
Proof.
  intros Hinv HU HV Heq.
  destruct (fill_BCs_vector_at g U Hinv HU) as (U' & HfU & HlU & HvU).
  destruct (fill_BCs_vector_at g V Hinv HV) as (V' & HfV & HlV & HvV).
  rewrite HfU, HfV. f_equal.
  unfold ghosted in HU, HV. destruct Hinv as (? & ? & ? & ?).
  apply list_eq_total; [lia|].
  intros k Hk. rewrite HvU, HvV by lia.
  repeat case_decide; try (apply Heq; lia).
  specialize (Heq (Z.of_nat k) ltac:(lia)). unfold at_ in Heq.
  by rewrite Nat2Z.id in Heq.
Qed.

Lemma s_max_interior_ext g U V :
  (∀ i, (ilo g ≤ i ≤ ihi g)%Z → at_ U i = at_ V i) →
  (ilo g ≤ ihi g)%Z → s_max g U = s_max g V.
Proof.
  intros Heq Hle. unfold s_max. rewrite Heq by lia. f_equal.
  apply list_eq_total; [by rewrite !length_fmap|].
  intros k Hk. rewrite length_fmap, length_zrange in Hk.
  erewrite !fmap_at by (rewrite length_zrange; lia).
  rewrite zrange_at by lia. rewrite Heq by lia. done.
Qed.

(** X17.  The ghost cells of a state are never read: for two states that
    agree on the interior cells, [timestep] returns the same number and the
    loop body the same result, whatever the ghost cells hold. *)
Theorem ghost_cells_never_read (n_x n_g : Z) (x0 x1 : F) g U V (dt : F) :
  FVGrid_init n_x n_g x0 x1 = Ok g → (1 ≤ n_x)%Z → (0 ≤ n_g)%Z →
  ghosted g U → ghosted g V →
  (∀ i, (ilo g ≤ i ≤ ihi g)%Z → at_ U i = at_ V i) →
  timestep g U = timestep g V ∧
  mol_step riemann g U dt = mol_step riemann g V dt.
Proof.
  intros Hg Hnx Hng HU HV Heq.
  assert (Hinv : grid_inv g) by (eapply FVGrid_init_grid_inv; done).
  pose proof (FVGrid_init_inv _ _ _ _ _ Hg) as (Hgnx & Hgng & Hilo & Hihi & _).
  split.
  - rewrite !timestep_ok by done. do 2 f_equal.
    apply s_max_interior_ext; [done | lia].
  - unfold mol_step. by rewrite (fill_BCs_interior_ext g U V).
Qed.

End GhostFacts.

(** * The boundary in the reconstruction, in binary64 *)

Section FloatBoundary.
Implicit Types (g : FVGrid float) (U : list (vec3 float)).

(** X9.  Zero-gradient boundaries in the reconstruction: when the primitive
    values of the first and of the last interior cell are finite numbers,
    then after [fill_BCs] the left state of the first interface is the
    primitive state of the first interior cell plus [0.0], the same numbers,
    and the right state of the last interface is the primitive state of the
    last interior cell. *)
Theorem boundary_interface_states (n_x n_g : Z) (x0 x1 : float) g U :
  FVGrid_init n_x n_g x0 x1 = Ok g → (1 ≤ n_x)%Z → (2 ≤ n_g)%Z → ghosted g U →
  finite3 (prim (at_ U (ilo g))) = true → finite3 (prim (at_ U (ihi g))) = true →
  ∃ U1 q_l q_r,
    fill_BCs g U = Ok U1 ∧ states g U1 = Ok (q_l, q_r) ∧
    at_ q_l (ilo g) = vzip add (prim (at_ U (ilo g))) (V3 zero zero zero) ∧
    same3 (at_ q_l (ilo g)) (prim (at_ U (ilo g))) = true ∧
    at_ q_r (ihi g + 1) = prim (at_ U (ihi g)).
Proof.
  intros Hg Hnx Hng HU Hlo Hhi.
  assert (Hinv : grid_inv g) by (eapply FVGrid_init_grid_inv; [done|lia..]).
  pose proof (FVGrid_init_inv _ _ _ _ _ Hg) as (Hgnx & Hgng & Hilo & Hihi & _).
  assert (Hg2 : (2 ≤ ng g)%Z) by lia.
  destruct (fill_BCs_vector_at g U Hinv HU) as (U1 & HU1 & Hl1 & Hv1).
  assert (HgU1 : ghosted g U1) by (unfold ghosted in *; congruence).
  destruct (states_ok g U1 Hinv Hg2 HgU1) as (q_l & q_r & Hst & _ & _ & Hlr & _).
  exists U1, q_l, q_r. split; [done|]. split; [done|].
  unfold ghosted in HU.
  assert (Hat : ∀ i, (0 ≤ i < n_x + 2 * n_g)%Z →
            at_ (prim <$> U1) i
            = prim (if decide (i < ilo g)%Z then at_ U (ilo g)
                    else if decide (ihi g < i)%Z then at_ U (ihi g) else at_ U i)).
  { intros i Hi. rewrite at_fmap_prim by lia. f_equal. unfold at_ at 1.
    rewrite Hv1 by lia. repeat case_decide; try lia; done. }
  destruct (Hlr (ilo g)) as [-> _]; [lia|].
  destruct (Hlr (ihi g + 1)%Z) as [_ ->]; [lia|].
  unfold Q_left, Q_right, slope. rewrite !Hat by lia.
  repeat case_decide; try lia.
  replace (ilo g - 1 + 1)%Z with (ilo g) by lia.
  replace (ihi g + 1 - 1)%Z with (ihi g) by lia.
  rewrite !float_slope_zero by done.
  destruct (float_plus_half_zero _ Hlo) as [-> ->].
  by rewrite float_minus_half_zero.
Qed.

End FloatBoundary.




(** * The further properties at concrete inputs *)

Lemma fill_BCs_ghost_values_witness :
  ∃ g, FVGrid_init 4 2 0%float 1%float = Ok g ∧
    ghosted g ramp_field ∧ ghosted g sod_state ∧
    ∃ a' U', fill_BCs g ramp_field = Ok a' ∧ fill_BCs g sod_state = Ok U' ∧
      length a' = length ramp_field ∧ length U' = length sod_state ∧
      (∀ i, (0 ≤ i < ilo g)%Z →
            at_ a' i = at_ ramp_field (ilo g) ∧ at_ U' i = at_ sod_state (ilo g)) ∧
      (∀ i, (ihi g < i < 4 + 2 * 2)%Z →
            at_ a' i = at_ ramp_field (ihi g) ∧ at_ U' i = at_ sod_state (ihi g)).
Proof.
  eexists. split; [reflexivity|]. split; [reflexivity|]. split; [reflexivity|].
  apply (fill_BCs_ghost_values 4 2 0%float 1%float _ ramp_field sod_state);
    [reflexivity | lia | lia | reflexivity | reflexivity].
Defined.

Lemma fill_BCs_idempotent_witness :
  ∃ g, FVGrid_init 4 2 0%float 1%float = Ok g ∧
    fill_BCs g ramp_field = Ok [2; 2; 2; 3; 4; 5; 5; 5]%float ∧
    fill_BCs g sod_state = Ok sod_state ∧
    fill_BCs g [2; 2; 2; 3; 4; 5; 5; 5]%float = Ok [2; 2; 2; 3; 4; 5; 5; 5]%float ∧
    fill_BCs g sod_state = Ok sod_state.
Proof.
  eexists. split; [reflexivity|].
  split; [vm_compute; reflexivity|]. split; [vm_compute; reflexivity|].
  apply (fill_BCs_idempotent 4 2 0%float 1%float _ ramp_field sod_state);
    [reflexivity | lia | lia | reflexivity | reflexivity
    | vm_compute; reflexivity | vm_compute; reflexivity].
Defined.

Lemma fill_BCs_short_array_witness :
  ∃ g, FVGrid_init 4 2 0%float 1%float = Ok g ∧
    fill_BCs g ([] : list float) = Raise IndexError ∧
    fill_BCs g (take 2 sod_state) = Raise IndexError.
Proof.
  eexists. split; [reflexivity|].
  apply (fill_BCs_short_array 4 2 0%float 1%float _ [] (take 2 sod_state));
    [reflexivity | lia | simpl; lia | simpl; lia].
Defined.

Lemma states_needs_two_ghost_cells_witness :
  ∃ g, FVGrid_init 4 1 0%float 1%float = Ok g ∧ ghosted g (take 6 sod_state) ∧
    (∀ n, length (col (prim <$> take 6 sod_state) (Some (ilo g)) (Some (ihi g + 3)%Z) n)
          = 5 ∧
          length (col (prim <$> take 6 sod_state) (Some (ilo g - 2)%Z)
                      (Some (ihi g + 1)%Z) n) = 0) ∧
    states g (take 6 sod_state) = Raise ValueError ∧
    make_flux_divergence sample_riemann g (take 6 sod_state) = Raise ValueError ∧
    mol_step sample_riemann g (take 6 sod_state) 0.125%float = Raise ValueError.
Proof.
  eexists. split; [reflexivity|]. split; [reflexivity|].
  apply (states_needs_two_ghost_cells sample_riemann 4 0%float 1%float _ (take 6 sod_state));
    [reflexivity | lia | reflexivity].
Defined.

Lemma timestep_negative_nx_witness :
  ∃ g, FVGrid_init (-2) 2 0%float 1%float = Ok g ∧ ghosted g (take 2 sod_state) ∧
    timestep g (take 2 sod_state) = Raise ValueError.
Proof.
  eexists. split; [reflexivity|]. split; [reflexivity|].
  apply (timestep_negative_nx (-2) 2 0%float 1%float _ (take 2 sod_state));
    [reflexivity | lia | lia | reflexivity].
Defined.

Lemma make_flux_divergence_stencil_witness :
  ∃ g, FVGrid_init 4 2 0%float 1%float = Ok g ∧
    ghosted g sod_state ∧ ghosted g (take 5 sod_state ++ take 3 sod_state) ∧
    ∃ A B, make_flux_divergence sample_riemann g sod_state = Ok A ∧
      make_flux_divergence sample_riemann g (take 5 sod_state ++ take 3 sod_state)
      = Ok B ∧
      at_ A 2 = at_ B 2.
Proof.
  eexists. split; [reflexivity|]. split; [reflexivity|]. split; [reflexivity|].
  apply (make_flux_divergence_stencil sample_riemann 4 2 0%float 1%float _
           sod_state (take 5 sod_state ++ take 3 sod_state) 2);
    [reflexivity | lia | lia | reflexivity | reflexivity | simpl; lia |].
  intros j Hj.
  assert (Hc : j = 0%Z ∨ j = 1%Z ∨ j = 2%Z ∨ j = 3%Z ∨ j = 4%Z) by lia.
  destruct Hc as [-> | [-> | [-> | [-> | ->]]]]; reflexivity.
Defined.

Lemma cell_centres_witness :
  ∃ g, FVGrid_init 4 2 0%R 1%R = Ok g ∧
    (ihi g - ilo g + 1)%Z = 4%Z ∧
    length (x g) = Z.to_nat (4 + 2 * 2) ∧
    at_ (x g) (ilo g) = (0 + dx g / 2)%R ∧
    at_ (x g) (ihi g) = (1 - dx g / 2)%R ∧
    (∀ i, (0 ≤ i < 4 + 2 * 2 - 1)%Z →
          (at_ (x g) (i + 1) - at_ (x g) i)%R = dx g).
Proof.
  eexists. split; [reflexivity|].
  apply (cell_centres 4 2 0%R 1%R); [reflexivity | lia | lia].
Defined.

Lemma cons_to_prim_round_trip_witness :
  ∃ g, FVGrid_init 4 2 0%R 1%R = Ok g ∧ ghosted g uniform_state ∧
    Forall (λ w, vget QRHO w ≠ 0%R) uniform_state ∧
    cons_to_prim g (cons_of_prim <$> uniform_state) = Ok uniform_state.
Proof.
  assert (Hrho : Forall (λ w : vec3 R, vget QRHO w ≠ 0%R) uniform_state).
  { apply Forall_replicate. cbn. lra. }
  eexists. split; [reflexivity|]. split; [reflexivity|]. split; [exact Hrho|].
  apply (cons_to_prim_round_trip 4 2 0%R 1%R _ uniform_state);
    [reflexivity | reflexivity | exact Hrho].
Defined.

Lemma boundary_interface_states_witness :
  ∃ g, FVGrid_init 4 2 0%float 1%float = Ok g ∧ ghosted g unfilled_state ∧
    finite3 (prim (at_ unfilled_state (ilo g))) = true ∧
    finite3 (prim (at_ unfilled_state (ihi g))) = true ∧
    ∃ U1 q_l q_r,
      fill_BCs g unfilled_state = Ok U1 ∧ states g U1 = Ok (q_l, q_r) ∧
      at_ q_l (ilo g)
      = vzip add (prim (at_ unfilled_state (ilo g))) (V3 zero zero zero) ∧
      same3 (at_ q_l (ilo g)) (prim (at_ unfilled_state (ilo g))) = true ∧
      at_ q_r (ihi g + 1) = prim (at_ unfilled_state (ihi g)).
Proof.
  eexists. split; [reflexivity|]. split; [reflexivity|].
  split; [vm_compute; reflexivity|]. split; [vm_compute; reflexivity|].
  apply (boundary_interface_states 4 2 0%float 1%float _ unfilled_state);
    [reflexivity | lia | lia | reflexivity
    | vm_compute; reflexivity | vm_compute; reflexivity].
Defined.

Lemma uniform_state_is_steady_witness :
  ∃ g, FVGrid_init 4 2 0%R 1%R = Ok g ∧ ghosted g uniform_state ∧
    Forall (eq (V3 1 0 (5 / 2))%R) uniform_state ∧
    vget URHO (V3 1 0 (5 / 2))%R ≠ 0%R ∧ 0%R ≠ 1%R ∧
    mol_step sample_riemann g uniform_state (1 / 100)%R = Ok uniform_state.
Proof.
  assert (Hu : Forall (eq (V3 1 0 (5 / 2))%R) uniform_state).
  { apply Forall_replicate. reflexivity. }
  assert (Hrho : vget URHO (V3 1 0 (5 / 2))%R ≠ 0%R) by (cbn; lra).
  assert (Hx : 0%R ≠ 1%R) by lra.
  eexists. split; [reflexivity|]. split; [reflexivity|]. split; [exact Hu|].
  split; [exact Hrho|]. split; [exact Hx|].
  apply (uniform_state_is_steady sample_riemann 4 2 0%R 1%R _ (V3 1 0 (5 / 2))%R);
    [reflexivity | lia | lia | reflexivity | exact Hu | exact Hrho | exact Hx].
Defined.

(** The uniform state of the examples has density and pressure one. *)
Lemma uniform_state_positive (i : Z) :
  (0 ≤ i < 8)%Z →
  (0 < vget QRHO (prim (at_ uniform_state i)))%R ∧
  (0 < vget QP (prim (at_ uniform_state i)))%R.
Proof.
  intros Hi. unfold at_, uniform_state.
  rewrite lookup_total_replicate_2 by lia.
  unfold prim, sqr, gamma. cbn. split; lra.
Qed.

Lemma timestep_cfl_witness :
  ∃ g, FVGrid_init 4 2 0%R 1%R = Ok g ∧ (0 < 1)%R ∧ ghosted g uniform_state ∧
    (∀ i, (ilo g ≤ i ≤ ihi g)%Z →
          (0 < vget QRHO (prim (at_ uniform_state i)))%R ∧
          (0 < vget QP (prim (at_ uniform_state i)))%R) ∧
    ∃ dt, timestep g uniform_state = Ok dt ∧
      (∀ i, (ilo g ≤ i ≤ ihi g)%Z →
            (signal_speed (prim (at_ uniform_state i)) * dt <= C * dx g)%R) ∧
      (∃ i, (ilo g ≤ i ≤ ihi g)%Z ∧
            (signal_speed (prim (at_ uniform_state i)) * dt = C * dx g)%R).
Proof.
  eexists. split; [reflexivity|]. split; [lra|]. split; [reflexivity|].
  assert (Hpos : ∀ i, (2 ≤ i ≤ 5)%Z →
            (0 < vget QRHO (prim (at_ uniform_state i)))%R ∧
            (0 < vget QP (prim (at_ uniform_state i)))%R).
  { intros i Hi. apply uniform_state_positive. lia. }
  split; [exact Hpos|].
  apply (timestep_cfl 4 2 0%R 1%R _ uniform_state);
    [reflexivity | lia | lia | lra | reflexivity | exact Hpos].
Defined.


(** The first timestep of the uniform state of the examples. *)
Lemma uniform_state_timestep g :
  FVGrid_init 4 2 0%R 1%R = Ok g →
  timestep g uniform_state = Ok (div (mul C (dx g)) (s_max g uniform_state)) ∧
  (0 < div (mul C (dx g)) (s_max g uniform_state))%R.
Proof.
  intros Hg.
  assert (Hinv : grid_inv g)
    by (apply (FVGrid_init_grid_inv 4 2 0%R 1%R); [done | lia | lia]).
  injection Hg as <-.
  match goal with |- timestep ?g _ = _ ∧ _ =>
    assert (Hd : (0 < dx g)%R) by (cbn [dx]; real_arith; lra);
    destruct (timestep_real g uniform_state 2 Hinv eq_refl Hd ltac:(cbn; lia)
                (proj1 (uniform_state_positive 2 ltac:(lia)))
                (proj2 (uniform_state_positive 2 ltac:(lia)))) as (Hdt & _ & Hpos)
  end.
  split; [exact Hdt | exact Hpos].
Qed.

Lemma mol_iter_time_witness :
  ∃ g dt, FVGrid_init 4 2 0%R 1%R = Ok g ∧ ghosted g uniform_state ∧
    timestep g uniform_state = Ok dt ∧ (0 < dt)%R ∧ (0 < 2 / 10)%R ∧
    ∃ U' dt' m,
      mol_iter sample_riemann g (2 / 10)%R uniform_state 0%R
      = Ok (Rmin (0 + dt) (2 / 10), U', (0%R, dt', m)) ∧
      mol_step sample_riemann g uniform_state dt' = Ok U' ∧ ghosted g U' ∧
      (0 + dt' = Rmin (0 + dt) (2 / 10))%R ∧ (0 < dt' <= dt)%R ∧
      (0 < Rmin (0 + dt) (2 / 10) <= 2 / 10)%R.
Proof.
  eexists. eexists. split; [reflexivity|]. split; [reflexivity|].
  split; [apply uniform_state_timestep; reflexivity|].
  split; [apply uniform_state_timestep; reflexivity|]. split; [lra|].
  apply (mol_iter_time sample_riemann 4 2 0%R 1%R _ (2 / 10)%R uniform_state 0%R);
    [reflexivity | lia | lia | reflexivity
    | apply uniform_state_timestep; reflexivity
    | apply uniform_state_timestep; reflexivity | lra].
Defined.




Lemma ghost_cells_never_read_witness :
  ∃ g, FVGrid_init 4 2 0%float 1%float = Ok g ∧
    ghosted g sod_state ∧ ghosted g (take 2 vacuum_state ++ drop 2 sod_state) ∧
    timestep g sod_state = timestep g (take 2 vacuum_state ++ drop 2 sod_state) ∧
    mol_step sample_riemann g sod_state 0.125%float
    = mol_step sample_riemann g (take 2 vacuum_state ++ drop 2 sod_state) 0.125%float.
Proof.
  eexists. split; [reflexivity|]. split; [reflexivity|]. split; [reflexivity|].
  apply (ghost_cells_never_read sample_riemann 4 2 0%float 1%float _
           sod_state (take 2 vacuum_state ++ drop 2 sod_state));
    [reflexivity | lia | lia | reflexivity | reflexivity |].
  intros i Hi. simpl in Hi.
  assert (Hc : i = 2%Z ∨ i = 3%Z ∨ i = 4%Z ∨ i = 5%Z) by lia.
  destruct Hc as [-> | [-> | [-> | ->]]]; reflexivity.
Defined.

Lemma mol_solve_nonpositive_nx_witness :
  mol_solve (F := float) sample_riemann 1 (-1) = Some (Raise ValueError) ∧
  mol_solve (F := float) sample_riemann 1 0 = Some (Raise ZeroDivisionError) ∧
  mol_solve (F := float) sample_riemann 1 (- 10 ^ 400) = Some (Raise OverflowError).
Proof.
  split; [|split].
  - rewrite (mol_solve_nonpositive_nx (F := float) sample_riemann 0 (-1));
      [vm_compute; reflexivity | reflexivity | lia | left; lia].
  - rewrite (mol_solve_nonpositive_nx (F := float) sample_riemann 0 0);
      [vm_compute; reflexivity | reflexivity | lia | left; lia].
  - rewrite (mol_solve_nonpositive_nx (F := float) sample_riemann 0 (- 10 ^ 400));
      [vm_compute; reflexivity | reflexivity | lia | right; vm_compute; reflexivity].
Defined.

(** With 49 cells the centre of the cell 26 is one half in exact arithmetic and
    [0.49999999999999994] in binary64: the cell holds the left state. *)
Lemma initial_conditions_sod_witness :
  ∃ g, FVGrid_init 49 2 0%float 1%float = Ok g ∧
    Forall (λ xc, geb xc lit_0_5 = negb (ltb xc lit_0_5)) (x g) ∧
    at_ (x g) 26 = 0x1.fffffffffffffp-2%float ∧
    ∃ U0, (U ← scratch_array g; initial_conditions g U) = Ok U0 ∧
      ghosted g U0 ∧
      at_ U0 26 = (V3 1 0 0x1.4000000000001p+1)%float ∧
      at_ U0 27 = (V3 0.125 0 0x1.0000000000001p-2)%float.
Proof.
  eexists. split; [reflexivity|].
  match goal with |- Forall ?P ?l ∧ _ =>
    assert (Hmask : Forall P l)
      by (let l' := eval vm_compute in l in change (Forall P l');
          repeat (constructor; [vm_compute; reflexivity|]); constructor)
  end.
  split; [exact Hmask|]. split; [vm_compute; reflexivity|].
  match type of Hmask with Forall _ (x ?g) =>
    assert (Hg : FVGrid_init 49 2 0%float 1%float = Ok g) by reflexivity;
    destruct (initial_conditions_sod (F := float) 49 2 0%float 1%float g Hg ltac:(lia)
                Hmask) as (U0 & HU0 & HgU0 & Hat)
  end.
  exists U0. split; [exact HU0|]. split; [exact HgU0|].
  split; [rewrite (Hat 26%Z) by lia | rewrite (Hat 27%Z) by lia];
    vm_compute; reflexivity.
Defined.

(** On four cells, with the stand-in solver, the second timestep is NaN; the
    time becomes NaN and the loop is left after two passes. *)
Lemma mol_loop_never_raises_witness :
  ∃ g, FVGrid_init 4 2 0%float 1%float = Ok g ∧ ghosted g sod_state ∧
    ∃ U' lines t_end,
      mol_loop sample_riemann 2 g lit_0_2 sod_state 0%float [] = Some (Ok (U', lines)) ∧
      length lines = 2 ∧ ghosted g U' ∧
      printed_chain (F := float) lit_0_2 0%float lines t_end.
Proof.
  eexists. split; [reflexivity|]. split; [reflexivity|].
  match goal with |- context [mol_loop _ _ ?g _ _ _ _] =>
    assert (Hg : FVGrid_init 4 2 0%float 1%float = Ok g) by reflexivity;
    assert (HU : ghosted g sod_state) by reflexivity;
    destruct (mol_loop_never_raises sample_riemann 4 2 0%float 1%float g lit_0_2 2
                sod_state 0%float [] Hg ltac:(lia) ltac:(lia) HU)
      as [Hnone | (U' & lines & t_end & Hloop & HU' & Hchain)]
  end.
  - vm_compute in Hnone. discriminate.
  - exists U', lines, t_end. split; [exact Hloop|].
    split; [|split; [exact HU' | exact Hchain]].
    vm_compute in Hloop. by injection Hloop as _ <-.
Defined.

Lemma mol_solve_never_raises_witness :
  ∃ U lines t_end,
    mol_solve (F := float) sample_riemann 2 4 = Some (Ok (U, lines)) ∧
    length lines = 2 ∧ length U = 8 ∧
    printed_chain (F := float) lit_0_2 zero lines t_end.
Proof.
  assert (Hfit : int_fits (F := float) 4 = true) by reflexivity.
  destruct (mol_solve_never_raises (F := float) sample_riemann 2 4 ltac:(lia) Hfit)
    as [Hnone | (U & lines & t_end & Hrun & HlU & Hchain)].
  - vm_compute in Hnone. discriminate.
  - exists U, lines, t_end. split; [exact Hrun|].
    split; [|split; [exact HlU | exact Hchain]].
    vm_compute in Hrun. by injection Hrun as _ <-.
Defined.

(** After a step on Sod's state the ghost cell 0 holds the first interior
    cell of the state before the step, not the new one. *)
Lemma mol_step_ghost_cells_witness :
  ∃ g, FVGrid_init 4 2 0%float 1%float = Ok g ∧ ghosted g sod_state ∧
    ∃ U', mol_step sample_riemann g sod_state 0.125%float = Ok U' ∧
      ghosted g U' ∧
      at_ U' 0 = at_ sod_state 2 ∧ at_ U' 7 = at_ sod_state 5 ∧
      at_ U' 0 ≠ at_ U' 2.
Proof.
  eexists. split; [reflexivity|]. split; [reflexivity|].
  match goal with |- context [mol_step _ ?g _ _] =>
    assert (Hg : FVGrid_init 4 2 0%float 1%float = Ok g) by reflexivity;
    assert (HU : ghosted g sod_state) by reflexivity;
    destruct (mol_step_ghost_cells sample_riemann 4 2 0%float 1%float g sod_state
                0.125%float Hg ltac:(lia) ltac:(lia) HU) as (U' & Hstep & HU' & Hlo & Hhi)
  end.
  exists U'. split; [exact Hstep|]. split; [exact HU'|].
  split; [rewrite (Hlo 0%Z) by (cbn; lia); vm_compute; reflexivity|].
  split; [rewrite (Hhi 7%Z) by (cbn; lia); vm_compute; reflexivity|].
  vm_compute in Hstep. injection Hstep as <-. vm_compute. discriminate.
Defined.
